(** * RahaSoldi-IMS: the reconciliation core of [App.tsx]

    A shallow embedding of the handlers of the application component
    ([handleCompleteSale], [handleCreatePO], [handleUpdatePOStatus],
    [fetchData], the catalogue and expense handlers), of the forms of the
    purchase-order and inventory screens and of the figures of the dashboard
    and of the financial report, with the properties the specification
    states about them and further properties of the code.

    Conventions of the embedding.
    - A JavaScript [number] that holds money (a price, a cost, an amount, a
      total) is an IEEE-754 binary64 value ([number]), and [+], [-], [*] on
      money are the correctly rounded operations of that format, applied in
      the order the source applies them.  A [number] that holds a count (a
      quantity, a threshold) is an integer ([Z]); counts come from
      [parseInt] and from sums and differences of counts, which are exact
      below [2^53], and a count enters money arithmetic as the double that
      holds it.
    - An ISO-8601 timestamp, the result of [new Date().toISOString()], is the
      instant it renders, in milliseconds since the epoch ([Z]).  The
      rendering is injective and its first ten characters ([YYYY-MM-DD]) are
      the UTC calendar day of the instant.  The local time zone of the host
      is a parameter of what reads local time.
    - React state is the [World]'s first four fields.  A handler reads the
      state variables of the render it was created in (its closure) and
      schedules updates with the setters; handlers run one after the other,
      each from the state the previous one left, and the [fetchData()] a
      handler starts without awaiting it runs to its end before the next
      handler starts.
    - The remote store, the clock, the identifier source and the [alert]
      dialog are part of the [World]; a handler is a computation in the
      state-and-exception monad [M]. *)

From Stdlib Require Import ZArith String List Lia Bool.
From Stdlib Require Import Floats.SpecFloat.
From stdpp Require Import base tactics option list strings.
Import ListNotations.

Local Open Scope Z_scope.

(** ** The numbers of the source language *)

(** A [number]: an IEEE-754 binary64 value, with the operations of the
    Standard Library's specification of floating-point arithmetic at
    precision 53 and rounding to nearest, ties to even. *)
Definition number := spec_float.

Module Number.
Definition prec : Z := 53.
Definition emax : Z := 1024.

Definition add : number -> number -> number := SFadd prec emax.
Definition sub : number -> number -> number := SFsub prec emax.
Definition mul : number -> number -> number := SFmul prec emax.
Definition div : number -> number -> number := SFdiv prec emax.

(** The number nearest to an integer; the integer itself below [2^53] in
    magnitude. *)
Definition of_Z (n : Z) : number := binary_normalize prec emax n 0 false.

(** [Math.trunc] of a finite number, as an integer. *)
Definition to_Z (x : number) : Z :=
  match x with
  | S754_finite s m e =>
      cond_Zopp s (if e <? 0 then Zpos m / 2 ^ (- e) else Zpos m * 2 ^ e)
  | _ => 0
  end.

(** A non-negative whole number below [2^53]
    ([Number.isSafeInteger(x) && x >= 0], the sign of zero apart). *)
Definition whole (x : number) : Prop :=
  0 <= to_Z x < 2 ^ 53 /\ x = of_Z (to_Z x).

(** What [parseFloat] returns for a decimal text with two fraction digits
    that spells [n] hundredths, [0 <= n < 2^53]: the number nearest to
    [n / 100]. *)
Definition cents (n : Z) : number := div (of_Z n) (of_Z 100).

(** The value of a finite number in units of [2^-1074], of which every
    finite number is an integer multiple. *)
Definition units (x : number) : option Z :=
  match x with
  | S754_zero _ => Some 0
  | S754_finite s m e => Some (cond_Zopp s (Zpos m * 2 ^ (e + 1074)))
  | _ => None
  end.

(** The mantissa and exponent of the number that holds a non-zero integer
    [N] below [2^53] in magnitude, with sign [s]. *)
Definition canon (s : bool) (N : Z) : number :=
  S754_finite s (Z.to_pos (N * 2 ^ (52 - Z.log2 N))) (Z.log2 N - 52).
End Number.

(** A count in money arithmetic is the number that holds it. *)
Coercion Number.of_Z : Z >-> number.

Global Arguments Number.of_Z : simpl never.
Global Arguments Number.add : simpl never.
Global Arguments Number.sub : simpl never.
Global Arguments Number.mul : simpl never.
Global Arguments Number.div : simpl never.

Declare Scope number_scope.
Delimit Scope number_scope with num.
Infix "+" := Number.add : number_scope.
Infix "-" := Number.sub : number_scope.
Infix "*" := Number.mul : number_scope.

(** ** Domain types ([types.ts]) *)

Definition Timestamp := Z.

Module InventoryItem.
Record t := mk {
  id : string;
  name : string;
  category : string;
  quantity : Z;
  costPrice : number;
  salesPrice : number;
  lowStockThreshold : Z;
  lastUpdated : Timestamp
}.

(** [{ ...item, quantity: q, lastUpdated: ts }] *)
Definition with_quantity (item : t) (q : Z) (ts : Timestamp) : t :=
  mk (id item) (name item) (category item) q (costPrice item)
     (salesPrice item) (lowStockThreshold item) ts.
End InventoryItem.

Module SaleItem.
Record t := mk {
  itemId : string;
  name : string;
  quantity : Z;
  priceAtSale : number;
  costAtSale : number
}.
End SaleItem.

Module SaleRecord.
Record t := mk {
  id : string;
  items : list SaleItem.t;
  totalAmount : number;
  totalProfit : number;
  timestamp : Timestamp
}.
End SaleRecord.

Module ExpenseRecord.
Record t := mk {
  id : string;
  description : string;
  amount : number;
  category : string;
  date : Timestamp;
  recordedAt : Timestamp
}.
End ExpenseRecord.

Module PurchaseOrderItem.
Record t := mk {
  itemId : string;
  name : string;
  quantity : Z;
  unitCost : number
}.
End PurchaseOrderItem.

(** ['ordered' | 'received' | 'cancelled'] *)
Inductive POStatus := ordered | received | cancelled.

Global Instance POStatus_eq_dec : EqDecision POStatus.
Proof. solve_decision. Defined.

(** The argument type of the status handler: ['received' | 'cancelled']. *)
Inductive StatusUpdate := to_received | to_cancelled.

Definition status_of (u : StatusUpdate) : POStatus :=
  match u with to_received => received | to_cancelled => cancelled end.

(** [Omit<PurchaseOrder, 'id'>], what the screen hands to [onCreateOrder]. *)
Module PurchaseOrderDraft.
Record t := mk {
  supplier : string;
  date : Timestamp;
  status : POStatus;
  items : list PurchaseOrderItem.t;
  totalCost : number;
  notes : option string
}.
End PurchaseOrderDraft.

Module PurchaseOrder.
Record t := mk {
  id : string;
  supplier : string;
  date : Timestamp;
  status : POStatus;
  items : list PurchaseOrderItem.t;
  totalCost : number;
  notes : option string
}.

(** [{ ...p, status }] *)
Definition with_status (p : t) (s : POStatus) : t :=
  mk (id p) (supplier p) (date p) s (items p) (totalCost p) (notes p).

(** [{ ...po, id }] *)
Definition of_draft (d : PurchaseOrderDraft.t) (i : string) : t :=
  mk i (PurchaseOrderDraft.supplier d) (PurchaseOrderDraft.date d)
     (PurchaseOrderDraft.status d) (PurchaseOrderDraft.items d)
     (PurchaseOrderDraft.totalCost d) (PurchaseOrderDraft.notes d).
End PurchaseOrder.

(** ** Array helpers of the source language *)

(** [arr.reduce(f, init)] *)
Definition reduce {A B : Type} (f : B -> A -> B) (init : B) (arr : list A) : B :=
  fold_left f arr init.

Global Arguments reduce : simpl never.

(** [arr.findIndex(p)]: the first index whose element satisfies [p], or -1. *)
Fixpoint findIndex {A : Type} (p : A -> bool) (arr : list A) : Z :=
  match arr with
  | [] => -1
  | x :: rest =>
      if p x then 0
      else let i := findIndex p rest in if i <? 0 then -1 else i + 1
  end.

(** [arr.find(p)]: the first element that satisfies [p], or undefined. *)
Fixpoint find {A : Type} (p : A -> bool) (arr : list A) : option A :=
  match arr with
  | [] => None
  | x :: rest => if p x then Some x else find p rest
  end.

(** [arr[i]] for an index that [findIndex] returned. *)
Definition at_index {A : Type} (arr : list A) (i : Z) : option A :=
  if i <? 0 then None else arr !! Z.to_nat i.

(** [arr[i] = x] for an index inside the array. *)
Definition set_index {A : Type} (arr : list A) (i : Z) (x : A) : list A :=
  <[Z.to_nat i := x]> arr.

(** ** The remote store gateway *)

(** Modelled from the spec: the client of the hosted store
    ([services/supabaseClient]) is not part of the sources.  Section 6 gives
    four collections with list-all, insert-one and update-by-id on a partial
    field set, and errors surfaced as a failure signal; the call sites read
    that signal from the [error] field of the awaited result.  An awaited
    call can also reject, which raises in the caller. *)
Module Store.
Record t := mk {
  inventory : list InventoryItem.t;
  sales : list SaleRecord.t;
  expenses : list ExpenseRecord.t;
  purchase_orders : list PurchaseOrder.t
}.
End Store.

Definition Error := string.

Inductive Call :=
| SelectInventory
| SelectSales
| SelectExpenses
| SelectPurchaseOrders
| InsertSale (row : SaleRecord.t)
| InsertPurchaseOrder (row : PurchaseOrder.t)
| UpdateInventory (id : string) (quantity : Z) (lastUpdated : Timestamp)
| UpdatePurchaseOrderStatus (id : string) (status : POStatus).

Definition is_write (c : Call) : bool :=
  match c with
  | SelectInventory | SelectSales | SelectExpenses | SelectPurchaseOrders => false
  | _ => true
  end.

(** What the store does with one awaited call. *)
Inductive Outcome :=
| Ok                      (* resolves with [error: null] *)
| Fails (e : Error)       (* resolves with [error: e], nothing written *)
| Rejects (e : Error).    (* the promise rejects, nothing written *)

(** [.update({ quantity, lastUpdated }).eq('id', id)] *)
Definition update_inventory_row (id : string) (q : Z) (ts : Timestamp)
    (row : InventoryItem.t) : InventoryItem.t :=
  if bool_decide (InventoryItem.id row = id)
  then InventoryItem.with_quantity row q ts else row.

(** [.update({ status }).eq('id', id)] *)
Definition update_po_row (id : string) (s : POStatus)
    (row : PurchaseOrder.t) : PurchaseOrder.t :=
  if bool_decide (PurchaseOrder.id row = id)
  then PurchaseOrder.with_status row s else row.

Definition apply_call (c : Call) (s : Store.t) : Store.t :=
  match c with
  | SelectInventory | SelectSales | SelectExpenses | SelectPurchaseOrders => s
  | InsertSale row =>
      Store.mk (Store.inventory s) (Store.sales s ++ [row])
               (Store.expenses s) (Store.purchase_orders s)
  | InsertPurchaseOrder row =>
      Store.mk (Store.inventory s) (Store.sales s)
               (Store.expenses s) (Store.purchase_orders s ++ [row])
  | UpdateInventory id q ts =>
      Store.mk (map (update_inventory_row id q ts) (Store.inventory s))
               (Store.sales s) (Store.expenses s) (Store.purchase_orders s)
  | UpdatePurchaseOrderStatus id st =>
      Store.mk (Store.inventory s) (Store.sales s) (Store.expenses s)
               (map (update_po_row id st) (Store.purchase_orders s))
  end.

(** [.order(key, { ascending: false })]: rows by descending key, rows with
    equal keys in table order. *)
Fixpoint insert_desc {A : Type} (key : A -> Z) (x : A) (sorted : list A) : list A :=
  match sorted with
  | [] => [x]
  | y :: rest =>
      if key y <? key x then x :: y :: rest
      else y :: insert_desc key x rest
  end.

Definition order_desc {A : Type} (key : A -> Z) (rows : list A) : list A :=
  fold_left (fun acc x => insert_desc key x acc) rows [].

(** What a successful list-all of each collection returns. *)
Definition read_inventory (s : Store.t) : list InventoryItem.t := Store.inventory s.
Definition read_sales (s : Store.t) : list SaleRecord.t :=
  order_desc SaleRecord.timestamp (Store.sales s).
Definition read_expenses (s : Store.t) : list ExpenseRecord.t :=
  order_desc ExpenseRecord.date (Store.expenses s).
Definition read_purchase_orders (s : Store.t) : list PurchaseOrder.t :=
  order_desc PurchaseOrder.date (Store.purchase_orders s).

(** ** The world a handler runs in *)

Record World := mkWorld {
  (* React state of the application component *)
  inventory : list InventoryItem.t;
  sales : list SaleRecord.t;
  expenses : list ExpenseRecord.t;
  purchaseOrders : list PurchaseOrder.t;
  session : bool;
  loading : bool;
  (* the environment *)
  store : Store.t;
  outcomes : list Outcome;      (* what the store does with the coming calls *)
  calls : list Call;            (* the calls issued so far, oldest first *)
  alerts : list string;         (* the notices shown with [alert] *)
  clock : nat -> Timestamp;     (* successive readings of [new Date()] *)
  ticks : nat;
  uuids : nat -> string;        (* successive [crypto.randomUUID()] results *)
  drawn : nat
}.

Definition Completion (A : Type) : Type := (A + Error)%type.

Definition M (A : Type) : Type := World -> Completion A * World.

Global Instance M_ret : MRet M := fun A a w => (inl a, w).
Global Instance M_bind : MBind M := fun A B f m w =>
  match m w with
  | (inl a, w') => f a w'
  | (inr e, w') => (inr e, w')
  end.

Definition throw {A : Type} (e : Error) : M A := fun w => (inr e, w).

(** [try { body } catch (err) { handler }] *)
Definition try_catch {A : Type} (body : M A) (handler : Error -> M A) : M A :=
  fun w =>
    match body w with
    | (inl a, w') => (inl a, w')
    | (inr e, w') => handler e w'
    end.

(** [try { body } finally { cleanup }] for a [cleanup] that completes. *)
Definition try_finally {A : Type} (body : M A) (cleanup : World -> World) : M A :=
  fun w => let '(r, w') := body w in (r, cleanup w').

Definition modify (f : World -> World) : M unit := fun w => (inl tt, f w).
Definition gets {A : Type} (f : World -> A) : M A := fun w => (inl (f w), w).

(** [for (const x of xs) { body }] *)
Fixpoint for_of {A : Type} (xs : list A) (body : A -> M unit) : M unit :=
  match xs with
  | [] => mret tt
  | x :: rest => body x ;; for_of rest body
  end.

(** A loop that carries a local variable through its iterations. *)
Fixpoint for_of_with {A S : Type} (xs : list A) (body : S -> A -> M S) (s : S) : M S :=
  match xs with
  | [] => mret s
  | x :: rest => s' ← body s x; for_of_with rest body s'
  end.

(** *** State setters *)

Definition set_inventory (v : list InventoryItem.t) (w : World) : World :=
  mkWorld v (sales w) (expenses w) (purchaseOrders w) (session w) (loading w)
          (store w) (outcomes w) (calls w) (alerts w) (clock w) (ticks w)
          (uuids w) (drawn w).
Definition set_sales (v : list SaleRecord.t) (w : World) : World :=
  mkWorld (inventory w) v (expenses w) (purchaseOrders w) (session w) (loading w)
          (store w) (outcomes w) (calls w) (alerts w) (clock w) (ticks w)
          (uuids w) (drawn w).
Definition set_expenses (v : list ExpenseRecord.t) (w : World) : World :=
  mkWorld (inventory w) (sales w) v (purchaseOrders w) (session w) (loading w)
          (store w) (outcomes w) (calls w) (alerts w) (clock w) (ticks w)
          (uuids w) (drawn w).
Definition set_purchaseOrders (v : list PurchaseOrder.t) (w : World) : World :=
  mkWorld (inventory w) (sales w) (expenses w) v (session w) (loading w)
          (store w) (outcomes w) (calls w) (alerts w) (clock w) (ticks w)
          (uuids w) (drawn w).
Definition set_loading (v : bool) (w : World) : World :=
  mkWorld (inventory w) (sales w) (expenses w) (purchaseOrders w) (session w) v
          (store w) (outcomes w) (calls w) (alerts w) (clock w) (ticks w)
          (uuids w) (drawn w).
Definition push_alert (msg : string) (w : World) : World :=
  mkWorld (inventory w) (sales w) (expenses w) (purchaseOrders w) (session w)
          (loading w) (store w) (outcomes w) (calls w) (alerts w ++ [msg])
          (clock w) (ticks w) (uuids w) (drawn w).

Definition setInventory (v : list InventoryItem.t) : M unit := modify (set_inventory v).
Definition setSales (f : list SaleRecord.t -> list SaleRecord.t) : M unit :=
  modify (fun w => set_sales (f (sales w)) w).
Definition setExpenses (v : list ExpenseRecord.t) : M unit := modify (set_expenses v).
Definition setPurchaseOrders (f : list PurchaseOrder.t -> list PurchaseOrder.t) : M unit :=
  modify (fun w => set_purchaseOrders (f (purchaseOrders w)) w).
Definition setLoading (v : bool) : M unit := modify (set_loading v).
Definition alert (msg : string) : M unit := modify (push_alert msg).

(** [new Date().toISOString()] *)
Definition now : M Timestamp := fun w =>
  (inl (clock w (ticks w)),
   mkWorld (inventory w) (sales w) (expenses w) (purchaseOrders w) (session w)
           (loading w) (store w) (outcomes w) (calls w) (alerts w)
           (clock w) (S (ticks w)) (uuids w) (drawn w)).

(** [crypto.randomUUID()] *)
Definition randomUUID : M string := fun w =>
  (inl (uuids w (drawn w)),
   mkWorld (inventory w) (sales w) (expenses w) (purchaseOrders w) (session w)
           (loading w) (store w) (outcomes w) (calls w) (alerts w)
           (clock w) (ticks w) (uuids w) (S (drawn w))).

(** *** Awaited calls of the gateway *)

Definition next_outcome (w : World) : Outcome :=
  match outcomes w with [] => Ok | o :: _ => o end.

Definition issued (c : Call) (st : Store.t) (w : World) : World :=
  mkWorld (inventory w) (sales w) (expenses w) (purchaseOrders w) (session w)
          (loading w) st (tail (outcomes w)) (calls w ++ [c]) (alerts w)
          (clock w) (ticks w) (uuids w) (drawn w).

(** [await supabase.from(...)...]: the pair [{ data, error }] of the result,
    [data] read off the store by [data_of]. *)
Definition await {A : Type} (c : Call) (data_of : Store.t -> A)
    : M (option A * option Error) := fun w =>
  match next_outcome w with
  | Ok => let st := apply_call c (store w) in
          (inl (Some (data_of st), None), issued c st w)
  | Fails e => (inl (None, Some e), issued c (store w) w)
  | Rejects e => (inr e, issued c (store w) w)
  end.

(** [if (error) throw error] *)
Definition throw_if (error : option Error) : M unit :=
  match error with Some e => throw e | None => mret tt end.

(** ** The handlers of the application component *)

(** [setX(value)] as an updater. *)
Definition replace_by {A : Type} (v : A) : A -> A := fun _ => v.

(** [fetchData]: re-reads the four collections, in this order. *)
Definition fetchData : M unit :=
  signed_in ← gets session;
  if negb signed_in then mret tt
  else
    setLoading true;;
    try_finally
      (try_catch
         ('(invData, invError) ← await SelectInventory read_inventory;
          throw_if invError;;
          (match invData with
           | Some d => setInventory d
           | None => mret tt
           end);;
          '(salesData, salesError) ← await SelectSales read_sales;
          throw_if salesError;;
          (match salesData with
           | Some d => setSales (replace_by d)
           | None => mret tt
           end);;
          '(expData, expError) ← await SelectExpenses read_expenses;
          throw_if expError;;
          (match expData with
           | Some d => setExpenses d
           | None => mret tt
           end);;
          '(poData, poError) ← await SelectPurchaseOrders read_purchase_orders;
          match poError, poData with
          | Some _, _ => mret tt               (* console.warn *)
          | None, Some d => setPurchaseOrders (replace_by d)
          | None, None => mret tt
          end)
         (fun error => mret tt))               (* console.error *)
      (set_loading false).

(** The body of [items.forEach] in [handleCompleteSale], on the local copy
    [newInventory]. *)
Definition sell_locally (newInventory : list InventoryItem.t) (saleItem : SaleItem.t)
    : M (list InventoryItem.t) :=
  let productIndex :=
    findIndex (fun p => bool_decide (InventoryItem.id p = SaleItem.itemId saleItem))
              newInventory in
  if -1 <? productIndex then
    match at_index newInventory productIndex with
    | Some product =>
        lastUpdated ← now;
        mret (set_index newInventory productIndex
                (InventoryItem.with_quantity product
                   (InventoryItem.quantity product - SaleItem.quantity saleItem)
                   lastUpdated))
    | None => throw "TypeError"%string
    end
  else mret newInventory.

(** The body of the [for ... of items] loop of the remote phase, on the
    state variable [inventory] of the handler's closure. *)
Definition sell_remotely (inventory : list InventoryItem.t) (item : SaleItem.t) : M unit :=
  match find (fun i => bool_decide (InventoryItem.id i = SaleItem.itemId item)) inventory with
  | Some currentItem =>
      let newQty := InventoryItem.quantity currentItem - SaleItem.quantity item in
      lastUpdated ← now;
      _ ← await (UpdateInventory (SaleItem.itemId item) newQty lastUpdated) (fun _ => tt);
      mret tt
  | None => mret tt
  end.

(** [handleCompleteSale] up to its first [await]: the totals, the new record
    and the optimistic update.  Returns the closure's [inventory] and the new
    record for the remote phase. *)
Definition handleCompleteSale_optimistic (items : list SaleItem.t)
    : M (list InventoryItem.t * SaleRecord.t) :=
  inventory ← gets inventory;
  let totalAmount : number :=
    reduce (fun sum item => sum + SaleItem.quantity item * SaleItem.priceAtSale item)%num
           0 items in
  let totalCost : number :=
    reduce (fun sum item => sum + SaleItem.quantity item * SaleItem.costAtSale item)%num
           0 items in
  id ← randomUUID;
  timestamp ← now;
  let newSale :=
    SaleRecord.mk id items totalAmount (totalAmount - totalCost)%num timestamp in
  newInventory ← for_of_with items sell_locally inventory;
  setInventory newInventory;;
  setSales (fun prev => newSale :: prev);;
  mret (inventory, newSale).

(** The [try { ... } catch] of [handleCompleteSale]. *)
Definition handleCompleteSale_persist (inventory : list InventoryItem.t)
    (items : list SaleItem.t) (newSale : SaleRecord.t) : M unit :=
  try_catch
    ('(_, saleError) ← await (InsertSale newSale) (fun _ => tt);
     throw_if saleError;;
     for_of items (sell_remotely inventory))
    (fun err =>
       alert "Error saving sale to database. Please check connection.";;
       fetchData).

Definition handleCompleteSale (items : list SaleItem.t) : M unit :=
  '(inventory, newSale) ← handleCompleteSale_optimistic items;
  handleCompleteSale_persist inventory items newSale.

Definition handleCreatePO (po : PurchaseOrderDraft.t) : M unit :=
  id ← randomUUID;
  let newPO := PurchaseOrder.of_draft po id in
  setPurchaseOrders (fun prev => newPO :: prev);;
  try_catch
    ('(_, error) ← await (InsertPurchaseOrder newPO) (fun _ => tt);
     throw_if error)
    (fun err => alert "Failed to save Purchase Order.";; fetchData).

(** The body of [for (const item of po.items)] in [handleUpdatePOStatus], on
    the local copy [updatedInventory]. *)
Definition receive_item (updatedInventory : list InventoryItem.t)
    (item : PurchaseOrderItem.t) : M (list InventoryItem.t) :=
  let invIndex :=
    findIndex (fun i => bool_decide (InventoryItem.id i = PurchaseOrderItem.itemId item))
              updatedInventory in
  if -1 <? invIndex then
    match at_index updatedInventory invIndex with
    | Some currentInv =>
        let newQty := InventoryItem.quantity currentInv + PurchaseOrderItem.quantity item in
        localStamp ← now;
        let updatedInventory' :=
          set_index updatedInventory invIndex
            (InventoryItem.with_quantity currentInv newQty localStamp) in
        remoteStamp ← now;
        _ ← await (UpdateInventory (PurchaseOrderItem.itemId item) newQty remoteStamp)
                  (fun _ => tt);
        mret updatedInventory'
    | None => throw "TypeError"%string
    end
  else mret updatedInventory.

Definition handleUpdatePOStatus (id : string) (status : StatusUpdate) : M unit :=
  purchaseOrders ← gets purchaseOrders;
  inventory ← gets inventory;
  match find (fun p => bool_decide (PurchaseOrder.id p = id)) purchaseOrders with
  | None => mret tt
  | Some po =>
      setPurchaseOrders
        (map (fun p => if bool_decide (PurchaseOrder.id p = id)
                       then PurchaseOrder.with_status p (status_of status) else p));;
      try_catch
        ('(_, error) ← await (UpdatePurchaseOrderStatus id (status_of status)) (fun _ => tt);
         throw_if error;;
         if bool_decide (status_of status = received)
            && negb (bool_decide (PurchaseOrder.status po = received))
         then
           updatedInventory ← for_of_with (PurchaseOrder.items po) receive_item inventory;
           setInventory updatedInventory
         else mret tt)
        (fun err => alert "Failed to update order status.";; fetchData)
  end.

(** ** The purchase-order screen ([PurchaseOrdersManager]) *)

Inductive ViewMode := list_view | create_view.

(** The form state of the screen. *)
Module OrderForm.
Record t := mk {
  viewMode : ViewMode;
  supplier : string;
  notes : string;
  orderItems : list PurchaseOrderItem.t
}.
End OrderForm.

(** [handleSubmitOrder], with the [onCreateOrder] property of the screen. *)
Definition handleSubmitOrder (onCreateOrder : PurchaseOrderDraft.t -> M unit)
    (form : OrderForm.t) : M OrderForm.t :=
  let supplier := OrderForm.supplier form in
  let orderItems := OrderForm.orderItems form in
  if bool_decide (supplier = ""%string) || (Z.of_nat (length orderItems) =? 0) then
    alert "Please provide a supplier name and add at least one item.";;
    mret form
  else
    let totalCost : number :=
      reduce (fun acc item =>
                acc + PurchaseOrderItem.quantity item * PurchaseOrderItem.unitCost item)%num
             0 orderItems in
    date ← now;
    onCreateOrder
      (PurchaseOrderDraft.mk supplier date ordered orderItems totalCost
         (Some (OrderForm.notes form)));;
    mret (OrderForm.mk list_view ""%string ""%string []).

(** The operation the specification calls createPurchaseOrder: the screen's
    submit wired to the application's handler. *)
Definition createPurchaseOrder (form : OrderForm.t) : M OrderForm.t :=
  handleSubmitOrder handleCreatePO form.

(** The actions the list row of an order offers: the receive and cancel
    buttons are rendered under [po.status === 'ordered'] only. *)
Definition row_actions (po : PurchaseOrder.t) : list StatusUpdate :=
  if bool_decide (PurchaseOrder.status po = ordered)
  then [to_received; to_cancelled] else [].

(** ** The dashboard ([Dashboard.tsx]) *)

Definition msPerDay : Z := 86400000.

(** [d.toISOString().split('T')[0]]: the UTC calendar day of an instant, as
    a day number; it stands for the [YYYY-MM-DD] text, which it determines
    and which determines it. *)
Definition isoDate (d : Timestamp) : Z := d / msPerDay.

(** The local time zone of the host, as the language reads it: the offset
    of local time from UTC in milliseconds at an instant given in UTC
    ([LocalTZA(t, true)]) and at a local time ([LocalTZA(t, false)]). *)
Module Zone.
Record t := mk {
  at_utc : Timestamp -> Z;
  at_local : Z -> Z
}.

(** A zone whose offset never changes. *)
Definition fixed (offset : Z) : t := mk (fun _ => offset) (fun _ => offset).
End Zone.

(** [d.setDate(d.getDate() - i)]: the local time of [d], moved back [i]
    calendar days at the same time of day
    ([MakeDate(MakeDay(year, month, date - i), TimeWithinDay)]), read back as
    an instant ([UTC]). *)
Definition setDate_back (zone : Zone.t) (d : Timestamp) (i : Z) : Timestamp :=
  let localTime := d + Zone.at_utc zone d in
  let moved := localTime - i * msPerDay in
  moved - Zone.at_local zone moved.

(** [s.timestamp.startsWith(date)] *)
Definition startsWith (timestamp : Timestamp) (date : Z) : bool :=
  isoDate timestamp =? date.

Module ChartPoint.
Record t := mk {
  fullDate : Z;
  sales : number;
  profit : number
}.
End ChartPoint.

(** [new Array(7).fill(0).map((_, i) => ...).reverse()]; [today i] is the
    reading of [new Date()] in iteration [i]. *)
Definition last7Days (zone : Zone.t) (today : Z -> Timestamp) : list Z :=
  rev (map (fun i => isoDate (setDate_back zone (today i) i)) [0; 1; 2; 3; 4; 5; 6]).

Definition chartData (zone : Zone.t) (today : Z -> Timestamp) (sales : list SaleRecord.t)
    : list ChartPoint.t :=
  map (fun date =>
         let daySales := List.filter (fun s => startsWith (SaleRecord.timestamp s) date) sales in
         ChartPoint.mk date
           (reduce (fun acc s => acc + SaleRecord.totalAmount s)%num 0 daySales)
           (reduce (fun acc s => acc + SaleRecord.totalProfit s)%num 0 daySales))
      (last7Days zone today).

(** ** Vocabulary of the statements *)

Abbreviation has_id x := (fun p => bool_decide (InventoryItem.id p = x)).

(** The quantity of the first item bearing [id] moves by [delta]; the step
    both the sale and the receipt apply to their local copy. *)
Definition adjust (inv : list InventoryItem.t) (id : string) (delta : Z)
    (ts : Timestamp) : list InventoryItem.t :=
  match find (has_id id) inv with
  | Some p =>
      set_index inv (findIndex (has_id id) inv)
        (InventoryItem.with_quantity p (InventoryItem.quantity p + delta) ts)
  | None => inv
  end.

(** [inv'] results from [inv] by the adjustments [ds], in this order. *)
Inductive Adjusted : list (string * Z) -> list InventoryItem.t -> list InventoryItem.t -> Prop :=
| Adjusted_nil inv : Adjusted [] inv inv
| Adjusted_cons id delta ts ds inv inv' :
    Adjusted ds (adjust inv id delta ts) inv' ->
    Adjusted ((id, delta) :: ds) inv inv'.

(** The sum of the adjustments of [ds] that bear [id]. *)
Definition delta_for (ds : list (string * Z)) (id : string) : Z :=
  foldr (fun d acc => (if bool_decide (fst d = id) then snd d else 0) + acc) 0 ds.

(** The total quantity a sale sells of [id]. *)
Definition sold (items : list SaleItem.t) (id : string) : Z :=
  foldr (fun it acc =>
           (if bool_decide (SaleItem.itemId it = id) then SaleItem.quantity it else 0) + acc)
        0 items.

(** The total quantity an order brings of [id]. *)
Definition ordered_quantity (items : list PurchaseOrderItem.t) (id : string) : Z :=
  foldr (fun it acc =>
           (if bool_decide (PurchaseOrderItem.itemId it = id)
            then PurchaseOrderItem.quantity it else 0) + acc)
        0 items.

(** The item at index [k] is the one a lookup by its identifier finds. *)
Definition first_of_its_id (inv : list InventoryItem.t) (k : nat) (a : InventoryItem.t) : bool :=
  findIndex (has_id (InventoryItem.id a)) inv =? Z.of_nat k.

(** Two items agree on every field but [quantity] and [lastUpdated]. *)
Definition same_static (a b : InventoryItem.t) : Prop :=
  InventoryItem.id a = InventoryItem.id b /\
  InventoryItem.name a = InventoryItem.name b /\
  InventoryItem.category a = InventoryItem.category b /\
  InventoryItem.costPrice a = InventoryItem.costPrice b /\
  InventoryItem.salesPrice a = InventoryItem.salesPrice b /\
  InventoryItem.lowStockThreshold a = InventoryItem.lowStockThreshold b.

(** The world [n] clock readings later. *)
Definition advance (n : nat) (w : World) : World :=
  mkWorld (inventory w) (sales w) (expenses w) (purchaseOrders w) (session w)
          (loading w) (store w) (outcomes w) (calls w) (alerts w)
          (clock w) (n + ticks w) (uuids w) (drawn w).

(** The adjustments a sale makes, and those a receipt makes. *)
Definition sale_deltas (items : list SaleItem.t) : list (string * Z) :=
  map (fun it => (SaleItem.itemId it, - SaleItem.quantity it)) items.

Definition receipt_deltas (items : list PurchaseOrderItem.t) : list (string * Z) :=
  map (fun it => (PurchaseOrderItem.itemId it, PurchaseOrderItem.quantity it)) items.

(** The sum of [f] over an array. *)
Definition sum_of {A : Type} (f : A -> Z) (arr : list A) : Z :=
  foldr (fun x acc => f x + acc) 0 arr.

(** A sale item whose quantity is a count below [2^53] and whose price and
    cost are whole numbers. *)
Definition whole_sale_item (it : SaleItem.t) : Prop :=
  0 <= SaleItem.quantity it < 2 ^ 53 /\
  Number.whole (SaleItem.priceAtSale it) /\
  Number.whole (SaleItem.costAtSale it).

(** An order line whose quantity is a count below [2^53] and whose unit cost
    is a whole number. *)
Definition whole_order_item (it : PurchaseOrderItem.t) : Prop :=
  0 <= PurchaseOrderItem.quantity it < 2 ^ 53 /\
  Number.whole (PurchaseOrderItem.unitCost it).

(** The record [handleCompleteSale] builds in world [w]. *)
Definition newSale_in (w : World) (items : list SaleItem.t) : SaleRecord.t :=
  let totalAmount : number :=
    reduce (fun sum item => sum + SaleItem.quantity item * SaleItem.priceAtSale item)%num
           0 items in
  let totalCost : number :=
    reduce (fun sum item => sum + SaleItem.quantity item * SaleItem.costAtSale item)%num
           0 items in
  SaleRecord.mk (uuids w (drawn w)) items totalAmount (totalAmount - totalCost)%num
                (clock w (ticks w)).

(** The world after the optimistic update, with [inv'] the adjusted copy and
    [n] the clock readings of the loop. *)
Definition optimistic_world (w : World) (items : list SaleItem.t)
    (inv' : list InventoryItem.t) (n : nat) : World :=
  mkWorld inv' (newSale_in w items :: sales w) (expenses w) (purchaseOrders w)
          (session w) (loading w) (store w) (outcomes w) (calls w) (alerts w)
          (clock w) (n + S (ticks w)) (uuids w) (S (drawn w)).


Definition rejects (o : Outcome) : bool :=
  match o with Rejects _ => true | _ => false end.

(** The identifier and the quantity of an inventory update. *)
Definition update_of (c : Call) : option (string * Z) :=
  match c with UpdateInventory id q _ => Some (id, q) | _ => None end.

(** For each sale item with a match in [inventory], in item order: its
    identifier and the matching quantity less the quantity sold. *)
Definition expected_updates (inventory : list InventoryItem.t) (items : list SaleItem.t)
    : list (string * Z) :=
  omap (fun it =>
          match find (has_id (SaleItem.itemId it)) inventory with
          | Some cur => Some (SaleItem.itemId it,
                              InventoryItem.quantity cur - SaleItem.quantity it)
          | None => None
          end) items.

Abbreviation po_has_id x := (fun p => bool_decide (PurchaseOrder.id p = x)).

(** [prev.map(p => p.id === id ? { ...p, status } : p)] *)
Definition mark_status (id : string) (s : POStatus) (orders : list PurchaseOrder.t)
    : list PurchaseOrder.t :=
  map (fun p => if bool_decide (PurchaseOrder.id p = id)
                then PurchaseOrder.with_status p s else p) orders.

(** The receipt branch of the status handler is taken. *)
Definition restocks (u : StatusUpdate) (po : PurchaseOrder.t) : bool :=
  bool_decide (status_of u = received)
  && negb (bool_decide (PurchaseOrder.status po = received)).

(** The order [createPurchaseOrder] builds from the form in world [w]. *)
Definition newPO_in (w : World) (form : OrderForm.t) : PurchaseOrder.t :=
  PurchaseOrder.mk (uuids w (drawn w)) (OrderForm.supplier form) (clock w (ticks w))
    ordered (OrderForm.orderItems form)
    (reduce (fun acc item =>
               acc + PurchaseOrderItem.quantity item * PurchaseOrderItem.unitCost item)%num
            0 (OrderForm.orderItems form))
    (Some (OrderForm.notes form)).

(** The local calendar day of an instant in a zone. *)
Definition localDate (zone : Zone.t) (t : Timestamp) : Z :=
  (t + Zone.at_utc zone t) / msPerDay.

(** The offset of the zone at the local time of [t] moved back [i] days is
    its offset at [t]: no change of offset comes in between. *)
Definition steady_offset (zone : Zone.t) (t : Timestamp) (i : Z) : Prop :=
  Zone.at_local zone (t + Zone.at_utc zone t - i * msPerDay) = Zone.at_utc zone t.

(** The sales whose UTC day lies between [lo] and [hi], both included. *)
Definition sales_between (lo hi : Z) (sales : list SaleRecord.t) : list SaleRecord.t :=
  List.filter (fun s => (lo <=? isoDate (SaleRecord.timestamp s))
                        && (isoDate (SaleRecord.timestamp s) <=? hi)) sales.

(** The sales of one UTC day. *)
Definition sales_on (date : Z) (sales : list SaleRecord.t) : list SaleRecord.t :=
  List.filter (fun s => startsWith (SaleRecord.timestamp s) date) sales.

(** A call, the row of a sale insert left out. *)
Definition but_sale_row (c : Call) : option Call :=
  match c with InsertSale _ => None | _ => Some c end.

(** Two worlds that differ at most in the sale records they hold: in the
    local sales, in the store's and in the row of the sale inserts issued. *)
Definition same_but_sales (w1 w2 : World) : Prop :=
  inventory w1 = inventory w2 /\
  expenses w1 = expenses w2 /\
  purchaseOrders w1 = purchaseOrders w2 /\
  session w1 = session w2 /\
  loading w1 = loading w2 /\
  Store.inventory (store w1) = Store.inventory (store w2) /\
  Store.expenses (store w1) = Store.expenses (store w2) /\
  Store.purchase_orders (store w1) = Store.purchase_orders (store w2) /\
  outcomes w1 = outcomes w2 /\
  map but_sale_row (calls w1) = map but_sale_row (calls w2) /\
  alerts w1 = alerts w2 /\
  clock w1 = clock w2 /\
  ticks w1 = ticks w2 /\
  uuids w1 = uuids w2 /\
  drawn w1 = drawn w2.

(** [rows'] results from the store's inventory [rows] by the quantity
    updates [us], in this order. *)
Inductive Written : list (string * Z) -> list InventoryItem.t -> list InventoryItem.t -> Prop :=
| Written_nil rows : Written [] rows rows
| Written_cons id q ts us rows rows' :
    Written us (map (update_inventory_row id q ts) rows) rows' ->
    Written ((id, q) :: us) rows rows'.

(** ** Sample data *)

Module Sample.
Definition apple : InventoryItem.t := InventoryItem.mk "A" "Apple" "fruit" 10 2 3 1 0.
Definition bread : InventoryItem.t := InventoryItem.mk "B" "Bread" "bakery" 4 1 2 1 0.
Definition stock : list InventoryItem.t := [apple; bread].

Definition apples (q : Z) : SaleItem.t := SaleItem.mk "A" "Apple" q 3 2.
Definition loaves (q : Z) : SaleItem.t := SaleItem.mk "B" "Bread" q 2 1.
Definition ghost (q : Z) : SaleItem.t := SaleItem.mk "X" "Removed" q 5 1.

(** The order of the specification's example: five of A at unit cost 2. *)
Definition order (s : POStatus) : PurchaseOrder.t :=
  PurchaseOrder.mk "P1" "Acme" 0 s [PurchaseOrderItem.mk "A" "Apple" 5 2] 10 None.

(** A signed-in shop whose state and store agree, with the outcomes the
    store has for the coming calls. *)
Definition shop (orders : list PurchaseOrder.t) (oc : list Outcome) : World :=
  mkWorld stock [] [] orders true false (Store.mk stock [] [] orders) oc [] []
          (fun n => 1000 + Z.of_nat n) 0
          (fun n => match n with O => "uuid-0" | _ => "uuid-n" end)%string 0.

(** The shop with one expense on its books, locally and in the store. *)
Definition rent : ExpenseRecord.t := ExpenseRecord.mk "e1" "Rent" 25 "Rent" 50 60.
Definition books (oc : list Outcome) : World :=
  mkWorld stock [] [rent] [] true false (Store.mk stock [] [rent] []) oc [] []
          (fun n => 1000 + Z.of_nat n) 0
          (fun n => match n with O => "uuid-0" | _ => "uuid-n" end)%string 0.

(** The shop after an earlier sale of one apple and a sale of bread below
    cost. *)
Definition earlier_sales : list SaleRecord.t :=
  [SaleRecord.mk "s0" [apples 1] 3 1 10;
   SaleRecord.mk "s1" [SaleItem.mk "B" "Bread" 2 1 2] 2 (-2) 5].
Definition trading (oc : list Outcome) : World :=
  mkWorld stock earlier_sales [] [] true false (Store.mk stock earlier_sales [] []) oc [] []
          (fun n => 1000 + Z.of_nat n) 0
          (fun n => match n with O => "uuid-0" | _ => "uuid-n" end)%string 0.

Definition order_form : OrderForm.t :=
  OrderForm.mk create_view "Acme" "weekly"
    [PurchaseOrderItem.mk "X" "Xylitol" 3 4; PurchaseOrderItem.mk "Y" "Yeast" 2 10].

(** Two hours east of UTC all year. *)
Definition two_hours_east : Zone.t := Zone.fixed 7200000.

(** A zone four hours west of UTC until 06:00 UTC on day 97 and five hours
    west from then on: clocks go back from 02:00 to 01:00 local time, and a
    local time that occurs twice is read as the earlier of the two. *)
Definition clocks_go_back : Zone.t :=
  let change := 97 * msPerDay + 6 * 3600000 in
  Zone.mk (fun t => if t <? change then - 4 * 3600000 else - 5 * 3600000)
          (fun l => if l <? change - 4 * 3600000 then - 4 * 3600000 else - 5 * 3600000).

(** 23:00 UTC on day 99, which is 01:00 on day 100 two hours east of UTC. *)
Definition late_evening : Timestamp := 100 * msPerDay - 3600000.

(** A sale at 10:00 UTC on day 93, which is noon on day 93 two hours east. *)
Definition old_sale : SaleRecord.t := SaleRecord.mk "s-old" [] 50 20 (93 * msPerDay + 36000000).

(** Sales on the UTC days 100, 94 and 93. *)
Definition week_sales : list SaleRecord.t :=
  [SaleRecord.mk "s1" [] 7 3 (100 * msPerDay + 60000);
   SaleRecord.mk "s2" [] 9 4 (94 * msPerDay);
   SaleRecord.mk "s3" [] 11 5 (94 * msPerDay - 1)].
End Sample.

(** ** The catalogue and expense handlers of the application component *)

(** [Omit<InventoryItem, 'id' | 'lastUpdated'>], also the shape of the item
    form of the inventory screen. *)
Module NewItem.
Record t := mk {
  name : string;
  category : string;
  quantity : Z;
  costPrice : number;
  salesPrice : number;
  lowStockThreshold : Z
}.
End NewItem.

(** [Partial<InventoryItem>]: the fields that are present. *)
Module InventoryUpdates.
Record t := mk {
  id : option string;
  name : option string;
  category : option string;
  quantity : option Z;
  costPrice : option number;
  salesPrice : option number;
  lowStockThreshold : option Z;
  lastUpdated : option Timestamp
}.

(** [{ ...updates, lastUpdated: ts }] *)
Definition stamped (u : t) (ts : Timestamp) : t :=
  mk (id u) (name u) (category u) (quantity u) (costPrice u) (salesPrice u)
     (lowStockThreshold u) (Some ts).

(** [{ ...item, ...updates }] *)
Definition merge (item : InventoryItem.t) (u : t) : InventoryItem.t :=
  InventoryItem.mk
    (default (InventoryItem.id item) (id u))
    (default (InventoryItem.name item) (name u))
    (default (InventoryItem.category item) (category u))
    (default (InventoryItem.quantity item) (quantity u))
    (default (InventoryItem.costPrice item) (costPrice u))
    (default (InventoryItem.salesPrice item) (salesPrice u))
    (default (InventoryItem.lowStockThreshold item) (lowStockThreshold u))
    (default (InventoryItem.lastUpdated item) (lastUpdated u)).

(** [{ quantity: q }] *)
Definition only_quantity (q : Z) : t :=
  mk None None None (Some q) None None None None.

(** The item form handed over as updates. *)
Definition of_form (f : NewItem.t) : t :=
  mk None (Some (NewItem.name f)) (Some (NewItem.category f))
     (Some (NewItem.quantity f)) (Some (NewItem.costPrice f))
     (Some (NewItem.salesPrice f)) (Some (NewItem.lowStockThreshold f)) None.
End InventoryUpdates.

(** [Omit<ExpenseRecord, 'id' | 'recordedAt'>] *)
Module NewExpense.
Record t := mk {
  description : string;
  amount : number;
  category : string;
  date : Timestamp
}.
End NewExpense.

(** Modelled from the spec: the remaining calls of the gateway (section 6:
    insert-one, update-by-id on a partial field set, delete-by-id), those of
    the catalogue and expense handlers.  The store answers them from the
    same sequence of outcomes; the log [calls] keeps the calls of [Call]
    only. *)
Inductive Request :=
| InsertInventory (row : InventoryItem.t)
| UpdateItem (id : string) (updates : InventoryUpdates.t)
| DeleteInventory (id : string)
| InsertExpense (row : ExpenseRecord.t)
| DeleteExpense (id : string).

Definition apply_request (r : Request) (s : Store.t) : Store.t :=
  match r with
  | InsertInventory row =>
      Store.mk (Store.inventory s ++ [row]) (Store.sales s)
               (Store.expenses s) (Store.purchase_orders s)
  | UpdateItem id u =>
      Store.mk (map (fun row => if bool_decide (InventoryItem.id row = id)
                                then InventoryUpdates.merge row u else row)
                    (Store.inventory s))
               (Store.sales s) (Store.expenses s) (Store.purchase_orders s)
  | DeleteInventory id =>
      Store.mk (List.filter (fun row => negb (bool_decide (InventoryItem.id row = id)))
                            (Store.inventory s))
               (Store.sales s) (Store.expenses s) (Store.purchase_orders s)
  | InsertExpense row =>
      Store.mk (Store.inventory s) (Store.sales s)
               (Store.expenses s ++ [row]) (Store.purchase_orders s)
  | DeleteExpense id =>
      Store.mk (Store.inventory s) (Store.sales s)
               (List.filter (fun row => negb (bool_decide (ExpenseRecord.id row = id)))
                            (Store.expenses s))
               (Store.purchase_orders s)
  end.

Definition answered (st : Store.t) (w : World) : World :=
  mkWorld (inventory w) (sales w) (expenses w) (purchaseOrders w) (session w)
          (loading w) st (tail (outcomes w)) (calls w) (alerts w)
          (clock w) (ticks w) (uuids w) (drawn w).

(** [await supabase.from(...)...] for a request: the [error] of the result. *)
Definition send (r : Request) : M (option Error) := fun w =>
  match next_outcome w with
  | Ok => (inl None, answered (apply_request r (store w)) w)
  | Fails e => (inl (Some e), answered (store w) w)
  | Rejects e => (inr e, answered (store w) w)
  end.

(** [setInventory(prev => f(prev))] and [setExpenses(prev => f(prev))] *)
Definition updateInventory (f : list InventoryItem.t -> list InventoryItem.t) : M unit :=
  modify (fun w => set_inventory (f (inventory w)) w).
Definition updateExpenses (f : list ExpenseRecord.t -> list ExpenseRecord.t) : M unit :=
  modify (fun w => set_expenses (f (expenses w)) w).

Definition handleAddItem (item : NewItem.t) : M unit :=
  id ← randomUUID;
  lastUpdated ← now;
  let newItem :=
    InventoryItem.mk id (NewItem.name item) (NewItem.category item)
      (NewItem.quantity item) (NewItem.costPrice item) (NewItem.salesPrice item)
      (NewItem.lowStockThreshold item) lastUpdated in
  updateInventory (fun prev => prev ++ [newItem]);;
  try_catch
    (error ← send (InsertInventory newItem);
     throw_if error)
    (fun err => alert "Failed to save item to database.";; fetchData).

Definition handleUpdateItem (id : string) (updates : InventoryUpdates.t) : M unit :=
  updatedTimestamp ← now;
  let finalUpdates := InventoryUpdates.stamped updates updatedTimestamp in
  updateInventory
    (map (fun item => if bool_decide (InventoryItem.id item = id)
                      then InventoryUpdates.merge item finalUpdates else item));;
  try_catch
    (error ← send (UpdateItem id finalUpdates);
     throw_if error)
    (fun err => alert "Failed to update item in database.";; fetchData).

(** [confirmed] is the answer to [window.confirm]. *)
Definition handleDeleteItem (confirmed : bool) (id : string) : M unit :=
  if confirmed then
    updateInventory
      (List.filter (fun item => negb (bool_decide (InventoryItem.id item = id))));;
    try_catch
      (error ← send (DeleteInventory id);
       throw_if error)
      (fun err => alert "Failed to delete item from database.";; fetchData)
  else mret tt.

Definition handleAddExpense (expense : NewExpense.t) : M unit :=
  id ← randomUUID;
  recordedAt ← now;
  let newExpense :=
    ExpenseRecord.mk id (NewExpense.description expense) (NewExpense.amount expense)
      (NewExpense.category expense) (NewExpense.date expense) recordedAt in
  updateExpenses (fun prev => newExpense :: prev);;
  try_catch
    (error ← send (InsertExpense newExpense);
     throw_if error)
    (fun err => alert "Failed to save expense.";; fetchData).

Definition handleDeleteExpense (confirmed : bool) (id : string) : M unit :=
  if confirmed then
    updateExpenses
      (List.filter (fun e => negb (bool_decide (ExpenseRecord.id e = id))));;
    try_catch
      (error ← send (DeleteExpense id);
       throw_if error)
      (fun err => fetchData)                   (* console.error only *)
  else mret tt.

(** ** Roles and screens ([App.tsx], the rendering) *)

Inductive UserRole := admin | cashier.
Inductive ViewState :=
| dashboard | inventory_view | pos | history | expenses_view | financials
| insights | purchases.

Global Instance UserRole_eq_dec : EqDecision UserRole.
Proof. solve_decision. Defined.
Global Instance ViewState_eq_dec : EqDecision ViewState.
Proof. solve_decision. Defined.

(** The navigation items of the side bar, in order. *)
Definition nav_items (userRole : UserRole) : list ViewState :=
  [dashboard; pos; history; inventory_view]
  ++ (if bool_decide (userRole = admin)
      then [purchases; expenses_view; financials; insights] else []).

(** The screens of the main content once the data is loaded, each under its
    condition. *)
Definition main_content (userRole : UserRole) (activeView : ViewState) : list ViewState :=
  (if bool_decide (activeView = dashboard) then [dashboard] else [])
  ++ (if bool_decide (activeView = inventory_view) then [inventory_view] else [])
  ++ (if bool_decide (activeView = pos) then [pos] else [])
  ++ (if bool_decide (activeView = history) then [history] else [])
  ++ (if bool_decide (userRole = admin) && bool_decide (activeView = expenses_view)
      then [expenses_view] else [])
  ++ (if bool_decide (userRole = admin) && bool_decide (activeView = financials)
      then [financials] else [])
  ++ (if bool_decide (userRole = admin) && bool_decide (activeView = insights)
      then [insights] else [])
  ++ (if bool_decide (userRole = admin) && bool_decide (activeView = purchases)
      then [purchases] else []).

(** ** The inventory screen ([InventoryManager]) *)

Inductive AdjustmentType := add_stock | remove_stock | set_stock.

Module InventoryManager.

(** The state of the stock adjustment dialog. *)
Record AdjustModal := mkAdjustModal {
  isAdjustModalOpen : bool;
  adjustItem : option InventoryItem.t;
  adjustQty : string;
  adjustmentType : AdjustmentType
}.

(** The state of the item form. *)
Record ItemForm := mkItemForm {
  isModalOpen : bool;
  editingId : option string;
  formData : NewItem.t
}.

Definition blank_form : NewItem.t := NewItem.mk "" "" 0 0 0 5.

(** [resetForm] *)
Definition resetForm : ItemForm := mkItemForm false None blank_form.

(** [closeAdjustModal] *)
Definition closeAdjustModal (st : AdjustModal) : AdjustModal :=
  mkAdjustModal false None ""%string (adjustmentType st).

(** [openAdjustModal] *)
Definition openAdjustModal (item : InventoryItem.t) : AdjustModal :=
  mkAdjustModal true (Some item) ""%string add_stock.

Section WithParseInt.

(** [parseInt] of the language, [None] for [NaN]. *)
Variable parseInt : string -> option Z.

Definition getResultingQty (st : AdjustModal) : Z :=
  match adjustItem st with
  | None => 0
  | Some item =>
      let current := InventoryItem.quantity item in
      let input := default 0 (parseInt (adjustQty st)) in    (* [parseInt(..) || 0] *)
      match adjustmentType st with
      | add_stock => current + input
      | remove_stock => Z.max 0 (current - input)
      | set_stock => input
      end
  end.

(** [handleStockAdjustment], with the [onUpdate] property of the screen and
    the answer [confirmed] to [window.confirm]. *)
Definition handleStockAdjustment
    (onUpdate : string -> InventoryUpdates.t -> M unit) (confirmed : bool)
    (st : AdjustModal) : M AdjustModal :=
  match adjustItem st with
  | None => mret st
  | Some item =>
      let inputVal := parseInt (adjustQty st) in
      if match inputVal with None => true | Some n => n <? 0 end then
        alert "Please enter a valid non-negative quantity.";;
        mret st
      else
        let finalQty := getResultingQty st in
        if confirmed then
          onUpdate (InventoryItem.id item) (InventoryUpdates.only_quantity finalQty);;
          mret (closeAdjustModal st)
        else mret st
  end.

End WithParseInt.

(** [handleSubmit] of the item form: [if (editingId)] holds for a non-empty
    identifier. *)
Definition handleSubmit
    (onAdd : NewItem.t -> M unit)
    (onUpdate : string -> InventoryUpdates.t -> M unit)
    (form : ItemForm) : M ItemForm :=
  match editingId form with
  | Some id =>
      if bool_decide (id = ""%string) then onAdd (formData form)
      else onUpdate id (InventoryUpdates.of_form (formData form))
  | None => onAdd (formData form)
  end;;
  mret resetForm.

End InventoryManager.

(** ** The order form of the purchase-order screen *)

Module PurchaseOrdersManager.

(** The entry line of the order form. *)
Record Entry := mkEntry {
  selectedInventoryItem : option InventoryItem.t;
  addQty : Z;
  addCost : number;
  itemSearch : string
}.

Definition blank_entry : Entry := mkEntry None 1 0 "".

(** [handleAddItem]: the order items and the entry line it leaves. *)
Definition handleAddItem (orderItems : list PurchaseOrderItem.t) (entry : Entry)
    : list PurchaseOrderItem.t * Entry :=
  match selectedInventoryItem entry with
  | None => (orderItems, entry)
  | Some item =>
      let newItem :=
        PurchaseOrderItem.mk (InventoryItem.id item) (InventoryItem.name item)
          (addQty entry) (addCost entry) in
      (orderItems ++ [newItem], blank_entry)
  end.

(** [handleRemoveItem]: [splice(index, 1)] on a copy, for the index of a
    rendered line. *)
Definition handleRemoveItem (orderItems : list PurchaseOrderItem.t) (index : nat)
    : list PurchaseOrderItem.t :=
  delete index orderItems.

(** The total the form shows and [handleSubmitOrder] stores. *)
Definition order_total (orderItems : list PurchaseOrderItem.t) : number :=
  reduce (fun acc item =>
            acc + PurchaseOrderItem.quantity item * PurchaseOrderItem.unitCost item)%num
         0 orderItems.

End PurchaseOrdersManager.

(** ** The figures of the dashboard ([Dashboard.tsx]) and of the financial
       report ([FinancialReport]) *)

Module Dashboard.
Record Metrics := mkMetrics {
  totalRevenue : number;
  totalProfit : number;
  lowStockCount : Z;
  totalInventoryValue : number;
  potentialSalesValue : number
}.

Definition metrics (inventory : list InventoryItem.t) (sales : list SaleRecord.t) : Metrics :=
  let totalRevenue : number :=
    reduce (fun acc sale => acc + SaleRecord.totalAmount sale)%num 0 sales in
  let totalProfit : number :=
    reduce (fun acc sale => acc + SaleRecord.totalProfit sale)%num 0 sales in
  let lowStockCount :=
    Z.of_nat (length (List.filter
      (fun i => InventoryItem.quantity i <=? InventoryItem.lowStockThreshold i) inventory)) in
  let totalInventoryValue : number :=
    reduce (fun acc i => acc + InventoryItem.costPrice i * InventoryItem.quantity i)%num
           0 inventory in
  let potentialSalesValue : number :=
    reduce (fun acc i => acc + InventoryItem.salesPrice i * InventoryItem.quantity i)%num
           0 inventory in
  mkMetrics totalRevenue totalProfit lowStockCount totalInventoryValue potentialSalesValue.
End Dashboard.


Module FinancialReport.
Record Financials := mkFinancials {
  totalSales : number;
  totalCOGS : number;
  grossProfit : number;
  totalExpenses : number;
  netIncome : number;
  inventoryValue : number
}.

Definition financials (inventory : list InventoryItem.t) (sales : list SaleRecord.t)
    (expenses : list ExpenseRecord.t) : Financials :=
  let totalSales : number :=
    reduce (fun acc s => acc + SaleRecord.totalAmount s)%num 0 sales in
  let totalCOGS : number :=
    reduce (fun acc s =>
              let saleCost : number :=
                reduce (fun iAcc item =>
                          iAcc + SaleItem.costAtSale item * SaleItem.quantity item)%num
                       0 (SaleRecord.items s) in
              acc + saleCost)%num 0 sales in
  let grossProfit := (totalSales - totalCOGS)%num in
  let totalExpenses : number :=
    reduce (fun acc e => acc + ExpenseRecord.amount e)%num 0 expenses in
  let netIncome := (grossProfit - totalExpenses)%num in
  let inventoryValue : number :=
    reduce (fun acc i => acc + InventoryItem.costPrice i * InventoryItem.quantity i)%num
           0 inventory in
  mkFinancials totalSales totalCOGS grossProfit totalExpenses netIncome inventoryValue.

End FinancialReport.

(** ** Vocabulary of the further statements *)

(** The exact amount and the exact cost of sale items with whole prices and
    costs. *)
Definition sale_amount (items : list SaleItem.t) : Z :=
  sum_of (fun it => SaleItem.quantity it * Number.to_Z (SaleItem.priceAtSale it)) items.
Definition sale_cost (items : list SaleItem.t) : Z :=
  sum_of (fun it => SaleItem.quantity it * Number.to_Z (SaleItem.costAtSale it)) items.

(** A sale record in whole numbers: its items have whole prices and costs,
    and it stores their exact amount and that amount less their exact cost,
    both sums being below [2^53]. *)
Definition whole_record (s : SaleRecord.t) : Prop :=
  Forall whole_sale_item (SaleRecord.items s) /\
  sale_amount (SaleRecord.items s) < 2 ^ 53 /\
  sale_cost (SaleRecord.items s) < 2 ^ 53 /\
  SaleRecord.totalAmount s = Number.of_Z (sale_amount (SaleRecord.items s)) /\
  SaleRecord.totalProfit s =
    Number.of_Z (sale_amount (SaleRecord.items s) - sale_cost (SaleRecord.items s)).

(** The exact revenue and the exact cost of goods of sale records. *)
Definition books_revenue (sales : list SaleRecord.t) : Z :=
  sum_of (fun s => sale_amount (SaleRecord.items s)) sales.
Definition books_cost (sales : list SaleRecord.t) : Z :=
  sum_of (fun s => sale_cost (SaleRecord.items s)) sales.

(** An inventory whose quantities are counts below [2^53] and whose cost
    prices are whole numbers, and its exact value at cost. *)
Definition whole_stock (inv : list InventoryItem.t) : Prop :=
  Forall (fun i => 0 <= InventoryItem.quantity i < 2 ^ 53
                   /\ Number.whole (InventoryItem.costPrice i)) inv.
Definition stock_value (inv : list InventoryItem.t) : Z :=
  sum_of (fun i => InventoryItem.quantity i * Number.to_Z (InventoryItem.costPrice i)) inv.

(** The whole cost price of the item a lookup by [id] finds, 0 without a
    match. *)
Definition cost_of (inv : list InventoryItem.t) (id : string) : Z :=
  match find (has_id id) inv with
  | Some cur => Number.to_Z (InventoryItem.costPrice cur)
  | None => 0
  end.

(** The local inventory is the store's. *)
Definition inventory_in_step (w : World) : Prop :=
  inventory w = Store.inventory (store w).

(** The local copy and the store's inventory rows before and after the
    receipt of the order items, in this order: an item with a match moves
    the quantity of the match and writes the moved quantity to the rows with
    its identifier. *)
Inductive Restocked :
  list PurchaseOrderItem.t ->
  list InventoryItem.t -> list InventoryItem.t ->
  list InventoryItem.t -> list InventoryItem.t -> Prop :=
| Restocked_nil inv rows : Restocked [] inv rows inv rows
| Restocked_skip it items inv rows inv' rows' :
    find (has_id (PurchaseOrderItem.itemId it)) inv = None ->
    Restocked items inv rows inv' rows' ->
    Restocked (it :: items) inv rows inv' rows'
| Restocked_step it items cur ts ts' inv rows inv' rows' :
    find (has_id (PurchaseOrderItem.itemId it)) inv = Some cur ->
    Restocked items
      (adjust inv (PurchaseOrderItem.itemId it) (PurchaseOrderItem.quantity it) ts)
      (map (update_inventory_row (PurchaseOrderItem.itemId it)
              (InventoryItem.quantity cur + PurchaseOrderItem.quantity it) ts') rows)
      inv' rows' ->
    Restocked (it :: items) inv rows inv' rows'.

(** The rows that bear [id] have the quantity of the local item found by
    [id]. *)
Definition agree_on (id : string) (inv rows : list InventoryItem.t) : Prop :=
  forall b, find (has_id id) inv = Some b ->
  forall row, row ∈ rows -> InventoryItem.id row = id ->
    InventoryItem.quantity row = InventoryItem.quantity b.

(** * Properties *)

(** ** Array helpers *)

Lemma findIndex_lower {A : Type} (p : A -> bool) (arr : list A) :
  -1 <= findIndex p arr.
Proof.
  induction arr as [|x arr IH]; simpl; [lia|].
  destruct (p x); [lia|]. destruct (Z.ltb_spec (findIndex p arr) 0); lia.
Qed.

(** Reading the array at the index [findIndex] returns is [find]. *)
Lemma at_index_findIndex {A : Type} (p : A -> bool) (arr : list A) :
  at_index arr (findIndex p arr) = find p arr.
Proof.
  induction arr as [|x arr IH]; simpl; [reflexivity|].
  destruct (p x); [reflexivity|].
  unfold at_index in *.
  destruct (Z.ltb_spec (findIndex p arr) 0) as [Hneg|Hpos]; simpl.
  - exact IH.
  - destruct (Z.ltb_spec (findIndex p arr + 1) 0); [lia|].
    rewrite <- IH. replace (Z.to_nat (findIndex p arr + 1)) with (S (Z.to_nat (findIndex p arr))) by lia.
    reflexivity.
Qed.

Lemma findIndex_not_found {A : Type} (p : A -> bool) (arr : list A) :
  find p arr = None -> findIndex p arr = -1.
Proof.
  induction arr as [|x arr IH]; simpl; [reflexivity|].
  destruct (p x); [discriminate|]. intros H. rewrite (IH H). reflexivity.
Qed.

Lemma findIndex_found {A : Type} (p : A -> bool) (arr : list A) (x : A) :
  find p arr = Some x -> 0 <= findIndex p arr.
Proof.
  induction arr as [|y arr IH]; simpl; [discriminate|].
  destruct (p y); [lia|]. intros H. specialize (IH H).
  destruct (Z.ltb_spec (findIndex p arr) 0); lia.
Qed.

Lemma find_none {A : Type} (p : A -> bool) (arr : list A) :
  find p arr = None <-> forall x, x ∈ arr -> p x = false.
Proof.
  induction arr as [|x arr IH]; simpl.
  - split; [intros _ x Hx; inversion Hx|reflexivity].
  - destruct (p x) eqn:Hp.
    + split; [discriminate|]. intros H. specialize (H x (list_elem_of_here _ _)). congruence.
    + rewrite IH. split.
      * intros H y Hy. inversion Hy; subst; auto.
      * intros H y Hy. apply H. by apply list_elem_of_further.
Qed.

Lemma find_some {A : Type} (p : A -> bool) (arr : list A) (x : A) :
  find p arr = Some x -> x ∈ arr /\ p x = true.
Proof.
  induction arr as [|y arr IH]; simpl; [discriminate|].
  destruct (p y) eqn:Hp.
  - intros [= <-]. split; [apply list_elem_of_here|done].
  - intros H. destruct (IH H). split; [by apply list_elem_of_further|done].
Qed.

(** [findIndex] and [find] see an array through the tested property only. *)
Lemma findIndex_ext {A B : Type} (p : A -> bool) (q : B -> bool)
    (xs : list A) (ys : list B) :
  map p xs = map q ys -> findIndex p xs = findIndex q ys.
Proof.
  revert ys. induction xs as [|x xs IH]; intros [|y ys]; simpl; try discriminate; [reflexivity|].
  intros [= Hxy Hrest]. rewrite Hxy, (IH ys Hrest). reflexivity.
Qed.

(** ** Arithmetic of the numbers: whole numbers are exact *)

(** The digits of a mantissa. *)
Lemma digits2_pos_log2 (p : positive) :
  Zpos (digits2_pos p) = Z.log2 (Zpos p) + 1.
Proof.
  induction p as [p IH|p IH|]; simpl; try reflexivity.
  - rewrite Pos2Z.inj_succ, IH. destruct p; simpl; lia.
  - rewrite Pos2Z.inj_succ, IH. destruct p; simpl; lia.
Qed.

Lemma iter_pos_nat {A : Type} (f : A -> A) (p : positive) (x : A) :
  SpecFloat.iter_pos f p x = Nat.iter (Pos.to_nat p) f x.
Proof.
  revert x. induction p as [p IH|p IH|]; intros x; cbn [SpecFloat.iter_pos].
  - rewrite !IH, Pos2Nat.inj_xI.
    replace (S (2 * Pos.to_nat p)) with (Pos.to_nat p + S (Pos.to_nat p))%nat by lia.
    rewrite Nat.iter_add, Nat.iter_succ_r. reflexivity.
  - rewrite !IH, Pos2Nat.inj_xO.
    replace (2 * Pos.to_nat p)%nat with (Pos.to_nat p + Pos.to_nat p)%nat by lia.
    rewrite Nat.iter_add. reflexivity.
  - reflexivity.
Qed.

Lemma shr_1_even (m : Z) :
  0 <= m -> Z.even m = true ->
  shr_1 (Build_shr_record m false false) = Build_shr_record (m / 2) false false.
Proof.
  intros Hm Hev. destruct m as [|[p|p|]|p]; simpl in *; try discriminate; try lia.
  - reflexivity.
  - f_equal. rewrite (Pos2Z.inj_xO p). rewrite Z.mul_comm, Z.div_mul by lia. reflexivity.
Qed.

Lemma shr_exact (n : nat) (m : Z) :
  0 <= m -> (2 ^ Z.of_nat n | m) ->
  Nat.iter n shr_1 (Build_shr_record m false false)
  = Build_shr_record (m / 2 ^ Z.of_nat n) false false.
Proof.
  revert m. induction n as [|n IH]; intros m Hm Hdiv.
  - simpl. by rewrite Z.div_1_r.
  - rewrite Nat.iter_succ_r. rewrite Nat2Z.inj_succ, Z.pow_succ_r in * by lia.
    destruct Hdiv as [k Hk].
    assert (Hm2 : m = 2 * (k * 2 ^ Z.of_nat n)) by lia.
    assert (Hhalf : m / 2 = k * 2 ^ Z.of_nat n).
    { rewrite Hm2, Z.mul_comm, Z.div_mul by lia. reflexivity. }
    rewrite shr_1_even; [|lia|].
    + rewrite IH.
      * f_equal. rewrite Z.div_div by lia. reflexivity.
      * apply Z.div_pos; lia.
      * exists k. exact Hhalf.
    + rewrite Hm2, Z.even_mul. reflexivity.
Qed.

Lemma shr_exact_Z (m e n : Z) :
  0 <= m -> 0 <= n -> (2 ^ n | m) ->
  shr (Build_shr_record m false false) e n
  = (Build_shr_record (m / 2 ^ n) false false, e + n).
Proof.
  intros Hm Hn Hdiv. unfold shr. destruct n as [|p|p]; [| |lia].
  - rewrite Z.div_1_r, Z.add_0_r. reflexivity.
  - rewrite iter_pos_nat, shr_exact; [|lia|by rewrite positive_nat_Z].
    by rewrite positive_nat_Z.
Qed.

Lemma log2_div_pow2 (m n : Z) :
  0 < m -> 0 <= n -> (2 ^ n | m) -> Z.log2 (m / 2 ^ n) = Z.log2 m - n.
Proof.
  intros Hm Hn [k Hk]. subst m.
  assert (0 < 2 ^ n) by (apply Z.pow_pos_nonneg; lia).
  assert (0 < k) by nia.
  rewrite Z.div_mul by lia. rewrite Z.log2_mul_pow2 by lia. lia.
Qed.

Lemma binary_round_aux_exact (s : bool) (M : positive) (e : Z) :
  let n := Z.log2 (Zpos M) + 1 - 53 in
  0 <= n -> (2 ^ n | Zpos M) -> -1074 <= e + n <= 971 ->
  binary_round_aux 53 1024 s (Zpos M) e loc_Exact
  = S754_finite s (Z.to_pos (Zpos M / 2 ^ n)) (e + n).
Proof.
  intros n Hn Hdiv Hrange.
  assert (Hpow : 0 < 2 ^ n) by (apply Z.pow_pos_nonneg; lia).
  assert (Hq : 0 < Zpos M / 2 ^ n).
  { destruct Hdiv as [k Hk]. rewrite Hk, Z.div_mul by lia. nia. }
  unfold binary_round_aux, shr_fexp.
  cbn [Zdigits2 shr_record_of_loc]. rewrite digits2_pos_log2.
  assert (Hfexp : fexp 53 1024 (Z.log2 (Zpos M) + 1 + e) - e = n).
  { unfold fexp, emin. lia. }
  rewrite Hfexp. rewrite shr_exact_Z by (try lia; done).
  cbn [shr_m loc_of_shr_record round_nearest_even].
  destruct (Zpos M / 2 ^ n) as [|q|q] eqn:Hquot; [lia| |lia].
  cbn [Zdigits2 shr_record_of_loc]. rewrite digits2_pos_log2.
  assert (Hlog : Z.log2 (Zpos q) = 52).
  { rewrite <- Hquot, log2_div_pow2 by (try lia; done). lia. }
  rewrite Hlog.
  assert (Hfexp2 : fexp 53 1024 (52 + 1 + (e + n)) - (e + n) = 0).
  { unfold fexp, emin. lia. }
  rewrite Hfexp2. cbn [shr shr_m].
  destruct (Z.leb_spec (e + n) (1024 - 53)); [reflexivity|lia].
Qed.

Lemma iter_xO_pow2 (m d : positive) :
  Zpos (Pos.iter xO m d) = Zpos m * 2 ^ Zpos d.
Proof.
  induction d as [|d IH] using Pos.peano_ind.
  - simpl. lia.
  - rewrite Pos.iter_succ, Pos2Z.inj_xO, IH, Pos2Z.inj_succ, Z.pow_succ_r by lia. lia.
Qed.

Lemma binary_round_exact (s : bool) (M : positive) (N k : Z) :
  Zpos M = N * 2 ^ k -> 0 <= k -> 0 < N < 2 ^ 53 ->
  binary_round 53 1024 s M (- k) = Number.canon s N.
Proof.
  intros HM Hk HN.
  assert (Hlog : Z.log2 (Zpos M) = k + Z.log2 N).
  { rewrite HM. apply Z.log2_mul_pow2; lia. }
  assert (HlogN : 0 <= Z.log2 N <= 52).
  { split; [apply Z.log2_nonneg|]. assert (Z.log2 N < 53); [|lia].
    apply Z.log2_lt_pow2; lia. }
  unfold binary_round. rewrite digits2_pos_log2, Hlog.
  assert (Hfexp : fexp 53 1024 (k + Z.log2 N + 1 + - k) = Z.log2 N - 52).
  { unfold fexp, emin. lia. }
  rewrite Hfexp. unfold shl_align.
  destruct (Z.log2 N - 52 - - k) as [|d|d] eqn:Hd.
  - (* no shift: 53 digits already *)
    rewrite binary_round_aux_exact; rewrite ?Hlog.
    + unfold Number.canon. f_equal; [|lia].
      replace (k + Z.log2 N + 1 - 53) with 0 by lia.
      rewrite Z.div_1_r, HM. f_equal. f_equal. f_equal. lia.
    + lia.
    + replace (k + Z.log2 N + 1 - 53) with 0 by lia. apply Z.divide_1_l.
    + lia.
  - (* more than 53 digits: exact right shift *)
    assert (Hsplit : 2 ^ k = 2 ^ (k - Zpos d) * 2 ^ Zpos d).
    { rewrite <- Z.pow_add_r by lia. f_equal. lia. }
    rewrite binary_round_aux_exact; rewrite ?Hlog.
    + replace (k + Z.log2 N + 1 - 53) with (Zpos d) by lia.
      unfold Number.canon. f_equal; [|lia].
      rewrite HM, Hsplit, Z.mul_assoc, Z.div_mul by lia.
      f_equal. f_equal. f_equal. lia.
    + lia.
    + replace (k + Z.log2 N + 1 - 53) with (Zpos d) by lia.
      exists (N * 2 ^ (k - Zpos d)). rewrite HM, Hsplit. lia.
    + lia.
  - (* fewer than 53 digits: left shift *)
    assert (HM' : Zpos (Pos.iter xO M d) = N * 2 ^ (52 - Z.log2 N)).
    { rewrite iter_xO_pow2, HM, <- Z.mul_assoc, <- Z.pow_add_r by lia.
      f_equal. f_equal. lia. }
    assert (Hlog' : Z.log2 (Zpos (Pos.iter xO M d)) = 52).
    { rewrite HM', Z.log2_mul_pow2 by lia. lia. }
    rewrite binary_round_aux_exact; rewrite ?Hlog'.
    + unfold Number.canon. f_equal; [|lia].
      replace (52 + 1 - 53) with 0 by lia. rewrite Z.div_1_r, HM'. reflexivity.
    + lia.
    + apply Z.divide_1_l.
    + lia.
Qed.

Lemma of_Z_pos (N : Z) : 0 < N < 2 ^ 53 -> Number.of_Z N = Number.canon false N.
Proof.
  intros HN. unfold Number.of_Z, binary_normalize.
  destruct N as [|p|p]; [lia| |lia].
  apply (binary_round_exact false p (Zpos p) 0); [simpl; lia|lia|lia].
Qed.

Lemma of_Z_neg (N : Z) : 0 < N < 2 ^ 53 -> Number.of_Z (- N) = Number.canon true N.
Proof.
  intros HN. unfold Number.of_Z, binary_normalize.
  destruct N as [|p|p]; [lia| |lia]. simpl.
  apply (binary_round_exact true p (Zpos p) 0); [simpl; lia|lia|lia].
Qed.

(** Normalising an integer multiple of a power of two gives the double of
    the integer. *)
Lemma binary_normalize_exact (N k : Z) :
  0 <= k -> - 2 ^ 53 < N < 2 ^ 53 ->
  binary_normalize 53 1024 (N * 2 ^ k) (- k) false = Number.of_Z N.
Proof.
  intros Hk HN.
  assert (Hpow : 0 < 2 ^ k) by (apply Z.pow_pos_nonneg; lia).
  destruct (Z.lt_trichotomy N 0) as [Hneg|[->|Hpos]].
  - rewrite <- (Z.opp_involutive N) at 2. rewrite of_Z_neg by lia.
    unfold binary_normalize. destruct (N * 2 ^ k) as [|p|p] eqn:HM; [nia|nia|].
    apply binary_round_exact; [|lia|lia]. lia.
  - reflexivity.
  - rewrite of_Z_pos by lia.
    unfold binary_normalize. destruct (N * 2 ^ k) as [|p|p] eqn:HM; [nia| |nia].
    apply binary_round_exact; [|lia|lia]. lia.
Qed.

(** The double of a non-zero integer, spelled out. *)
Lemma of_Z_canon (a : Z) :
  a <> 0 -> - 2 ^ 53 < a < 2 ^ 53 ->
  Number.of_Z a = Number.canon (a <? 0) (Z.abs a).
Proof.
  intros Hnz Ha. destruct (Z.ltb_spec a 0).
  - rewrite <- (Z.opp_involutive a) at 1. rewrite of_Z_neg by lia. f_equal. lia.
  - rewrite of_Z_pos by lia. f_equal. lia.
Qed.

Lemma canon_mantissa (N : Z) :
  0 < N < 2 ^ 53 ->
  Zpos (Z.to_pos (N * 2 ^ (52 - Z.log2 N))) = N * 2 ^ (52 - Z.log2 N)
  /\ 0 <= Z.log2 N <= 52.
Proof.
  intros HN.
  assert (HlogN : 0 <= Z.log2 N <= 52).
  { split; [apply Z.log2_nonneg|]. assert (Z.log2 N < 53); [|lia].
    apply Z.log2_lt_pow2; lia. }
  split; [|exact HlogN].
  assert (0 < 2 ^ (52 - Z.log2 N)) by (apply Z.pow_pos_nonneg; lia).
  rewrite Z2Pos.id; [reflexivity|nia].
Qed.

Lemma shl_align_fst (mx : positive) (ex ez : Z) :
  ez <= ex -> Zpos (fst (shl_align mx ex ez)) = Zpos mx * 2 ^ (ex - ez).
Proof.
  intros Hle. unfold shl_align.
  destruct (ez - ex) as [|d|d] eqn:Hd; simpl.
  - replace (ex - ez) with 0 by lia. lia.
  - lia.
  - rewrite iter_xO_pow2. f_equal. f_equal. lia.
Qed.

Lemma cond_Zopp_ltb (a : Z) : cond_Zopp (a <? 0) (Z.abs a) = a.
Proof. unfold cond_Zopp. destruct (Z.ltb_spec a 0); lia. Qed.

(** The aligned mantissa of the double of an integer. *)
Lemma aligned_mantissa (a ez : Z) (s : bool) (m : positive) (e : Z) :
  a <> 0 -> - 2 ^ 53 < a < 2 ^ 53 ->
  Number.of_Z a = S754_finite s m e ->
  ez <= e ->
  e <= 0 /\ cond_Zopp s (Zpos (fst (shl_align m e ez))) = a * 2 ^ (- ez).
Proof.
  intros Hnz Ha Hof Hez. rewrite of_Z_canon in Hof by done.
  unfold Number.canon in Hof. injection Hof as <- <- <-.
  destruct (canon_mantissa (Z.abs a)) as [Hm Hlog]; [lia|].
  split; [lia|]. rewrite shl_align_fst by done. rewrite Hm.
  rewrite <- Z.mul_assoc, <- Z.pow_add_r by lia.
  replace (52 - Z.log2 (Z.abs a) + (Z.log2 (Z.abs a) - 52 - ez)) with (- ez) by lia.
  assert (Hc := cond_Zopp_ltb a). unfold cond_Zopp in *.
  destruct (a <? 0); lia.
Qed.

Lemma of_Z_finite (a : Z) :
  a <> 0 -> - 2 ^ 53 < a < 2 ^ 53 ->
  exists s m e, Number.of_Z a = S754_finite s m e.
Proof. intros Hnz Ha. rewrite of_Z_canon by done. unfold Number.canon. eauto. Qed.

(** Addition and subtraction of integers are exact while the operands and
    the result are below [2^53] in magnitude. *)
Lemma add_exact (a b : Z) :
  - 2 ^ 53 < a < 2 ^ 53 -> - 2 ^ 53 < b < 2 ^ 53 -> - 2 ^ 53 < a + b < 2 ^ 53 ->
  Number.add (Number.of_Z a) (Number.of_Z b) = Number.of_Z (a + b).
Proof.
  intros Ha Hb Hab.
  destruct (Z.eq_dec a 0) as [->|Hanz].
  { rewrite Z.add_0_l. change (Number.of_Z 0) with (S754_zero false).
    destruct (Z.eq_dec b 0) as [->|Hbnz]; [reflexivity|].
    destruct (of_Z_finite b) as (s & m & e & Hof); [done..|]. by rewrite Hof. }
  destruct (Z.eq_dec b 0) as [->|Hbnz].
  { rewrite Z.add_0_r. destruct (of_Z_finite a) as (s & m & e & Hof); [done..|].
    by rewrite Hof. }
  destruct (of_Z_finite a) as (sa & ma & ea & Hofa); [done..|].
  destruct (of_Z_finite b) as (sb & mb & eb & Hofb); [done..|].
  rewrite Hofa, Hofb. unfold Number.add, SFadd.
  destruct (aligned_mantissa a (Z.min ea eb) sa ma ea) as [Hea ->]; [done..|lia|].
  destruct (aligned_mantissa b (Z.min ea eb) sb mb eb) as [Heb ->]; [done..|lia|].
  rewrite <- Z.mul_add_distr_r.
  rewrite <- (Z.opp_involutive (Z.min ea eb)) at 2.
  apply binary_normalize_exact; lia.
Qed.

Lemma sub_exact (a b : Z) :
  - 2 ^ 53 < a < 2 ^ 53 -> - 2 ^ 53 < b < 2 ^ 53 -> - 2 ^ 53 < a - b < 2 ^ 53 ->
  Number.sub (Number.of_Z a) (Number.of_Z b) = Number.of_Z (a - b).
Proof.
  intros Ha Hb Hab.
  destruct (Z.eq_dec b 0) as [->|Hbnz].
  { rewrite Z.sub_0_r. destruct (Z.eq_dec a 0) as [->|Hanz]; [reflexivity|].
    destruct (of_Z_finite a) as (s & m & e & Hof); [done..|]. by rewrite Hof. }
  destruct (Z.eq_dec a 0) as [->|Hanz].
  { replace (0 - b) with (- b) by lia. change (Number.of_Z 0) with (S754_zero false).
    rewrite !of_Z_canon by lia. unfold Number.canon, Number.sub. simpl.
    rewrite Z.abs_opp. f_equal.
    destruct (Z.ltb_spec b 0), (Z.ltb_spec (- b) 0); try lia; reflexivity. }
  destruct (of_Z_finite a) as (sa & ma & ea & Hofa); [done..|].
  destruct (of_Z_finite b) as (sb & mb & eb & Hofb); [done..|].
  rewrite Hofa, Hofb. unfold Number.sub, SFsub.
  destruct (aligned_mantissa a (Z.min ea eb) sa ma ea) as [Hea ->]; [done..|lia|].
  destruct (aligned_mantissa b (Z.min ea eb) sb mb eb) as [Heb ->]; [done..|lia|].
  rewrite <- Z.mul_sub_distr_r.
  rewrite <- (Z.opp_involutive (Z.min ea eb)) at 2.
  apply binary_normalize_exact; lia.
Qed.

(** Multiplication of non-negative integers is exact while the operands and
    the product are below [2^53]. *)
Lemma mul_exact (a b : Z) :
  0 <= a < 2 ^ 53 -> 0 <= b < 2 ^ 53 -> a * b < 2 ^ 53 ->
  Number.mul (Number.of_Z a) (Number.of_Z b) = Number.of_Z (a * b).
Proof.
  intros Ha Hb Hab.
  destruct (Z.eq_dec a 0) as [->|Hanz].
  { rewrite Z.mul_0_l. change (Number.of_Z 0) with (S754_zero false).
    destruct (Z.eq_dec b 0) as [->|Hbnz]; [reflexivity|].
    rewrite of_Z_pos by lia. reflexivity. }
  destruct (Z.eq_dec b 0) as [->|Hbnz].
  { rewrite Z.mul_0_r. change (Number.of_Z 0) with (S754_zero false).
    rewrite of_Z_pos by lia. reflexivity. }
  rewrite !of_Z_pos by nia. unfold Number.canon at 1 2. unfold Number.mul, SFmul.
  destruct (canon_mantissa a) as [Hma Hla]; [lia|].
  destruct (canon_mantissa b) as [Hmb Hlb]; [lia|].
  destruct (canon_mantissa (a * b)) as [Hmab Hlab]; [nia|].
  assert (Hbelow : Z.log2 a + Z.log2 b <= Z.log2 (a * b)) by (apply Z.log2_mul_below; lia).
  set (ma := Z.to_pos (a * 2 ^ (52 - Z.log2 a))) in *.
  set (mb := Z.to_pos (b * 2 ^ (52 - Z.log2 b))) in *.
  assert (HM : Zpos (ma * mb) = (a * b) * 2 ^ (104 - Z.log2 a - Z.log2 b)).
  { rewrite Pos2Z.inj_mul, Hma, Hmb.
    replace (104 - Z.log2 a - Z.log2 b) with ((52 - Z.log2 a) + (52 - Z.log2 b)) by lia.
    rewrite Z.pow_add_r by lia. lia. }
  assert (Hlog : Z.log2 (Zpos (ma * mb)) = 104 - Z.log2 a - Z.log2 b + Z.log2 (a * b)).
  { rewrite HM. apply Z.log2_mul_pow2; nia. }
  set (n := Z.log2 (a * b) + 52 - Z.log2 a - Z.log2 b).
  assert (Hsplit : 2 ^ (104 - Z.log2 a - Z.log2 b) = 2 ^ (52 - Z.log2 (a * b)) * 2 ^ n).
  { rewrite <- Z.pow_add_r by lia. f_equal. lia. }
  rewrite binary_round_aux_exact; rewrite ?Hlog.
  - replace (104 - Z.log2 a - Z.log2 b + Z.log2 (a * b) + 1 - 53) with n by lia.
    unfold Number.canon. simpl xorb. f_equal; [|lia].
    rewrite HM, Hsplit, Z.mul_assoc, Z.div_mul; [reflexivity|].
    apply Z.pow_nonzero; lia.
  - lia.
  - replace (104 - Z.log2 a - Z.log2 b + Z.log2 (a * b) + 1 - 53) with n by lia.
    exists (a * b * 2 ^ (52 - Z.log2 (a * b))). rewrite HM, Hsplit. lia.
  - lia.
Qed.

(** A whole number is the number that holds its integer, which is
    non-negative and below [2^53]. *)
Lemma whole_of_Z (n : Z) : 0 <= n < 2 ^ 53 -> Number.whole (Number.of_Z n).
Proof.
  intros Hn. unfold Number.whole.
  assert (Hto : Number.to_Z (Number.of_Z n) = n).
  { destruct (Z.eq_dec n 0) as [->|Hnz]; [reflexivity|].
    rewrite of_Z_pos by lia. unfold Number.canon, Number.to_Z.
    destruct (canon_mantissa n) as [Hm Hlog]; [lia|]. rewrite Hm.
    unfold cond_Zopp.
    destruct (Z.ltb_spec (Z.log2 n - 52) 0).
    - replace (- (Z.log2 n - 52)) with (52 - Z.log2 n) by lia.
      apply Z.div_mul. apply Z.pow_nonzero; lia.
    - replace (52 - Z.log2 n) with 0 by lia. replace (Z.log2 n - 52) with 0 by lia. lia. }
  rewrite Hto. split; [lia|reflexivity].
Qed.

(** A count times a whole price is exact while it stays below [2^53]. *)
Lemma mul_whole (q : Z) (p : number) :
  0 <= q < 2 ^ 53 -> Number.whole p -> q * Number.to_Z p < 2 ^ 53 ->
  (q * p)%num = Number.of_Z (q * Number.to_Z p)
  /\ (p * q)%num = Number.of_Z (q * Number.to_Z p).
Proof.
  intros Hq [Hp Hof] Hqp. rewrite Hof at 1 3.
  rewrite !mul_exact by lia. split; [reflexivity|f_equal; lia].
Qed.

(** The left fold of a sum of whole terms is exact while the sum stays
    below [2^53]. *)
Lemma reduce_whole {A : Type} (f : A -> number) (g : A -> Z) (arr : list A) (a : Z) :
  Forall (fun x => f x = Number.of_Z (g x) /\ 0 <= g x) arr ->
  0 <= a ->
  a + foldr (fun x acc => g x + acc) 0 arr < 2 ^ 53 ->
  reduce (fun acc x => acc + f x)%num (Number.of_Z a) arr
  = Number.of_Z (a + foldr (fun x acc => g x + acc) 0 arr).
Proof.
  unfold reduce. intros Hall. revert a.
  induction Hall as [|x arr [Hx Hgx] Hall IH]; intros a Ha Hsum; simpl in *.
  - by rewrite Z.add_0_r.
  - assert (Htail : 0 <= foldr (fun x acc => g x + acc) 0 arr).
    { clear -Hall. induction Hall as [|y arr [_ Hy] _ IH]; simpl; lia. }
    rewrite Hx, add_exact by lia. rewrite IH by lia. f_equal. lia.
Qed.

(** Appending a term to an array adds it last. *)
Lemma reduce_snoc {A B : Type} (f : B -> A -> B) (init : B) (arr : list A) (x : A) :
  reduce f init (arr ++ [x]) = f (reduce f init arr) x.
Proof. unfold reduce. by rewrite fold_left_app. Qed.

Lemma sum_of_nonneg {A : Type} (g : A -> Z) (arr : list A) :
  Forall (fun x => 0 <= g x) arr -> 0 <= sum_of g arr.
Proof. induction 1 as [|x arr Hx _ IH]; unfold sum_of in *; simpl; lia. Qed.

Lemma sum_of_term_le {A : Type} (g : A -> Z) (arr : list A) :
  Forall (fun x => 0 <= g x) arr ->
  Forall (fun x => g x <= sum_of g arr) arr.
Proof.
  induction 1 as [|x arr Hx Hall IH]; [constructor|].
  pose proof (sum_of_nonneg g arr Hall) as Hnn.
  unfold sum_of in *. simpl. constructor; [lia|].
  eapply Forall_impl; [exact IH|]. simpl. intros y Hy. lia.
Qed.

(** The left fold of counts times whole prices is the exact sum while that
    sum stays below [2^53], in either order of the factors. *)
Lemma reduce_products_whole {A : Type} (q : A -> Z) (p : A -> number) (arr : list A) :
  Forall (fun x => 0 <= q x < 2 ^ 53 /\ Number.whole (p x)) arr ->
  sum_of (fun x => q x * Number.to_Z (p x)) arr < 2 ^ 53 ->
  reduce (fun acc x => acc + q x * p x)%num (Number.of_Z 0) arr
    = Number.of_Z (sum_of (fun x => q x * Number.to_Z (p x)) arr)
  /\ reduce (fun acc x => acc + p x * q x)%num (Number.of_Z 0) arr
    = Number.of_Z (sum_of (fun x => q x * Number.to_Z (p x)) arr).
Proof.
  intros Hall Hsum.
  assert (Hnn : Forall (fun x => 0 <= q x * Number.to_Z (p x)) arr).
  { eapply Forall_impl; [exact Hall|]. simpl. intros x [Hq [Hp _]]. nia. }
  pose proof (sum_of_term_le _ _ Hnn) as Hle.
  assert (Hterms : Forall (fun x => ((q x * p x)%num = Number.of_Z (q x * Number.to_Z (p x))
                                     /\ (p x * q x)%num = Number.of_Z (q x * Number.to_Z (p x)))
                                    /\ 0 <= q x * Number.to_Z (p x)) arr).
  { rewrite Forall_forall in *. intros x Hx.
    destruct (Hall x Hx) as [Hq Hp]. specialize (Hle x Hx). specialize (Hnn x Hx).
    split; [|exact Hnn]. apply mul_whole; [exact Hq|exact Hp|lia]. }
  split.
  - rewrite (reduce_whole (fun x => (q x * p x)%num) (fun x => q x * Number.to_Z (p x)));
      [reflexivity| |lia|exact Hsum].
    eapply Forall_impl; [exact Hterms|]. simpl. intros x [[H1 _] H2]. done.
  - rewrite (reduce_whole (fun x => (p x * q x)%num) (fun x => q x * Number.to_Z (p x)));
      [reflexivity| |lia|exact Hsum].
    eapply Forall_impl; [exact Hterms|]. simpl. intros x [[_ H1] H2]. done.
Qed.

(** ** Adjusting the quantity of the first item with an identifier *)

Lemma adjust_lookup inv id delta ts (k : nat) a :
  inv !! k = Some a ->
  adjust inv id delta ts !! k =
    Some (if bool_decide (findIndex (has_id id) inv = Z.of_nat k)
          then InventoryItem.with_quantity a (InventoryItem.quantity a + delta) ts
          else a).
Proof.
  intros Hk. unfold adjust.
  destruct (find (has_id id) inv) as [p|] eqn:Hfind.
  - pose proof (findIndex_found _ _ _ Hfind) as Hpos.
    pose proof (at_index_findIndex (has_id id) inv) as Hat.
    rewrite Hfind in Hat. unfold at_index in Hat.
    destruct (Z.ltb_spec (findIndex (has_id id) inv) 0); [lia|].
    unfold set_index. case_bool_decide as Hi.
    + rewrite Hi, Nat2Z.id in *. rewrite Hk in Hat. injection Hat as ->.
      apply list_lookup_insert_eq. by eapply lookup_lt_Some.
    + rewrite list_lookup_insert_ne; [done|]. lia.
  - rewrite (findIndex_not_found _ _ Hfind).
    rewrite bool_decide_eq_false_2; [done|lia].
Qed.

Lemma adjust_length inv id delta ts :
  length (adjust inv id delta ts) = length inv.
Proof.
  unfold adjust. destruct (find _ inv); [apply length_insert|reflexivity].
Qed.

Lemma adjust_ids inv id delta ts :
  map InventoryItem.id (adjust inv id delta ts) = map InventoryItem.id inv.
Proof.
  apply list_eq. intros k. rewrite !list_lookup_fmap.
  destruct (inv !! k) as [a|] eqn:Hk.
  - rewrite (adjust_lookup _ _ _ _ _ _ Hk). simpl. by case_bool_decide.
  - apply lookup_ge_None in Hk. rewrite <- (adjust_length inv id delta ts) in Hk.
    apply lookup_ge_None in Hk. by rewrite Hk.
Qed.

Lemma first_of_its_id_ids inv inv' k a b :
  map InventoryItem.id inv' = map InventoryItem.id inv ->
  InventoryItem.id b = InventoryItem.id a ->
  first_of_its_id inv' k b = first_of_its_id inv k a.
Proof.
  intros Hids Hid. unfold first_of_its_id. rewrite Hid.
  f_equal. apply findIndex_ext.
  transitivity (map (fun i => bool_decide (i = InventoryItem.id a)) (map InventoryItem.id inv')).
  - by rewrite map_map.
  - rewrite Hids. by rewrite map_map.
Qed.

Lemma findIndex_at inv id (k : nat) a :
  inv !! k = Some a ->
  findIndex (has_id id) inv = Z.of_nat k <->
  InventoryItem.id a = id /\ first_of_its_id inv k a = true.
Proof.
  intros Hk. unfold first_of_its_id. rewrite Z.eqb_eq. split.
  - intros Hi. pose proof (at_index_findIndex (has_id id) inv) as Hat.
    rewrite Hi in Hat. unfold at_index in Hat.
    destruct (Z.ltb_spec (Z.of_nat k) 0); [lia|].
    rewrite Nat2Z.id, Hk in Hat. symmetry in Hat.
    apply find_some in Hat as [_ Hid]. apply bool_decide_eq_true in Hid.
    by rewrite Hid.
  - by intros [-> ?].
Qed.

Lemma same_static_refl a : same_static a a.
Proof. by repeat split. Qed.

Lemma same_static_trans a b c : same_static a b -> same_static b c -> same_static a c.
Proof. unfold same_static. intros (?&?&?&?&?&?) (?&?&?&?&?&?). repeat split; congruence. Qed.

Lemma same_static_with_quantity a q ts :
  same_static a (InventoryItem.with_quantity a q ts).
Proof. by repeat split. Qed.

(** What a sequence of adjustments leaves at each index: the static fields,
    and the quantity moved by the adjustments that bear the item's
    identifier when the item is the first with it. *)
Lemma Adjusted_lookup ds inv inv' :
  Adjusted ds inv inv' ->
  length inv' = length inv /\
  forall (k : nat) a, inv !! k = Some a ->
    exists b, inv' !! k = Some b /\ same_static a b /\
      InventoryItem.quantity b =
        InventoryItem.quantity a +
        (if first_of_its_id inv k a then delta_for ds (InventoryItem.id a) else 0) /\
      (Forall (fun d => fst d <> InventoryItem.id a) ds -> b = a).
Proof.
  induction 1 as [inv|id delta ts ds inv inv' _ [IHlen IH]].
  - split; [reflexivity|]. intros k a Hk. exists a.
    split; [done|]. split; [apply same_static_refl|].
    split; [|done]. simpl. destruct (first_of_its_id inv k a); lia.
  - split; [by rewrite IHlen, adjust_length|].
    intros k a Hk.
    pose proof (adjust_lookup inv id delta ts k a Hk) as Hk1.
    set (a1 := if bool_decide (findIndex (has_id id) inv = Z.of_nat k)
               then InventoryItem.with_quantity a (InventoryItem.quantity a + delta) ts
               else a) in *.
    assert (Hid1 : InventoryItem.id a1 = InventoryItem.id a)
      by (subst a1; by case_bool_decide).
    assert (Hst1 : same_static a a1)
      by (subst a1; case_bool_decide;
          [apply same_static_with_quantity|apply same_static_refl]).
    destruct (IH k a1 Hk1) as (b & Hb & Hst & Hq & Hframe).
    exists b. split; [done|]. split; [by eapply same_static_trans|].
    rewrite (first_of_its_id_ids inv (adjust inv id delta ts) k a a1
               (adjust_ids _ _ _ _) Hid1) in Hq.
    rewrite Hid1 in Hq. pose proof (findIndex_at inv id k a Hk) as Hat.
    split.
    + rewrite Hq. simpl. subst a1. case_bool_decide as Hi.
      * apply Hat in Hi as [Hida Hfirst]. rewrite Hfirst.
        rewrite bool_decide_eq_true_2 by done. simpl. lia.
      * destruct (first_of_its_id inv k a) eqn:Hfirst; [|lia].
        rewrite bool_decide_eq_false_2; [lia|].
        intros Hida. apply Hi, Hat. by split.
    + intros Hall. inversion Hall as [|? ? Hne Hrest]; subst. simpl in Hne.
      rewrite Hframe.
      * subst a1. rewrite bool_decide_eq_false_2; [done|].
        intros Hi. apply Hat in Hi as [Hida _]. congruence.
      * by rewrite Hid1.
Qed.

(** ** Running the monad *)

Ltac run :=
  unfold mbind, M_bind, mret, M_ret, try_catch, try_finally, throw_if, throw,
         modify, gets, setInventory, setSales, setExpenses, setPurchaseOrders,
         setLoading, alert, now, randomUUID, await, replace_by; simpl.

Lemma advance_advance n m w : advance n (advance m w) = advance (n + m) w.
Proof. unfold advance. simpl. f_equal. lia. Qed.

Lemma advance_0 w : advance 0 w = w.
Proof. by destruct w. Qed.

Lemma sell_locally_run inv it w :
  sell_locally inv it w =
    match find (has_id (SaleItem.itemId it)) inv with
    | Some _ =>
        (inl (adjust inv (SaleItem.itemId it) (- SaleItem.quantity it) (clock w (ticks w))),
         advance 1 w)
    | None => (inl inv, w)
    end.
Proof.
  unfold sell_locally, adjust.
  rewrite at_index_findIndex.
  destruct (find (has_id (SaleItem.itemId it)) inv) as [p|] eqn:Hfind.
  - pose proof (findIndex_found _ _ _ Hfind).
    destruct (Z.ltb_spec (-1) (findIndex (has_id (SaleItem.itemId it)) inv)); [|lia].
    reflexivity.
  - rewrite (findIndex_not_found _ _ Hfind). reflexivity.
Qed.

(** The [forEach] of the optimistic update: it completes, reads the clock
    some number of times and leaves the adjusted copy. *)
Lemma sell_locally_loop items inv w :
  exists inv' n,
    for_of_with items sell_locally inv w = (inl inv', advance n w) /\
    Adjusted (sale_deltas items) inv inv'.
Proof.
  revert inv w. induction items as [|it items IH]; intros inv w; simpl.
  - exists inv, 0%nat. rewrite advance_0. split; [reflexivity|constructor].
  - unfold mbind, M_bind. rewrite sell_locally_run.
    destruct (find (has_id (SaleItem.itemId it)) inv) as [p|] eqn:Hfind.
    + destruct (IH (adjust inv (SaleItem.itemId it) (- SaleItem.quantity it)
                      (clock w (ticks w))) (advance 1 w)) as (inv' & n & Hrun & Hadj).
      exists inv', (n + 1)%nat. rewrite Hrun, advance_advance.
      split; [reflexivity|]. econstructor. exact Hadj.
    + destruct (IH inv w) as (inv' & n & Hrun & Hadj).
      exists inv', n. split; [exact Hrun|].
      apply (Adjusted_cons _ _ 0). unfold adjust. by rewrite Hfind.
Qed.

Lemma handleCompleteSale_optimistic_run items w :
  exists inv' n,
    handleCompleteSale_optimistic items w =
      (inl (inventory w, newSale_in w items), optimistic_world w items inv' n) /\
    Adjusted (sale_deltas items) (inventory w) inv'.
Proof.
  unfold handleCompleteSale_optimistic. run.
  match goal with |- context [for_of_with items sell_locally ?i ?w1] =>
    destruct (sell_locally_loop items i w1) as (inv' & n & Hrun & Hadj) end.
  exists inv', n. rewrite Hrun. simpl. split; [reflexivity|exact Hadj].
Qed.

(** ** What the remote phase may touch *)

Lemma fetchData_frame w :
  (fetchData w).1 = inl tt /\
  store (fetchData w).2 = store w /\
  alerts (fetchData w).2 = alerts w /\
  exists cs, calls (fetchData w).2 = calls w ++ cs /\ Forall (fun c => is_write c = false) cs.
Proof.
  unfold fetchData. run. destruct w as [i s e p se lo st oc cs al ck tk uu dr]; simpl.
  destruct se; simpl.
  2:{ repeat split. exists []. by rewrite app_nil_r. }
  unfold next_outcome; simpl.
  destruct oc as [|[] [|[] [|[] [|[] ?]]]]; simpl;
    (repeat split; eexists; split;
     [rewrite <- ?app_assoc; reflexivity | repeat constructor]).
Qed.

Lemma sell_remotely_calls inv0 it w :
  exists cs, calls (sell_remotely inv0 it w).2 = calls w ++ cs.
Proof.
  unfold sell_remotely. destruct (find _ inv0); run.
  - destruct (next_outcome _); simpl; by eexists.
  - exists []. by rewrite app_nil_r.
Qed.

Lemma sell_remotely_loop_calls items inv0 w :
  exists cs, calls (for_of items (sell_remotely inv0) w).2 = calls w ++ cs.
Proof.
  revert w. induction items as [|it items IH]; intros w; simpl.
  - exists []. by rewrite app_nil_r.
  - unfold mbind, M_bind.
    destruct (sell_remotely_calls inv0 it w) as [cs1 H1].
    destruct (sell_remotely inv0 it w) as [[[]|e] w1]; simpl in *.
    + destruct (IH w1) as [cs2 H2]. exists (cs1 ++ cs2).
      by rewrite H2, H1, app_assoc.
    + by exists cs1.
Qed.

(** The remote phase starts with the insert of the sale record, whatever
    follows. *)
Lemma handleCompleteSale_persist_calls inv0 items newSale w :
  exists rest,
    calls (handleCompleteSale_persist inv0 items newSale w).2 =
      calls w ++ InsertSale newSale :: rest.
Proof.
  unfold handleCompleteSale_persist. run.
  set (recover := fun w1 : World =>
    fetchData (push_alert "Error saving sale to database. Please check connection." w1)).
  assert (Hrec : forall w1 pre, calls w1 = calls w ++ InsertSale newSale :: pre ->
            exists rest, calls (recover w1).2 = calls w ++ InsertSale newSale :: rest).
  { intros w1 pre Hw1. subst recover. simpl.
    destruct (fetchData_frame (push_alert "Error saving sale to database. Please check connection." w1))
      as (_ & _ & _ & cs & Hcs & _).
    rewrite Hcs. simpl. rewrite Hw1. rewrite <- app_assoc. simpl. by eexists. }
  destruct (next_outcome w) eqn:Hout; simpl.
  - match goal with |- context [for_of items _ ?w1] =>
      destruct (sell_remotely_loop_calls items inv0 w1) as [cs Hcs];
      destruct (for_of items (sell_remotely inv0) w1) as [[[]|e] w2] end; simpl in *.
    + rewrite Hcs, <- app_assoc. simpl. by eexists.
    + apply (Hrec w2 cs). rewrite Hcs, <- app_assoc. reflexivity.
  - apply (Hrec _ []). reflexivity.
  - apply (Hrec _ []). reflexivity.
Qed.

(** The handler never raises: what the remote phase raises is caught, and
    the recovery completes. *)
Lemma handleCompleteSale_persist_completes inv0 items newSale w :
  (handleCompleteSale_persist inv0 items newSale w).1 = inl tt.
Proof.
  unfold handleCompleteSale_persist. run.
  match goal with |- (match ?b with _ => _ end).1 = _ => destruct b as [[[]|e] w1] end.
  - reflexivity.
  - apply fetchData_frame.
Qed.

Lemma handleCompleteSale_run items w :
  exists inv' n,
    handleCompleteSale_optimistic items w =
      (inl (inventory w, newSale_in w items), optimistic_world w items inv' n) /\
    handleCompleteSale items w =
      handleCompleteSale_persist (inventory w) items (newSale_in w items)
        (optimistic_world w items inv' n) /\
    Adjusted (sale_deltas items) (inventory w) inv'.
Proof.
  destruct (handleCompleteSale_optimistic_run items w) as (inv' & n & Hrun & Hadj).
  exists inv', n. split; [exact Hrun|]. split; [|exact Hadj].
  unfold handleCompleteSale, mbind, M_bind. by rewrite Hrun.
Qed.

Lemma delta_for_sale items id :
  delta_for (sale_deltas items) id = - sold items id.
Proof.
  induction items as [|it items IH]; simpl; [reflexivity|].
  rewrite IH. case_bool_decide; lia.
Qed.

Lemma sale_deltas_unreferenced items id :
  (forall it, it ∈ items -> SaleItem.itemId it <> id) ->
  Forall (fun d => fst d <> id) (sale_deltas items).
Proof.
  intros H. unfold sale_deltas. apply Forall_fmap, Forall_forall.
  intros it Hit. simpl. by apply H.
Qed.

(** The optimistic update sums the quantities sold of an identifier. *)
Lemma completeSale_local_quantities items w (k : nat) a :
  inventory w !! k = Some a ->
  exists b, inventory (handleCompleteSale_optimistic items w).2 !! k = Some b /\
    InventoryItem.quantity b =
      InventoryItem.quantity a -
      (if first_of_its_id (inventory w) k a then sold items (InventoryItem.id a) else 0).
Proof.
  intros Hk. destruct (handleCompleteSale_run items w) as (inv' & n & Hrun & _ & Hadj).
  rewrite Hrun. simpl.
  destruct (Adjusted_lookup _ _ _ Hadj) as [_ Hlook].
  destruct (Hlook k a Hk) as (b & Hb & _ & Hq & _).
  exists b. split; [exact Hb|]. rewrite Hq, delta_for_sale.
  destruct (first_of_its_id (inventory w) k a); lia.
Qed.

(** ** The claims about the sale *)

(** C3, as the code has it: the record [handleCompleteSale] produces, the
    one it puts in front of the local sales and inserts in the store with
    its first call, has as [totalAmount] the sum over the items of quantity
    times [priceAtSale] accumulated from left to right in the arithmetic of
    the source, each product and each partial sum rounded to the nearest
    number, and as [totalProfit] that amount less the sum of quantity times
    [costAtSale] accumulated in the same way.  Where the quantities are
    counts below [2^53], the prices and costs are whole numbers and the two
    exact sums are below [2^53], the two totals are exactly the sum and the
    difference of the sums; zero quantities and prices are included. *)
Theorem completeSale_totals (items : list SaleItem.t) (w : World) :
  exists newSale rest,
    sales (handleCompleteSale_optimistic items w).2 = newSale :: sales w /\
    calls (handleCompleteSale items w).2 = calls w ++ InsertSale newSale :: rest /\
    SaleRecord.items newSale = items /\
    SaleRecord.totalAmount newSale =
      reduce (fun sum it => sum + SaleItem.quantity it * SaleItem.priceAtSale it)%num
             (Number.of_Z 0) items /\
    SaleRecord.totalProfit newSale =
      (SaleRecord.totalAmount newSale -
       reduce (fun sum it => sum + SaleItem.quantity it * SaleItem.costAtSale it)%num
              (Number.of_Z 0) items)%num /\
    (let amount :=
       sum_of (fun it => SaleItem.quantity it * Number.to_Z (SaleItem.priceAtSale it)) items in
     let cost :=
       sum_of (fun it => SaleItem.quantity it * Number.to_Z (SaleItem.costAtSale it)) items in
     Forall whole_sale_item items -> amount < 2 ^ 53 -> cost < 2 ^ 53 ->
     SaleRecord.totalAmount newSale = Number.of_Z amount /\
     SaleRecord.totalProfit newSale = Number.of_Z (amount - cost)).
Proof.
  destruct (handleCompleteSale_run items w) as (inv' & n & Hopt & Hrun & _).
  destruct (handleCompleteSale_persist_calls (inventory w) items (newSale_in w items)
              (optimistic_world w items inv' n)) as [rest Hcalls].
  exists (newSale_in w items), rest.
  rewrite Hopt, Hrun, Hcalls. unfold optimistic_world, newSale_in.
  cbn [snd sales calls SaleRecord.items SaleRecord.totalAmount SaleRecord.totalProfit].
  do 5 (split; [reflexivity|]).
  intros Hwhole Hamount Hcost.
  assert (Hprices : Forall (fun it => 0 <= SaleItem.quantity it < 2 ^ 53
                                      /\ Number.whole (SaleItem.priceAtSale it)) items).
  { eapply Forall_impl; [exact Hwhole|]. intros it (? & ? & ?). done. }
  assert (Hcosts : Forall (fun it => 0 <= SaleItem.quantity it < 2 ^ 53
                                     /\ Number.whole (SaleItem.costAtSale it)) items).
  { eapply Forall_impl; [exact Hwhole|]. intros it (? & ? & ?). done. }
  destruct (reduce_products_whole SaleItem.quantity SaleItem.priceAtSale items Hprices Hamount)
    as [Hsum _].
  destruct (reduce_products_whole SaleItem.quantity SaleItem.costAtSale items Hcosts Hcost)
    as [Hsum' _].
  rewrite Hsum, Hsum'. split; [reflexivity|].
  assert (0 <= sum_of (fun it => SaleItem.quantity it * Number.to_Z (SaleItem.priceAtSale it)) items).
  { apply sum_of_nonneg. eapply Forall_impl; [exact Hprices|]. simpl. intros it [? [? _]]. nia. }
  assert (0 <= sum_of (fun it => SaleItem.quantity it * Number.to_Z (SaleItem.costAtSale it)) items).
  { apply sum_of_nonneg. eapply Forall_impl; [exact Hcosts|]. simpl. intros it [? [? _]]. nia. }
  apply sub_exact; lia.
Qed.

(** C10: the optimistic update of [handleCompleteSale] keeps the length and
    the order of the inventory; at every index it keeps the identifier, the
    name, the category, the two prices and the threshold of the item, and it
    keeps the whole item when no sale item refers to it; it leaves the
    expenses and the purchase orders alone. *)
Theorem completeSale_optimistic_frame (items : list SaleItem.t) (w : World) :
  let w' := (handleCompleteSale_optimistic items w).2 in
  length (inventory w') = length (inventory w) /\
  (forall (k : nat) a, inventory w !! k = Some a ->
     exists b, inventory w' !! k = Some b /\ same_static a b /\
       ((forall it, it ∈ items -> SaleItem.itemId it <> InventoryItem.id a) -> b = a)) /\
  expenses w' = expenses w /\
  purchaseOrders w' = purchaseOrders w.
Proof.
  destruct (handleCompleteSale_run items w) as (inv' & n & Hopt & _ & Hadj).
  rewrite Hopt. simpl.
  destruct (Adjusted_lookup _ _ _ Hadj) as [Hlen Hlook].
  split; [exact Hlen|]. split; [|done].
  intros k a Hk. destruct (Hlook k a Hk) as (b & Hb & Hst & _ & Hframe).
  exists b. split; [exact Hb|]. split; [exact Hst|].
  intros Hun. by apply Hframe, sale_deltas_unreferenced.
Qed.

Lemma no_rejects_next w :
  Forall (fun o => rejects o = false) (outcomes w) ->
  rejects (next_outcome w) = false /\
  Forall (fun o => rejects o = false) (tail (outcomes w)).
Proof.
  unfold next_outcome. destruct (outcomes w); [done|]. by inversion 1.
Qed.

(** An awaited call that does not reject resolves, and is logged. *)
Lemma await_settles {A : Type} (c : Call) (data_of : Store.t -> A) w :
  rejects (next_outcome w) = false ->
  exists res st, await c data_of w = (inl res, issued c st w).
Proof.
  unfold await. destruct (next_outcome w); [by eexists _, _..|discriminate].
Qed.

Lemma sell_remotely_run inv0 it w :
  sell_remotely inv0 it w =
    match find (has_id (SaleItem.itemId it)) inv0 with
    | Some cur =>
        match await (UpdateInventory (SaleItem.itemId it)
                       (InventoryItem.quantity cur - SaleItem.quantity it)
                       (clock w (ticks w)))
                    (fun _ => tt) (advance 1 w) with
        | (inl _, w') => (inl tt, w')
        | (inr e, w') => (inr e, w')
        end
    | None => (inl tt, w)
    end.
Proof. unfold sell_remotely. by destruct (find _ inv0). Qed.

Lemma sell_remotely_loop_updates inv0 items w :
  Forall (fun o => rejects o = false) (outcomes w) ->
  exists updates w',
    for_of items (sell_remotely inv0) w = (inl tt, w') /\
    calls w' = calls w ++ updates /\
    alerts w' = alerts w /\
    inventory w' = inventory w /\
    sales w' = sales w /\
    Forall2 (fun c e => exists ts, c = UpdateInventory e.1 e.2 ts)
            updates (expected_updates inv0 items).
Proof.
  revert w. induction items as [|it items IH]; intros w Hno; simpl.
  - exists [], w. rewrite app_nil_r. repeat split. constructor.
  - unfold mbind, M_bind. rewrite sell_remotely_run.
    destruct (find (has_id (SaleItem.itemId it)) inv0) as [cur|] eqn:Hfind.
    + destruct (no_rejects_next w Hno) as [Hnext Htail].
      match goal with |- context [await ?c ?d ?w1] =>
        destruct (await_settles c d w1 Hnext) as (res & st & Hawait);
        rewrite Hawait end.
      match goal with |- context [for_of items _ ?w1] =>
        destruct (IH w1 Htail) as (ups & w' & Hrun & Hcalls & Hal & Hinv & Hsales & Hall) end.
      eexists (_ :: ups), w'. rewrite Hrun.
      split; [reflexivity|]. simpl in *. rewrite Hcalls, <- app_assoc.
      split; [reflexivity|]. repeat split; try done.
      constructor; [by eexists|exact Hall].
    + destruct (IH w Hno) as (ups & w' & Hrun & Hrest).
      exists ups, w'. by rewrite Hrun.
Qed.

(** What the handler issues when the store accepts the insert and rejects
    no call: the insert, then for each sale item with a match in the
    inventory the handler started from an update with the quantity of that
    match less the quantity of the sale item. *)
Lemma handleCompleteSale_issues (items : list SaleItem.t) (w : World) :
  next_outcome w = Ok ->
  Forall (fun o => rejects o = false) (outcomes w) ->
  exists newSale updates,
    calls (handleCompleteSale items w).2 = calls w ++ InsertSale newSale :: updates /\
    SaleRecord.items newSale = items /\
    Forall2 (fun c e => exists ts, c = UpdateInventory e.1 e.2 ts)
            updates (expected_updates (inventory w) items) /\
    alerts (handleCompleteSale items w).2 = alerts w.
Proof.
  intros Hok Hno.
  destruct (handleCompleteSale_run items w) as (inv' & n & _ & Hrun & _).
  rewrite Hrun. unfold handleCompleteSale_persist, try_catch, mbind, M_bind, await.
  replace (next_outcome (optimistic_world w items inv' n)) with Ok by done.
  simpl.
  match goal with |- context [for_of items _ ?w1] =>
    destruct (sell_remotely_loop_updates (inventory w) items w1)
      as (ups & w' & Hloop & Hcalls & Hal & _ & _ & Hall) end.
  { simpl. by apply no_rejects_next. }
  rewrite Hloop. simpl. exists (newSale_in w items), ups.
  rewrite Hcalls, Hal. simpl. rewrite <- app_assoc. done.
Qed.

Lemma all_ok_next w :
  Forall (fun o => o = Ok) (outcomes w) ->
  next_outcome w = Ok /\ Forall (fun o => rejects o = false) (outcomes w).
Proof.
  intros H. split.
  - unfold next_outcome. destruct (outcomes w); [done|by inversion H].
  - eapply Forall_impl; [exact H|]. by intros ? ->.
Qed.

(** C4, as the code has it: for a sale whose items bear pairwise distinct
    identifiers, the store accepting every call, the remote phase issues the
    insert of the sale record and then, in item order, one quantity update
    for each sale item whose identifier has a match in the inventory the
    handler started from, and none for an item without a match; each update
    carries the identifier of the sale item and the quantity of the match in
    that starting inventory less the quantity of the sale item.  No notice
    is shown. *)
Theorem completeSale_remote_writes (items : list SaleItem.t) (w : World) :
  NoDup (map SaleItem.itemId items) ->
  Forall (fun o => o = Ok) (outcomes w) ->
  exists newSale updates,
    calls (handleCompleteSale items w).2 = calls w ++ InsertSale newSale :: updates /\
    SaleRecord.items newSale = items /\
    Forall2 (fun c e => exists ts, c = UpdateInventory e.1 e.2 ts)
            updates (expected_updates (inventory w) items) /\
    NoDup (map fst (expected_updates (inventory w) items)) /\
    alerts (handleCompleteSale items w).2 = alerts w.
Proof.
  intros Hnodup Hall. destruct (all_ok_next w Hall) as [Hok Hno].
  destruct (handleCompleteSale_issues items w Hok Hno)
    as (newSale & updates & Hcalls & Hitems & Hups & Hal).
  exists newSale, updates. do 3 (split; [done|]). split; [|done].
  clear -Hnodup. induction items as [|it items IH]; simpl; [constructor|].
  apply NoDup_cons in Hnodup as [Hnotin Hnodup].
  destruct (find _ (inventory w)); [|by apply IH].
  simpl. apply NoDup_cons. split; [|by apply IH].
  intros Hin. apply Hnotin. clear -Hin.
  induction items as [|it' items IH]; simpl in *; [by apply elem_of_nil in Hin|].
  destruct (find _ (inventory w)); simpl in *.
  - apply elem_of_cons in Hin as [->|Hin]; [apply list_elem_of_here|].
    apply list_elem_of_further. by apply IH.
  - apply list_elem_of_further. by apply IH.
Qed.

(** ** Receiving a purchase order *)

Lemma receive_item_run inv it w :
  receive_item inv it w =
    match find (has_id (PurchaseOrderItem.itemId it)) inv with
    | Some cur =>
        match await (UpdateInventory (PurchaseOrderItem.itemId it)
                       (InventoryItem.quantity cur + PurchaseOrderItem.quantity it)
                       (clock w (S (ticks w))))
                    (fun _ => tt) (advance 2 w) with
        | (inl _, w') =>
            (inl (adjust inv (PurchaseOrderItem.itemId it) (PurchaseOrderItem.quantity it)
                    (clock w (ticks w))), w')
        | (inr e, w') => (inr e, w')
        end
    | None => (inl inv, w)
    end.
Proof.
  unfold receive_item, adjust.
  rewrite at_index_findIndex.
  destruct (find (has_id (PurchaseOrderItem.itemId it)) inv) as [p|] eqn:Hfind.
  - pose proof (findIndex_found _ _ _ Hfind).
    destruct (Z.ltb_spec (-1) (findIndex (has_id (PurchaseOrderItem.itemId it)) inv)); [|lia].
    reflexivity.
  - rewrite (findIndex_not_found _ _ Hfind). reflexivity.
Qed.

(** The receipt loop when the store rejects no call: it completes with the
    adjusted copy; the state variables and the notices are as before, the
    store has the same orders, and the store's coming outcomes are a suffix
    of the former ones. *)
Lemma receive_item_loop items inv w :
  Forall (fun o => rejects o = false) (outcomes w) ->
  exists inv' w' m,
    for_of_with items receive_item inv w = (inl inv', w') /\
    Adjusted (receipt_deltas items) inv inv' /\
    inventory w' = inventory w /\ sales w' = sales w /\
    expenses w' = expenses w /\ purchaseOrders w' = purchaseOrders w /\
    alerts w' = alerts w /\
    Store.purchase_orders (store w') = Store.purchase_orders (store w) /\
    outcomes w' = drop m (outcomes w).
Proof.
  revert inv w. induction items as [|it items IH]; intros inv w Hno; simpl.
  - exists inv, w, 0%nat. repeat split. constructor.
  - unfold mbind, M_bind. rewrite receive_item_run.
    destruct (find (has_id (PurchaseOrderItem.itemId it)) inv) as [cur|] eqn:Hfind.
    + destruct (no_rejects_next w Hno) as [Hnext Htail].
      match goal with |- context [await ?c ?d ?w1] =>
        assert (Hawait : exists res st, await c d w1 = (inl res, issued c st w1) /\
                  Store.purchase_orders st = Store.purchase_orders (store w)) end.
      { unfold await. unfold next_outcome in *. simpl.
        destruct (outcomes w) as [|[] ?]; simpl in *.
        all: try (by inversion Hno). all: eexists _, _; split; reflexivity. }
      destruct Hawait as (res & st & Hawait & Hst); rewrite Hawait.
      match goal with |- context [for_of_with items _ ?i1 ?w1] =>
        destruct (IH i1 w1 Htail)
          as (inv' & w' & m & Hrun & Hadj & Hi & Hs & He & Hp & Hal & Hpo & Hout) end.
      exists inv', w', (S m). rewrite Hrun. simpl in *.
      split; [reflexivity|]. split; [econstructor; exact Hadj|].
      repeat split; try done; try congruence.
      rewrite Hout. destruct (outcomes w); simpl; [by rewrite drop_nil|done].
    + destruct (IH inv w Hno)
        as (inv' & w' & m & Hrun & Hadj & Hrest).
      exists inv', w', m. rewrite Hrun. split; [reflexivity|].
      split; [|exact Hrest].
      apply (Adjusted_cons _ _ 0). unfold adjust. by rewrite Hfind.
Qed.

(** The status handler on an order it finds, when the store accepts the
    status update and rejects no call. *)
Lemma handleUpdatePOStatus_run id u po w :
  find (po_has_id id) (purchaseOrders w) = Some po ->
  next_outcome w = Ok ->
  Forall (fun o => rejects o = false) (outcomes w) ->
  exists w',
    handleUpdatePOStatus id u w = (inl tt, w') /\
    purchaseOrders w' = mark_status id (status_of u) (purchaseOrders w) /\
    alerts w' = alerts w /\
    (exists m, outcomes w' = drop (S m) (outcomes w)) /\
    Store.purchase_orders (store w') =
      map (update_po_row id (status_of u)) (Store.purchase_orders (store w)) /\
    if restocks u po
    then Adjusted (receipt_deltas (PurchaseOrder.items po)) (inventory w) (inventory w')
    else inventory w' = inventory w /\
         Store.inventory (store w') = Store.inventory (store w) /\
         calls w' = calls w ++ [UpdatePurchaseOrderStatus id (status_of u)].
Proof.
  intros Hfind Hok Hno. unfold handleUpdatePOStatus.
  unfold mbind at 1 2, M_bind, gets. rewrite Hfind.
  unfold mbind at 1, M_bind, setPurchaseOrders, modify, try_catch.
  unfold mbind at 1 2, M_bind, await, throw_if.
  match goal with |- context [next_outcome ?w1] =>
    replace (next_outcome w1) with Ok by (symmetry; exact Hok) end.
  fold (restocks u po). unfold mret at 1, M_ret.
  destruct (restocks u po) eqn:Hrestock.
  - unfold mbind, M_bind, setInventory, modify.
    match goal with |- context [for_of_with _ receive_item ?i1 ?w1] =>
      destruct (receive_item_loop (PurchaseOrder.items po) i1 w1)
        as (inv' & w' & m & Hrun & Hadj & Hi & Hs & He & Hp & Hal & Hpo & Hout) end.
    { simpl. by apply no_rejects_next. }
    rewrite Hrun. simpl in *. eexists. split; [reflexivity|]. simpl.
    split; [exact Hp|]. split; [exact Hal|].
    split; [exists m; rewrite Hout; destruct (outcomes w); simpl;
            [by rewrite drop_nil|done]|].
    split; [exact Hpo|exact Hadj].
  - simpl. eexists. split; [reflexivity|]. simpl. repeat split. by exists 0%nat.
Qed.


Lemma find_mark_status id s orders :
  find (po_has_id id) (mark_status id s orders) =
    (fun p => PurchaseOrder.with_status p s) <$> find (po_has_id id) orders.
Proof.
  induction orders as [|p orders IH]; simpl; [reflexivity|].
  destruct (bool_decide (PurchaseOrder.id p = id)) eqn:Hp; simpl; rewrite Hp.
  - reflexivity.
  - exact IH.
Qed.

Lemma delta_for_receipt items id :
  delta_for (receipt_deltas items) id = ordered_quantity items id.
Proof.
  induction items as [|it items IH]; simpl; [reflexivity|]. by rewrite IH.
Qed.

(** ** The claims about purchase orders *)

(** C5: for an order in state [ordered] that the handler finds, with a store
    that accepts the calls, [handleUpdatePOStatus id 'received'] adds, at
    every index of the inventory, the quantity the order brings of the item's
    identifier to the item the lookup by that identifier finds, keeps the
    other fields but [lastUpdated], and marks the order [received]; the same
    call made again changes neither the local inventory nor the store's, and
    the order stays [received]. *)
Theorem receive_purchase_order_once (id : string) (po : PurchaseOrder.t) (w : World) :
  find (po_has_id id) (purchaseOrders w) = Some po ->
  PurchaseOrder.status po = ordered ->
  Forall (fun o => o = Ok) (outcomes w) ->
  let w1 := (handleUpdatePOStatus id to_received w).2 in
  let w2 := (handleUpdatePOStatus id to_received w1).2 in
  (forall (k : nat) a, inventory w !! k = Some a ->
     exists b, inventory w1 !! k = Some b /\ same_static a b /\
       InventoryItem.quantity b =
         InventoryItem.quantity a +
         (if first_of_its_id (inventory w) k a
          then ordered_quantity (PurchaseOrder.items po) (InventoryItem.id a) else 0)) /\
  PurchaseOrder.status <$> find (po_has_id id) (purchaseOrders w1) = Some received /\
  inventory w2 = inventory w1 /\
  Store.inventory (store w2) = Store.inventory (store w1) /\
  PurchaseOrder.status <$> find (po_has_id id) (purchaseOrders w2) = Some received.
Proof.
  intros Hfind Hst Hall. cbv zeta.
  destruct (all_ok_next w Hall) as [Hok Hno].
  destruct (handleUpdatePOStatus_run id to_received po w Hfind Hok Hno)
    as (w1 & Hrun1 & Hpo1 & _ & [m Hout1] & _ & Hinv1).
  rewrite Hrun1. simpl.
  assert (Hres : restocks to_received po = true)
    by (unfold restocks; rewrite Hst; reflexivity).
  rewrite Hres in Hinv1.
  assert (Hfind1 : find (po_has_id id) (purchaseOrders w1) =
                   Some (PurchaseOrder.with_status po received))
    by (rewrite Hpo1, find_mark_status, Hfind; reflexivity).
  assert (Hall1 : Forall (fun o => o = Ok) (outcomes w1))
    by (rewrite Hout1; by apply Forall_drop).
  destruct (all_ok_next w1 Hall1) as [Hok1 Hno1].
  destruct (handleUpdatePOStatus_run id to_received _ w1 Hfind1 Hok1 Hno1)
    as (w2 & Hrun2 & Hpo2 & _ & _ & _ & Hinv2).
  rewrite Hrun2. simpl. simpl in Hinv2. destruct Hinv2 as (Hi2 & Hs2 & _).
  split; [|split; [by rewrite Hfind1|split; [exact Hi2|split; [exact Hs2|]]]].
  - destruct (Adjusted_lookup _ _ _ Hinv1) as [_ Hlook].
    intros k a Hk. destruct (Hlook k a Hk) as (b & Hb & Hsame & Hq & _).
    exists b. rewrite delta_for_receipt in Hq. done.
  - rewrite Hpo2, find_mark_status, Hfind1. reflexivity.
Qed.

(** The example of the specification: five of A received against ten in
    stock gives fifteen, and the order is [received]; a second receipt
    leaves fifteen. *)
Lemma receive_purchase_order_once_witness :
  let w := Sample.shop [Sample.order ordered] [] in
  let w1 := (handleUpdatePOStatus "P1" to_received w).2 in
  let w2 := (handleUpdatePOStatus "P1" to_received w1).2 in
  (InventoryItem.quantity <$> inventory w1 !! 0%nat = Some 15 /\
   InventoryItem.quantity <$> inventory w2 !! 0%nat = Some 15) /\
  ((forall (k : nat) a, inventory w !! k = Some a ->
      exists b, inventory w1 !! k = Some b /\ same_static a b /\
        InventoryItem.quantity b =
          InventoryItem.quantity a +
          (if first_of_its_id (inventory w) k a
           then ordered_quantity (PurchaseOrder.items (Sample.order ordered))
                  (InventoryItem.id a) else 0)) /\
   PurchaseOrder.status <$> find (po_has_id "P1"%string) (purchaseOrders w1) = Some received /\
   inventory w2 = inventory w1 /\
   Store.inventory (store w2) = Store.inventory (store w1) /\
   PurchaseOrder.status <$> find (po_has_id "P1"%string) (purchaseOrders w2) = Some received).
Proof.
  split; [split; reflexivity|].
  apply (receive_purchase_order_once "P1" (Sample.order ordered)
           (Sample.shop [Sample.order ordered] []));
    [reflexivity|reflexivity|constructor].
Defined.

(** C6, as the code has it: on an order it finds, whatever the order's
    status, [handleUpdatePOStatus] sets the status to the one it is given,
    in the local orders and, the store accepting the calls, in the store.
    Only the inventory increment is guarded by the previous status: a
    receipt of an order not yet received adds the ordered quantities, and
    any other update leaves the inventory alone, locally and in the store.
    What is one-way is the screen: its row offers an action only for an
    order in state [ordered], for which it offers both, and the order the
    handler leaves is offered none. *)
Theorem purchase_order_status_overwritten (id : string) (u : StatusUpdate)
    (po : PurchaseOrder.t) (w : World) :
  find (po_has_id id) (purchaseOrders w) = Some po ->
  next_outcome w = Ok ->
  Forall (fun o => rejects o = false) (outcomes w) ->
  let w' := (handleUpdatePOStatus id u w).2 in
  purchaseOrders w' = mark_status id (status_of u) (purchaseOrders w) /\
  PurchaseOrder.status <$> find (po_has_id id) (purchaseOrders w') = Some (status_of u) /\
  Store.purchase_orders (store w') =
    map (update_po_row id (status_of u)) (Store.purchase_orders (store w)) /\
  (status_of u = received -> PurchaseOrder.status po <> received ->
   forall (k : nat) a, inventory w !! k = Some a ->
     exists b, inventory w' !! k = Some b /\ same_static a b /\
       InventoryItem.quantity b =
         InventoryItem.quantity a +
         (if first_of_its_id (inventory w) k a
          then ordered_quantity (PurchaseOrder.items po) (InventoryItem.id a) else 0)) /\
  (status_of u = cancelled \/ PurchaseOrder.status po = received ->
   inventory w' = inventory w /\
   Store.inventory (store w') = Store.inventory (store w)) /\
  (forall a, a ∈ row_actions po -> PurchaseOrder.status po = ordered) /\
  (PurchaseOrder.status po = ordered -> u ∈ row_actions po) /\
  (forall po', find (po_has_id id) (purchaseOrders w') = Some po' -> row_actions po' = []).
Proof.
  intros Hfind Hok Hno. cbv zeta.
  destruct (handleUpdatePOStatus_run id u po w Hfind Hok Hno)
    as (w' & Hrun & Hpo & _ & _ & Hstore & Hinv).
  rewrite Hrun. simpl.
  assert (Hstatus : PurchaseOrder.status <$> find (po_has_id id) (purchaseOrders w')
                    = Some (status_of u)).
  { rewrite Hpo, find_mark_status, Hfind. reflexivity. }
  split; [exact Hpo|]. split; [exact Hstatus|]. split; [exact Hstore|].
  split; [|split; [|split; [|split]]].
  - intros Hu Hnot.
    assert (Hres : restocks u po = true).
    { unfold restocks. rewrite Hu. simpl. by rewrite bool_decide_eq_false_2. }
    rewrite Hres in Hinv. destruct (Adjusted_lookup _ _ _ Hinv) as [_ Hlook].
    intros k a Hk. destruct (Hlook k a Hk) as (b & Hb & Hsame & Hq & _).
    exists b. by rewrite delta_for_receipt in Hq.
  - intros Hother.
    assert (Hres : restocks u po = false).
    { unfold restocks. destruct Hother as [Hu|Hrec].
      - rewrite Hu. reflexivity.
      - rewrite Hrec. simpl. apply andb_false_r. }
    rewrite Hres in Hinv. destruct Hinv as (? & ? & _). done.
  - intros a. unfold row_actions. case_bool_decide; [done|]. by intros ?%elem_of_nil.
  - intros Hordered. unfold row_actions. rewrite bool_decide_eq_true_2 by done.
    destruct u; [apply list_elem_of_here|apply list_elem_of_further, list_elem_of_here].
  - intros po' Hfind'. rewrite Hfind' in Hstatus. injection Hstatus as Hst'.
    unfold row_actions. rewrite Hst'. by destruct u.
Qed.

Lemma purchase_order_status_overwritten_witness :
  let po := Sample.order received in
  let w := Sample.shop [po] [] in
  let w' := (handleUpdatePOStatus "P1" to_cancelled w).2 in
  purchaseOrders w' = mark_status "P1" cancelled (purchaseOrders w) /\
  PurchaseOrder.status <$> find (po_has_id "P1"%string) (purchaseOrders w') = Some cancelled /\
  Store.purchase_orders (store w') =
    map (update_po_row "P1" cancelled) (Store.purchase_orders (store w)) /\
  (cancelled = received -> PurchaseOrder.status po <> received ->
   forall (k : nat) a, inventory w !! k = Some a ->
     exists b, inventory w' !! k = Some b /\ same_static a b /\
       InventoryItem.quantity b =
         InventoryItem.quantity a +
         (if first_of_its_id (inventory w) k a
          then ordered_quantity (PurchaseOrder.items po) (InventoryItem.id a) else 0)) /\
  (cancelled = cancelled \/ PurchaseOrder.status po = received ->
   inventory w' = inventory w /\
   Store.inventory (store w') = Store.inventory (store w)) /\
  (forall a, a ∈ row_actions po -> PurchaseOrder.status po = ordered) /\
  (PurchaseOrder.status po = ordered -> to_cancelled ∈ row_actions po) /\
  (forall po', find (po_has_id "P1"%string) (purchaseOrders w') = Some po' ->
     row_actions po' = []).
Proof.
  apply (purchase_order_status_overwritten "P1" to_cancelled (Sample.order received)
           (Sample.shop [Sample.order received] []));
    [reflexivity|reflexivity|constructor].
Defined.

(** C6 fails as stated: a received order is cancelled by a further call of
    the status handler. *)
Lemma received_order_can_be_cancelled :
  let w := Sample.shop [Sample.order received] [] in
  let w' := (handleUpdatePOStatus "P1" to_cancelled w).2 in
  PurchaseOrder.status <$> find (po_has_id "P1"%string) (purchaseOrders w) = Some received /\
  PurchaseOrder.status <$> find (po_has_id "P1"%string) (purchaseOrders w') = Some cancelled /\
  PurchaseOrder.status <$> find (po_has_id "P1"%string) (Store.purchase_orders (store w'))
    = Some cancelled.
Proof. repeat split. Qed.

Lemma fetchData_drawn w : drawn (fetchData w).2 = drawn w.
Proof.
  unfold fetchData. run. destruct w as [i s e p se lo st oc cs al ck tk uu dr]; simpl.
  destruct se; simpl; [|reflexivity].
  unfold next_outcome; simpl.
  destruct oc as [|[] [|[] [|[] [|[] ?]]]]; reflexivity.
Qed.

Lemma handleCreatePO_run po w :
  let newPO := PurchaseOrder.of_draft po (uuids w (drawn w)) in
  exists w' rest,
    handleCreatePO po w = (inl tt, w') /\
    calls w' = calls w ++ InsertPurchaseOrder newPO :: rest /\
    Forall (fun c => is_write c = false) rest /\
    drawn w' = S (drawn w) /\
    Store.inventory (store w') = Store.inventory (store w) /\
    (next_outcome w = Ok ->
       purchaseOrders w' = newPO :: purchaseOrders w /\
       inventory w' = inventory w /\
       rest = [] /\
       Store.purchase_orders (store w') = Store.purchase_orders (store w) ++ [newPO]).
Proof.
  cbv zeta. unfold handleCreatePO. run.
  unfold next_outcome at 1. simpl. fold (next_outcome w).
  destruct (next_outcome w) eqn:Hout; simpl.
  - eexists _, []. split; [reflexivity|]. simpl. repeat split; try done.
  - match goal with |- context [fetchData ?w1] =>
      destruct (fetchData_frame w1) as (Hres & Hst & _ & cs & Hcs & Hreads);
      pose proof (fetchData_drawn w1) as Hdr;
      destruct (fetchData w1) as [r w2] end.
    simpl in *. subst r. exists w2, cs. split; [reflexivity|].
    rewrite Hcs, Hst, Hdr, <- app_assoc. repeat split; try done.
  - match goal with |- context [fetchData ?w1] =>
      destruct (fetchData_frame w1) as (Hres & Hst & _ & cs & Hcs & Hreads);
      pose proof (fetchData_drawn w1) as Hdr;
      destruct (fetchData w1) as [r w2] end.
    simpl in *. subst r. exists w2, cs. split; [reflexivity|].
    rewrite Hcs, Hst, Hdr, <- app_assoc. repeat split; try done.
Qed.

(** C8, as the code has it: for a form with a supplier and at least one
    item, [createPurchaseOrder] issues, as its only write, the insert of an
    order with the form's supplier and items, status [ordered], the clock's
    reading as date and the next identifier of the source; its [totalCost]
    is the sum over the items of quantity times [unitCost] accumulated from
    left to right in the arithmetic of the source, which is exactly that sum
    where the quantities are counts below [2^53], the unit costs are whole
    numbers and the sum is below [2^53].  The handler never changes the
    store's inventory; and, the store accepting the insert, the order is in
    front of the local orders, the local inventory is as before and nothing
    else is called. *)
Theorem createPurchaseOrder_creates (form : OrderForm.t) (w : World) :
  OrderForm.supplier form <> ""%string ->
  OrderForm.orderItems form <> [] ->
  let w' := (createPurchaseOrder form w).2 in
  exists newPO rest,
    calls w' = calls w ++ InsertPurchaseOrder newPO :: rest /\
    Forall (fun c => is_write c = false) rest /\
    PurchaseOrder.id newPO = uuids w (drawn w) /\
    drawn w' = S (drawn w) /\
    PurchaseOrder.supplier newPO = OrderForm.supplier form /\
    PurchaseOrder.items newPO = OrderForm.orderItems form /\
    PurchaseOrder.date newPO = clock w (ticks w) /\
    PurchaseOrder.status newPO = ordered /\
    PurchaseOrder.totalCost newPO =
      reduce (fun acc it =>
                acc + PurchaseOrderItem.quantity it * PurchaseOrderItem.unitCost it)%num
             (Number.of_Z 0) (OrderForm.orderItems form) /\
    (let total :=
       sum_of (fun it => PurchaseOrderItem.quantity it
                         * Number.to_Z (PurchaseOrderItem.unitCost it))
              (OrderForm.orderItems form) in
     Forall whole_order_item (OrderForm.orderItems form) -> total < 2 ^ 53 ->
     PurchaseOrder.totalCost newPO = Number.of_Z total) /\
    Store.inventory (store w') = Store.inventory (store w) /\
    (next_outcome w = Ok ->
       purchaseOrders w' = newPO :: purchaseOrders w /\
       inventory w' = inventory w /\
       rest = [] /\
       Store.purchase_orders (store w') = Store.purchase_orders (store w) ++ [newPO]).
Proof.
  intros Hsupplier Hitems. cbv zeta.
  unfold createPurchaseOrder, handleSubmitOrder.
  rewrite bool_decide_eq_false_2 by done.
  replace (Z.of_nat (length (OrderForm.orderItems form)) =? 0) with false
    by (symmetry; apply Z.eqb_neq; destruct (OrderForm.orderItems form); simpl; [done|lia]).
  cbn [orb]. unfold mbind, M_bind, now, mret, M_ret.
  match goal with |- context [handleCreatePO ?d ?w1] =>
    destruct (handleCreatePO_run d w1) as (w' & rest & Hrun & Hcalls & Hreads & Hdr & Hst & Hok)
  end.
  rewrite Hrun. simpl in *.
  exists (newPO_in w form), rest.
  split; [exact Hcalls|]. split; [exact Hreads|]. split; [reflexivity|].
  split; [exact Hdr|]. do 5 (split; [reflexivity|]).
  split; [|split; [exact Hst|exact Hok]].
  intros Hwhole Htotal. unfold newPO_in. cbn [PurchaseOrder.totalCost].
  by destruct (reduce_products_whole PurchaseOrderItem.quantity PurchaseOrderItem.unitCost
                 (OrderForm.orderItems form) Hwhole Htotal) as [-> _].
Qed.

Lemma createPurchaseOrder_creates_witness :
  let form := Sample.order_form in
  let w := Sample.shop [] [] in
  let w' := (createPurchaseOrder form w).2 in
  (PurchaseOrder.totalCost <$> head (purchaseOrders w') = Some (Number.of_Z 32) /\
   next_outcome w = Ok /\
   Forall whole_order_item (OrderForm.orderItems form)) /\
  exists newPO rest,
    calls w' = calls w ++ InsertPurchaseOrder newPO :: rest /\
    Forall (fun c => is_write c = false) rest /\
    PurchaseOrder.id newPO = uuids w (drawn w) /\
    drawn w' = S (drawn w) /\
    PurchaseOrder.supplier newPO = OrderForm.supplier form /\
    PurchaseOrder.items newPO = OrderForm.orderItems form /\
    PurchaseOrder.date newPO = clock w (ticks w) /\
    PurchaseOrder.status newPO = ordered /\
    PurchaseOrder.totalCost newPO =
      reduce (fun acc it =>
                acc + PurchaseOrderItem.quantity it * PurchaseOrderItem.unitCost it)%num
             (Number.of_Z 0) (OrderForm.orderItems form) /\
    (let total :=
       sum_of (fun it => PurchaseOrderItem.quantity it
                         * Number.to_Z (PurchaseOrderItem.unitCost it))
              (OrderForm.orderItems form) in
     Forall whole_order_item (OrderForm.orderItems form) -> total < 2 ^ 53 ->
     PurchaseOrder.totalCost newPO = Number.of_Z total) /\
    Store.inventory (store w') = Store.inventory (store w) /\
    (next_outcome w = Ok ->
       purchaseOrders w' = newPO :: purchaseOrders w /\
       inventory w' = inventory w /\
       rest = [] /\
       Store.purchase_orders (store w') = Store.purchase_orders (store w) ++ [newPO]).
Proof.
  split; [split; [reflexivity|split; [reflexivity|]]|].
  - repeat constructor; vm_compute; congruence.
  - apply (createPurchaseOrder_creates Sample.order_form (Sample.shop [] []));
      [discriminate|discriminate].
Defined.

(** C8 fails as stated: for lines of one unit at 0.1, 0.2 and 0.3 the stored
    [totalCost] is not the sum of quantity times unit cost, the sum of the
    values of the three costs: it is 0.6000000000000001, which is not the
    number nearest to 0.6 either. *)
Lemma createPurchaseOrder_total_rounded :
  let costs := [Number.cents 10; Number.cents 20; Number.cents 30] in
  let form := OrderForm.mk create_view "Acme" ""
                (map (fun c => PurchaseOrderItem.mk "A" "Apple" 1 c) costs) in
  let w' := (createPurchaseOrder form (Sample.shop [] [])).2 in
  exists newPO,
    head (purchaseOrders w') = Some newPO /\
    PurchaseOrder.totalCost newPO = S754_finite false 5404319552844596 (-53) /\
    PurchaseOrder.totalCost newPO <> Number.cents 60 /\
    Number.units (PurchaseOrder.totalCost newPO)
      <> foldr (fun c acc => u ← Number.units c; a ← acc; Some (u + a)) (Some 0) costs.
Proof.
  eexists. split; [reflexivity|]. split; [reflexivity|].
  split; vm_compute; discriminate.
Qed.
(** ** The dashboard's seven days *)

Lemma isoDate_setDate_back zone t i :
  steady_offset zone t i -> isoDate (setDate_back zone t i) = isoDate t - i.
Proof.
  unfold steady_offset, isoDate, setDate_back. intros ->.
  replace (t + Zone.at_utc zone t - i * msPerDay - Zone.at_utc zone t)
    with (t + (- i) * msPerDay) by lia.
  rewrite Z.div_add by (unfold msPerDay; lia). lia.
Qed.

Lemma last7Days_days zone today :
  (forall i, 0 <= i <= 6 -> isoDate (today i) = isoDate (today 0)) ->
  (forall i, 0 <= i <= 6 -> steady_offset zone (today i) i) ->
  let d := isoDate (today 0) in
  last7Days zone today = [d - 6; d - 5; d - 4; d - 3; d - 2; d - 1; d].
Proof.
  intros Hsame Hsteady. unfold last7Days. simpl.
  rewrite !isoDate_setDate_back by (apply Hsteady; lia).
  rewrite (Hsame 1), (Hsame 2), (Hsame 3), (Hsame 4), (Hsame 5), (Hsame 6) by lia.
  repeat f_equal; lia.
Qed.

(** C9, as the code has it: when the seven clock readings of one rendering
    fall on one UTC day [d] and the offset of the local zone does not change
    between the local time of a reading and the same local time up to six
    days earlier, the chart has one point for each of the UTC days [d - 6]
    to [d], in this order; the point of a day holds the amounts and the
    profits of the sales whose timestamp is on that UTC day, added in list
    order in the arithmetic of the source; so a sale is in the series
    exactly when its UTC day is one of [d - 6] to [d], both included. *)
Theorem chartData_utc_week (zone : Zone.t) (today : Z -> Timestamp)
    (sales : list SaleRecord.t) :
  (forall i, 0 <= i <= 6 -> isoDate (today i) = isoDate (today 0)) ->
  (forall i, 0 <= i <= 6 -> steady_offset zone (today i) i) ->
  let d := isoDate (today 0) in
  let chart := chartData zone today sales in
  map ChartPoint.fullDate chart = [d - 6; d - 5; d - 4; d - 3; d - 2; d - 1; d] /\
  Forall (fun pt =>
            ChartPoint.sales pt =
              reduce (fun acc s => acc + SaleRecord.totalAmount s)%num (Number.of_Z 0)
                     (sales_on (ChartPoint.fullDate pt) sales) /\
            ChartPoint.profit pt =
              reduce (fun acc s => acc + SaleRecord.totalProfit s)%num (Number.of_Z 0)
                     (sales_on (ChartPoint.fullDate pt) sales))
         chart /\
  (forall s, s ∈ sales ->
     (exists pt, pt ∈ chart /\ s ∈ sales_on (ChartPoint.fullDate pt) sales)
     <-> d - 6 <= isoDate (SaleRecord.timestamp s) <= d).
Proof.
  intros Hsame Hsteady. cbv zeta. unfold chartData.
  rewrite (last7Days_days zone today Hsame Hsteady).
  set (d := isoDate (today 0)).
  split; [reflexivity|]. split; [repeat constructor|].
  intros s Hs. split.
  - intros (pt & Hpt & Hin).
    apply list_elem_of_In, filter_In in Hin as [_ Hdate].
    unfold startsWith in Hdate. apply Z.eqb_eq in Hdate.
    simpl in Hpt.
    repeat (apply elem_of_cons in Hpt as [->|Hpt]; [simpl in Hdate; lia|]).
    by apply elem_of_nil in Hpt.
  - intros Hrange.
    assert (Hday : isoDate (SaleRecord.timestamp s) ∈
                   [d - 6; d - 5; d - 4; d - 3; d - 2; d - 1; d]).
    { assert (Hcases : isoDate (SaleRecord.timestamp s) = d - 6
                       \/ isoDate (SaleRecord.timestamp s) = d - 5
                       \/ isoDate (SaleRecord.timestamp s) = d - 4
                       \/ isoDate (SaleRecord.timestamp s) = d - 3
                       \/ isoDate (SaleRecord.timestamp s) = d - 2
                       \/ isoDate (SaleRecord.timestamp s) = d - 1
                       \/ isoDate (SaleRecord.timestamp s) = d) by lia.
      rewrite !elem_of_cons. tauto. }
    eexists. split.
    + exact (list_elem_of_fmap_2 _ _ _ Hday).
    + simpl. apply list_elem_of_In, filter_In. split; [by apply list_elem_of_In|].
      unfold startsWith. apply Z.eqb_refl.
Qed.

Lemma chartData_utc_week_witness :
  let zone := Sample.two_hours_east in
  let today := fun _ : Z => 100 * msPerDay + 5 in
  let d := isoDate (today 0) in
  let chart := chartData zone today Sample.week_sales in
  (d = 100 /\
   map ChartPoint.sales chart = map Number.of_Z [9; 0; 0; 0; 0; 0; 7]) /\
  (map ChartPoint.fullDate chart = [d - 6; d - 5; d - 4; d - 3; d - 2; d - 1; d] /\
   Forall (fun pt =>
             ChartPoint.sales pt =
               reduce (fun acc s => acc + SaleRecord.totalAmount s)%num (Number.of_Z 0)
                      (sales_on (ChartPoint.fullDate pt) Sample.week_sales) /\
             ChartPoint.profit pt =
               reduce (fun acc s => acc + SaleRecord.totalProfit s)%num (Number.of_Z 0)
                      (sales_on (ChartPoint.fullDate pt) Sample.week_sales))
          chart /\
   (forall s, s ∈ Sample.week_sales ->
      (exists pt, pt ∈ chart /\ s ∈ sales_on (ChartPoint.fullDate pt) Sample.week_sales)
      <-> d - 6 <= isoDate (SaleRecord.timestamp s) <= d)).
Proof.
  split; [split; reflexivity|].
  apply (chartData_utc_week Sample.two_hours_east (fun _ : Z => 100 * msPerDay + 5)
           Sample.week_sales).
  - intros i Hi. reflexivity.
  - intros i Hi. reflexivity.
Defined.

(** C9 fails as stated: two hours east of UTC, at one in the morning, a sale
    made at noon seven local days earlier is in the series, on its first
    day. *)
Lemma chartData_counts_local_day_minus_7 :
  let zone := Sample.two_hours_east in
  let today := fun _ : Z => Sample.late_evening in
  localDate zone (SaleRecord.timestamp Sample.old_sale) = localDate zone (today 0) - 7 /\
  map ChartPoint.sales (chartData zone today [Sample.old_sale])
    = map Number.of_Z [50; 0; 0; 0; 0; 0; 0].
Proof. split; reflexivity. Qed.

(** Where the local zone is UTC, the local day is the day of the series. *)
Lemma localDate_utc t : localDate (Zone.fixed 0) t = isoDate t.
Proof. unfold localDate, isoDate. simpl. f_equal. lia. Qed.

(** Why the offset must not change: at half past midnight UTC on day 100,
    three days after the clocks went back, the series has no point for day
    97 and starts on day 93. *)
Lemma chartData_week_across_offset_change :
  let today := fun _ : Z => 100 * msPerDay + 1800000 in
  last7Days Sample.clocks_go_back today = [93; 94; 95; 96; 98; 99; 100].
Proof. reflexivity. Qed.

(** ** Sample runs of the sale *)

(** Totals with a zero quantity and a zero price: nothing of A, three of B
    given away at cost 1. *)
Lemma completeSale_totals_zero :
  let items := [Sample.apples 0; SaleItem.mk "B" "Bread" 3 0 1] in
  let w' := (handleCompleteSale_optimistic items (Sample.shop [] [])).2 in
  (fun s => (SaleRecord.totalAmount s, SaleRecord.totalProfit s)) <$> head (sales w')
    = Some (Number.of_Z 0, Number.of_Z (-3)).
Proof. reflexivity. Qed.

Lemma completeSale_totals_witness :
  let items := [Sample.apples 2; Sample.apples 0; SaleItem.mk "B" "Bread" 3 0 1] in
  let w := Sample.shop [] [] in
  exists newSale,
    sales (handleCompleteSale_optimistic items w).2 = newSale :: sales w /\
    SaleRecord.totalAmount newSale = Number.of_Z 6 /\
    SaleRecord.totalProfit newSale = Number.of_Z (-1).
Proof.
  destruct (completeSale_totals
              [Sample.apples 2; Sample.apples 0; SaleItem.mk "B" "Bread" 3 0 1]
              (Sample.shop [] []))
    as (newSale & rest & Hsales & _ & _ & _ & _ & Hexact).
  exists newSale. split; [exact Hsales|].
  apply Hexact.
  - repeat constructor; vm_compute; congruence.
  - reflexivity.
  - reflexivity.
Defined.

(** C3 fails as stated: for three units at a price of 0.1 the recorded
    amount is not the sum of quantity times price, which is three times the
    value of the price: it is that sum rounded, the number nearest to it,
    which is not the number nearest to 0.3 either. *)
Lemma completeSale_totals_rounded :
  let price := Number.cents 10 in
  let items := [SaleItem.mk "A" "Apple" 3 price (Number.of_Z 0)] in
  let w' := (handleCompleteSale_optimistic items (Sample.shop [] [])).2 in
  exists newSale,
    head (sales w') = Some newSale /\
    SaleRecord.totalAmount newSale = S754_finite false 5404319552844596 (-54) /\
    SaleRecord.totalAmount newSale <> Number.cents 30 /\
    Number.units (SaleRecord.totalAmount newSale)
      <> (fun u => 3 * u) <$> Number.units price.
Proof.
  eexists. split; [reflexivity|]. split; [reflexivity|].
  split; vm_compute; discriminate.
Qed.

Lemma completeSale_remote_writes_witness :
  let items := [Sample.apples 2; Sample.ghost 1; Sample.loaves 1] in
  let w := Sample.shop [] [] in
  expected_updates (inventory w) items = [("A"%string, 8); ("B"%string, 3)] /\
  exists newSale updates,
    calls (handleCompleteSale items w).2 = calls w ++ InsertSale newSale :: updates /\
    SaleRecord.items newSale = items /\
    Forall2 (fun c e => exists ts, c = UpdateInventory e.1 e.2 ts)
            updates (expected_updates (inventory w) items) /\
    NoDup (map fst (expected_updates (inventory w) items)) /\
    alerts (handleCompleteSale items w).2 = alerts w.
Proof.
  split; [reflexivity|].
  apply (completeSale_remote_writes
           [Sample.apples 2; Sample.ghost 1; Sample.loaves 1]
           (Sample.shop [] []));
    [apply (bool_decide_unpack _); vm_compute; reflexivity|constructor].
Defined.

(** C4 fails as stated: a sale of one item without a match in the inventory
    is inserted and no quantity update follows, the store accepting
    everything. *)
Lemma completeSale_no_update_for_unmatched_item :
  let items := [Sample.ghost 1] in
  let w := Sample.shop [] [] in
  length (omap update_of (calls (handleCompleteSale items w).2)) <> length items.
Proof. vm_compute. discriminate. Qed.

(** C1, at a sale that names one item twice (two and three of A, ten in
    stock), the store accepting every call: no notice, five left locally,
    seven in the store. *)
Theorem completeSale_repeated_item_diverges :
  let items := [Sample.apples 2; Sample.apples 3] in
  let w := Sample.shop [] [] in
  let w' := (handleCompleteSale items w).2 in
  inventory w = Store.inventory (store w) /\
  alerts w' = [] /\
  sold items "A" = 5 /\
  InventoryItem.quantity <$> find (has_id "A"%string) (inventory w') = Some 5 /\
  InventoryItem.quantity <$> find (has_id "A"%string) (Store.inventory (store w')) = Some 7.
Proof. repeat split. Qed.

(** C2, at a sale of two items whose first quantity update the store fails:
    the second update is issued all the same, no notice is shown, nothing is
    read back, and the local quantity of A stays at the optimistic eight
    against ten in the store. *)
Theorem completeSale_failed_update_unnoticed :
  let items := [Sample.apples 2; Sample.loaves 1] in
  let w := Sample.shop [] [Ok; Fails "timeout"; Ok] in
  let w' := (handleCompleteSale items w).2 in
  omap update_of (calls w') = [("A"%string, 8); ("B"%string, 3)] /\
  List.filter (fun c => negb (is_write c)) (calls w') = [] /\
  alerts w' = [] /\
  InventoryItem.quantity <$> find (has_id "A"%string) (inventory w') = Some 8 /\
  InventoryItem.quantity <$> find (has_id "A"%string) (read_inventory (store w')) = Some 10.
Proof. repeat split. Qed.

(** [fetchData] for a signed-in user when the store answers the four reads:
    the four local collections become what the store returns. *)
Lemma fetchData_reads w rest :
  session w = true ->
  outcomes w = Ok :: Ok :: Ok :: Ok :: rest ->
  exists w',
    fetchData w = (inl tt, w') /\
    calls w' = calls w ++ [SelectInventory; SelectSales; SelectExpenses; SelectPurchaseOrders] /\
    alerts w' = alerts w /\
    store w' = store w /\
    inventory w' = read_inventory (store w) /\
    sales w' = read_sales (store w) /\
    expenses w' = read_expenses (store w) /\
    purchaseOrders w' = read_purchase_orders (store w).
Proof.
  intros Hsession Hout.
  assert (Hrun : exists w',
    fetchData w = (inl tt, w') /\
    calls w' = (((calls w ++ [SelectInventory]) ++ [SelectSales]) ++ [SelectExpenses])
               ++ [SelectPurchaseOrders] /\
    alerts w' = alerts w /\
    store w' = store w /\
    inventory w' = read_inventory (store w) /\
    sales w' = read_sales (store w) /\
    expenses w' = read_expenses (store w) /\
    purchaseOrders w' = read_purchase_orders (store w)).
  { destruct w as [i s e p se lo st oc cs al ck tk uu dr]. simpl in *. subst se oc.
    eexists. split; [vm_compute; reflexivity|].
    repeat split; vm_compute; reflexivity. }
  destruct Hrun as (w' & Hrun & Hcalls & Hrest). exists w'.
  split; [exact Hrun|]. split; [|exact Hrest].
  rewrite Hcalls, <- !app_assoc. reflexivity.
Qed.

(** What the handler does by design when the insert of the sale fails, by an
    error result or by a rejection, the user being signed in and the store
    answering the four reads: it issues no further write, shows the notice,
    and replaces the four local collections by what the store returns. *)
Lemma completeSale_insert_failure_refetches items w o rest :
  outcomes w = o :: Ok :: Ok :: Ok :: Ok :: rest ->
  o <> Ok ->
  session w = true ->
  let w' := (handleCompleteSale items w).2 in
  calls w' = calls w ++ [InsertSale (newSale_in w items); SelectInventory; SelectSales;
                         SelectExpenses; SelectPurchaseOrders] /\
  alerts w' = alerts w ++ ["Error saving sale to database. Please check connection."%string] /\
  store w' = store w /\
  inventory w' = read_inventory (store w) /\
  sales w' = read_sales (store w) /\
  expenses w' = read_expenses (store w) /\
  purchaseOrders w' = read_purchase_orders (store w).
Proof.
  intros Hout Ho Hsession. cbv zeta.
  destruct (handleCompleteSale_run items w) as (inv' & n & _ & Hrun & _).
  rewrite Hrun. clear Hrun.
  set (failed := push_alert "Error saving sale to database. Please check connection."
                   (issued (InsertSale (newSale_in w items)) (store w)
                      (optimistic_world w items inv' n))).
  assert (Hpersist : handleCompleteSale_persist (inventory w) items (newSale_in w items)
                       (optimistic_world w items inv' n) = fetchData failed).
  { unfold handleCompleteSale_persist, try_catch, mbind, M_bind, await, throw_if, throw,
           alert, modify.
    replace (next_outcome (optimistic_world w items inv' n)) with o
      by (unfold next_outcome; simpl; by rewrite Hout).
    destruct o; [done|reflexivity|reflexivity]. }
  rewrite Hpersist.
  destruct (fetchData_reads failed rest) as (w' & Hfetch & Hc & Ha & Hs & Hi & Hsa & He & Hp).
  { exact Hsession. }
  { subst failed. simpl. by rewrite Hout. }
  rewrite Hfetch. simpl. rewrite Hc, Ha, Hs, Hi, Hsa, He, Hp.
  subst failed. simpl. rewrite <- app_assoc. repeat split.
Qed.

(** ** A sale item without a match *)

Lemma find_ids x (inv inv' : list InventoryItem.t) :
  map InventoryItem.id inv' = map InventoryItem.id inv ->
  find (has_id x) inv = None ->
  find (has_id x) inv' = None.
Proof.
  revert inv'. induction inv as [|a inv IH]; intros [|b inv']; simpl; try done.
  intros [= Hid Hrest]. rewrite Hid.
  destruct (bool_decide (InventoryItem.id a = x)); [done|]. by apply IH.
Qed.

Lemma Adjusted_ids ds inv inv' :
  Adjusted ds inv inv' -> map InventoryItem.id inv' = map InventoryItem.id inv.
Proof.
  induction 1 as [|id delta ts ds inv inv' _ IH]; [reflexivity|].
  by rewrite IH, adjust_ids.
Qed.

(** The optimistic loop passes over an item without a match. *)
Lemma sell_locally_skips pre it post inv w :
  find (has_id (SaleItem.itemId it)) inv = None ->
  for_of_with (pre ++ it :: post) sell_locally inv w =
  for_of_with (pre ++ post) sell_locally inv w.
Proof.
  revert inv w. induction pre as [|p pre IH]; intros inv w Hnone; simpl.
  - unfold mbind, M_bind. by rewrite sell_locally_run, Hnone.
  - unfold mbind, M_bind. rewrite sell_locally_run.
    destruct (find (has_id (SaleItem.itemId p)) inv); [|by apply IH].
    apply IH.
    apply (find_ids _ inv); [apply adjust_ids|exact Hnone].
Qed.

(** So does the loop of the remote phase. *)
Lemma sell_remotely_skips inv0 pre it post w :
  find (has_id (SaleItem.itemId it)) inv0 = None ->
  for_of (pre ++ it :: post) (sell_remotely inv0) w =
  for_of (pre ++ post) (sell_remotely inv0) w.
Proof.
  intros Hnone. revert w. induction pre as [|p pre IH]; intros w; simpl.
  - unfold mbind, M_bind. by rewrite sell_remotely_run, Hnone.
  - unfold mbind, M_bind. destruct (sell_remotely inv0 p w) as [[[]|e] w1]; [apply IH|done].
Qed.

Lemma same_but_sales_refl w : same_but_sales w w.
Proof. by repeat split. Qed.

Ltac same_but_sales_tac :=
  unfold same_but_sales in *; simpl in *;
  repeat match goal with H : _ /\ _ |- _ => destruct H end;
  repeat split; rewrite ?map_app; simpl; congruence.

Lemma await_update_same id q ts w1 w2 :
  same_but_sales w1 w2 ->
  (await (UpdateInventory id q ts) (fun _ => tt) w1).1 =
  (await (UpdateInventory id q ts) (fun _ => tt) w2).1 /\
  same_but_sales (await (UpdateInventory id q ts) (fun _ => tt) w1).2
                 (await (UpdateInventory id q ts) (fun _ => tt) w2).2.
Proof.
  intros Hsim. unfold await, next_outcome.
  assert (Hout : outcomes w1 = outcomes w2) by (unfold same_but_sales in Hsim; tauto).
  rewrite Hout. destruct (outcomes w2) as [|[] ?]; simpl; (split; [done|]);
    same_but_sales_tac.
Qed.

Lemma await_insert_sale_same s1 s2 w1 w2 :
  same_but_sales w1 w2 ->
  (await (InsertSale s1) (fun _ => tt) w1).1 =
  (await (InsertSale s2) (fun _ => tt) w2).1 /\
  same_but_sales (await (InsertSale s1) (fun _ => tt) w1).2
                 (await (InsertSale s2) (fun _ => tt) w2).2.
Proof.
  intros Hsim. unfold await, next_outcome.
  assert (Hout : outcomes w1 = outcomes w2) by (unfold same_but_sales in Hsim; tauto).
  rewrite Hout. destruct (outcomes w2) as [|[] ?]; simpl; (split; [done|]);
    same_but_sales_tac.
Qed.

Lemma sell_remotely_same inv0 it w1 w2 :
  same_but_sales w1 w2 ->
  (sell_remotely inv0 it w1).1 = (sell_remotely inv0 it w2).1 /\
  same_but_sales (sell_remotely inv0 it w1).2 (sell_remotely inv0 it w2).2.
Proof.
  intros Hsim. rewrite !sell_remotely_run.
  destruct (find _ inv0) as [cur|]; [|done].
  assert (Hclock : clock w1 (ticks w1) = clock w2 (ticks w2))
    by (unfold same_but_sales in Hsim; destruct Hsim as (_&_&_&_&_&_&_&_&_&_&_&->&->&_); done).
  rewrite Hclock.
  assert (Hadv : same_but_sales (advance 1 w1) (advance 1 w2)) by same_but_sales_tac.
  destruct (await_update_same (SaleItem.itemId it)
              (InventoryItem.quantity cur - SaleItem.quantity it)
              (clock w2 (ticks w2)) _ _ Hadv) as [Hres Hw].
  destruct (await _ _ (advance 1 w1)) as [[r1|e1] w1'],
           (await _ _ (advance 1 w2)) as [[r2|e2] w2']; simpl in *; try done.
  by injection Hres as ->.
Qed.

Lemma sell_remotely_loop_same inv0 items w1 w2 :
  same_but_sales w1 w2 ->
  (for_of items (sell_remotely inv0) w1).1 = (for_of items (sell_remotely inv0) w2).1 /\
  same_but_sales (for_of items (sell_remotely inv0) w1).2
                 (for_of items (sell_remotely inv0) w2).2.
Proof.
  revert w1 w2. induction items as [|it items IH]; intros w1 w2 Hsim; simpl; [done|].
  unfold mbind, M_bind.
  destruct (sell_remotely_same inv0 it w1 w2 Hsim) as [Hres Hw].
  destruct (sell_remotely inv0 it w1) as [[[]|e1] w1'],
           (sell_remotely inv0 it w2) as [[[]|e2] w2']; simpl in *; try done.
  by apply IH.
Qed.

Lemma fetchData_same w1 w2 :
  same_but_sales w1 w2 ->
  same_but_sales (fetchData w1).2 (fetchData w2).2.
Proof.
  unfold fetchData. run.
  destruct w1 as [i1 s1 e1 p1 se1 lo1 [si1 ss1 sx1 sp1] oc1 cs1 al1 ck1 tk1 uu1 dr1].
  destruct w2 as [i2 s2 e2 p2 se2 lo2 [si2 ss2 sx2 sp2] oc2 cs2 al2 ck2 tk2 uu2 dr2].
  unfold same_but_sales. simpl.
  intros (-> & -> & -> & -> & -> & -> & -> & -> & -> & Hcalls & -> & -> & -> & -> & ->).
  destruct se2; simpl; [|by repeat split].
  unfold next_outcome; simpl.
  destruct oc2 as [|[] [|[] [|[] [|[] ?]]]]; simpl;
    repeat split; rewrite ?map_app; simpl; congruence.
Qed.

Lemma handleCompleteSale_persist_same inv0 items s1 s2 w1 w2 :
  same_but_sales w1 w2 ->
  same_but_sales (handleCompleteSale_persist inv0 items s1 w1).2
                 (handleCompleteSale_persist inv0 items s2 w2).2.
Proof.
  intros Hsim. unfold handleCompleteSale_persist, try_catch, mbind, M_bind.
  destruct (await_insert_sale_same s1 s2 w1 w2 Hsim) as [Hres Hw].
  assert (Hrecover : forall v1 v2, same_but_sales v1 v2 ->
    same_but_sales
      ((alert "Error saving sale to database. Please check connection.";; fetchData) v1).2
      ((alert "Error saving sale to database. Please check connection.";; fetchData) v2).2).
  { intros v1 v2 Hv. unfold mbind, M_bind, alert, modify.
    apply fetchData_same. same_but_sales_tac. }
  unfold mbind, M_bind in Hrecover.
  destruct (await (InsertSale s1) _ w1) as [[[d1 [x1|]]|x1] w1'],
           (await (InsertSale s2) _ w2) as [[[d2 [x2|]]|x2] w2'];
    simpl in *; try done; try (by apply Hrecover).
  destruct (sell_remotely_loop_same inv0 items w1' w2' Hw) as [Hres' Hw'].
  destruct (for_of items (sell_remotely inv0) w1') as [[[]|y1] v1],
           (for_of items (sell_remotely inv0) w2') as [[[]|y2] v2];
    simpl in *; try done. by apply Hrecover.
Qed.

Lemma handleCompleteSale_persist_skips inv0 pre it post newSale w :
  find (has_id (SaleItem.itemId it)) inv0 = None ->
  handleCompleteSale_persist inv0 (pre ++ it :: post) newSale w =
  handleCompleteSale_persist inv0 (pre ++ post) newSale w.
Proof.
  intros Hnone. unfold handleCompleteSale_persist, try_catch, mbind, M_bind.
  destruct (await (InsertSale newSale) _ w) as [[[d [x|]]|x] w1]; simpl; try done.
  by rewrite sell_remotely_skips.
Qed.

Lemma update_inventory_row_ids id q ts rows :
  map InventoryItem.id (map (update_inventory_row id q ts) rows) = map InventoryItem.id rows.
Proof.
  rewrite map_map. apply map_ext. intros row.
  unfold update_inventory_row. by case_bool_decide.
Qed.

(** The loop of the remote phase, whatever the store does: the state
    variables and the notices stay, and the store keeps the identifiers of
    its inventory rows. *)
Lemma sell_remotely_loop_frame inv0 items w :
  let w' := (for_of items (sell_remotely inv0) w).2 in
  inventory w' = inventory w /\
  alerts w' = alerts w /\
  map InventoryItem.id (Store.inventory (store w')) =
    map InventoryItem.id (Store.inventory (store w)).
Proof.
  cbv zeta. revert w. induction items as [|it items IH]; intros w; simpl; [done|].
  unfold mbind, M_bind. rewrite sell_remotely_run.
  destruct (find _ inv0) as [cur|]; [|apply IH].
  unfold await. replace (next_outcome (advance 1 w)) with (next_outcome w) by done.
  destruct (next_outcome w); simpl.
  - match goal with |- context [for_of items _ ?w1] =>
      destruct (IH w1) as (Hi & Ha & Hs) end.
    rewrite Hi, Ha, Hs. simpl. by rewrite update_inventory_row_ids.
  - match goal with |- context [for_of items _ ?w1] =>
      destruct (IH w1) as (Hi & Ha & Hs) end.
    by rewrite Hi, Ha, Hs.
  - done.
Qed.

Lemma fetchData_inventory w :
  inventory (fetchData w).2 = inventory w \/
  inventory (fetchData w).2 = read_inventory (store (fetchData w).2).
Proof.
  unfold fetchData. run.
  destruct w as [i s e p se lo st oc cs al ck tk uu dr]; simpl.
  destruct se; simpl; [|by left].
  unfold next_outcome; simpl.
  destruct oc as [|[] [|[] [|[] [|[] ?]]]]; simpl; (by left) || (by right).
Qed.

Lemma handleCompleteSale_persist_frame inv0 items newSale w :
  let w' := (handleCompleteSale_persist inv0 items newSale w).2 in
  map InventoryItem.id (Store.inventory (store w')) =
    map InventoryItem.id (Store.inventory (store w)) /\
  (inventory w' = inventory w \/ inventory w' = read_inventory (store w')).
Proof.
  cbv zeta. unfold handleCompleteSale_persist, try_catch, mbind, M_bind, alert, modify.
  assert (Hrecover : forall v,
    map InventoryItem.id (Store.inventory (store v)) =
      map InventoryItem.id (Store.inventory (store w)) ->
    inventory v = inventory w ->
    let v' := (fetchData (push_alert
                 "Error saving sale to database. Please check connection." v)).2 in
    map InventoryItem.id (Store.inventory (store v')) =
      map InventoryItem.id (Store.inventory (store w)) /\
    (inventory v' = inventory w \/ inventory v' = read_inventory (store v'))).
  { intros v Hs Hi. cbv zeta.
    match goal with |- context [fetchData ?v1] =>
      destruct (fetchData_frame v1) as (_ & Hst & _);
      destruct (fetchData_inventory v1) as [Hinv|Hinv] end.
    - rewrite Hst, Hinv. simpl. split; [exact Hs|by left].
    - rewrite Hinv, Hst. simpl. split; [exact Hs|by right]. }
  unfold await. destruct (next_outcome w); simpl.
  - match goal with |- context [for_of items _ ?w1] =>
      destruct (sell_remotely_loop_frame inv0 items w1) as (Hi & _ & Hs);
      destruct (for_of items (sell_remotely inv0) w1) as [[[]|e] w2] end; simpl in *.
    + split; [exact Hs|by left].
    + by apply Hrecover.
  - by apply Hrecover.
  - by apply Hrecover.
Qed.

Lemma handleCompleteSale_after_optimistic items w inv0 newSale w1 :
  handleCompleteSale_optimistic items w = (inl (inv0, newSale), w1) ->
  handleCompleteSale items w = handleCompleteSale_persist inv0 items newSale w1.
Proof. intros H. unfold handleCompleteSale, mbind, M_bind. by rewrite H. Qed.

(** The optimistic phase of a sale and of the sale without an unmatched
    item leave the same adjusted inventory after the same clock readings. *)
Lemma handleCompleteSale_optimistic_skips pre it post w :
  find (has_id (SaleItem.itemId it)) (inventory w) = None ->
  exists inv' n,
    handleCompleteSale_optimistic (pre ++ it :: post) w =
      (inl (inventory w, newSale_in w (pre ++ it :: post)),
       optimistic_world w (pre ++ it :: post) inv' n) /\
    handleCompleteSale_optimistic (pre ++ post) w =
      (inl (inventory w, newSale_in w (pre ++ post)),
       optimistic_world w (pre ++ post) inv' n) /\
    Adjusted (sale_deltas (pre ++ post)) (inventory w) inv'.
Proof.
  intros Hnone. unfold handleCompleteSale_optimistic. run.
  rewrite sell_locally_skips by exact Hnone.
  match goal with |- context [for_of_with (pre ++ post) sell_locally ?i ?w1] =>
    destruct (sell_locally_loop (pre ++ post) i w1) as (inv' & n & Hrun & Hadj) end.
  exists inv', n. rewrite Hrun. simpl. done.
Qed.

Lemma expected_updates_skips inv0 pre it post :
  find (has_id (SaleItem.itemId it)) inv0 = None ->
  expected_updates inv0 (pre ++ it :: post) = expected_updates inv0 (pre ++ post).
Proof.
  intros Hnone. unfold expected_updates. rewrite !omap_app. simpl. by rewrite Hnone.
Qed.

(** C7: a sale item whose identifier has no match in the inventory the
    handler starts from.  The handler completes without raising; the
    optimistic update keeps the identifiers of the local inventory, the
    store keeps those of its inventory rows, and the local inventory the
    handler leaves is the optimistic one or what the store returns; the
    handler leaves the world it would leave for the sale without that item,
    the sale records apart: the same inventory, locally and in the store,
    the same notices, the same calls.  The rest of the sale is processed:
    the optimistic update takes from the item found by each identifier the
    quantity the other sale items sell of it, and, the store accepting the
    insert and rejecting no call, the handler issues the insert of the
    record with all the items and then the quantity updates of the other
    sale items, with no notice. *)
Theorem completeSale_unmatched_item_is_noop
    (pre : list SaleItem.t) (it : SaleItem.t) (post : list SaleItem.t) (w : World) :
  find (has_id (SaleItem.itemId it)) (inventory w) = None ->
  let items := pre ++ it :: post in
  let optimistic := (handleCompleteSale_optimistic items w).2 in
  let w' := (handleCompleteSale items w).2 in
  (handleCompleteSale items w).1 = inl tt /\
  map InventoryItem.id (inventory optimistic) = map InventoryItem.id (inventory w) /\
  map InventoryItem.id (Store.inventory (store w')) =
    map InventoryItem.id (Store.inventory (store w)) /\
  (inventory w' = inventory optimistic \/ inventory w' = read_inventory (store w')) /\
  same_but_sales w' (handleCompleteSale (pre ++ post) w).2 /\
  (forall (k : nat) a, inventory w !! k = Some a ->
     exists b, inventory optimistic !! k = Some b /\ same_static a b /\
       InventoryItem.quantity b =
         InventoryItem.quantity a -
         (if first_of_its_id (inventory w) k a
          then sold (pre ++ post) (InventoryItem.id a) else 0)) /\
  (next_outcome w = Ok -> Forall (fun o => rejects o = false) (outcomes w) ->
   exists newSale updates,
     calls w' = calls w ++ InsertSale newSale :: updates /\
     SaleRecord.items newSale = items /\
     Forall2 (fun c e => exists ts, c = UpdateInventory e.1 e.2 ts)
             updates (expected_updates (inventory w) (pre ++ post)) /\
     alerts w' = alerts w).
Proof.
  intros Hnone. cbv zeta.
  split; [|split; [|split; [|split; [|split; [|split]]]]].
  6: { destruct (handleCompleteSale_optimistic_skips pre it post w Hnone)
         as (inv' & n & Hopt1 & _ & Hadj).
       rewrite Hopt1. simpl. destruct (Adjusted_lookup _ _ _ Hadj) as [_ Hlook].
       intros k a Hk. destruct (Hlook k a Hk) as (b & Hb & Hsame & Hq & _).
       exists b. split; [exact Hb|]. split; [exact Hsame|].
       rewrite Hq, delta_for_sale. destruct (first_of_its_id (inventory w) k a); lia. }
  6: { intros Hok Hno.
       destruct (handleCompleteSale_issues (pre ++ it :: post) w Hok Hno)
         as (newSale & updates & Hcalls & Hitems & Hups & Hal).
       exists newSale, updates. rewrite expected_updates_skips in Hups by exact Hnone.
       done. }
  all: destruct (handleCompleteSale_optimistic_skips pre it post w Hnone)
         as (inv' & n & Hopt1 & Hopt2 & Hadj);
       rewrite ?(handleCompleteSale_after_optimistic _ _ _ _ _ Hopt1);
       rewrite ?(handleCompleteSale_after_optimistic _ _ _ _ _ Hopt2);
       rewrite ?Hopt1; simpl;
       destruct (handleCompleteSale_persist_frame (inventory w) (pre ++ it :: post)
                   (newSale_in w (pre ++ it :: post))
                   (optimistic_world w (pre ++ it :: post) inv' n)) as [Hstore Hlocal].
  - apply handleCompleteSale_persist_completes.
  - exact (Adjusted_ids _ _ _ Hadj).
  - exact Hstore.
  - exact Hlocal.
  - rewrite handleCompleteSale_persist_skips by exact Hnone.
    apply handleCompleteSale_persist_same. by repeat split.
Qed.
Lemma completeSale_unmatched_item_is_noop_witness :
  let pre := [Sample.apples 2] in
  let it := Sample.ghost 1 in
  let post := [Sample.loaves 1] in
  let w := Sample.shop [] [] in
  let items := pre ++ it :: post in
  let optimistic := (handleCompleteSale_optimistic items w).2 in
  let w' := (handleCompleteSale items w).2 in
  (find (has_id (SaleItem.itemId it)) (inventory w) = None /\
   InventoryItem.quantity <$> inventory optimistic = [8; 3] /\
   omap update_of (calls w') = [("A"%string, 8); ("B"%string, 3)] /\
   InventoryItem.quantity <$> Store.inventory (store w') = [8; 3]) /\
  (handleCompleteSale items w).1 = inl tt /\
  map InventoryItem.id (inventory optimistic) = map InventoryItem.id (inventory w) /\
  map InventoryItem.id (Store.inventory (store w')) =
    map InventoryItem.id (Store.inventory (store w)) /\
  (inventory w' = inventory optimistic \/ inventory w' = read_inventory (store w')) /\
  same_but_sales w' (handleCompleteSale (pre ++ post) w).2 /\
  (forall (k : nat) a, inventory w !! k = Some a ->
     exists b, inventory optimistic !! k = Some b /\ same_static a b /\
       InventoryItem.quantity b =
         InventoryItem.quantity a -
         (if first_of_its_id (inventory w) k a
          then sold (pre ++ post) (InventoryItem.id a) else 0)) /\
  (next_outcome w = Ok -> Forall (fun o => rejects o = false) (outcomes w) ->
   exists newSale updates,
     calls w' = calls w ++ InsertSale newSale :: updates /\
     SaleRecord.items newSale = items /\
     Forall2 (fun c e => exists ts, c = UpdateInventory e.1 e.2 ts)
             updates (expected_updates (inventory w) (pre ++ post)) /\
     alerts w' = alerts w).
Proof.
  split; [repeat split|].
  apply (completeSale_unmatched_item_is_noop [Sample.apples 2] (Sample.ghost 1)
           [Sample.loaves 1] (Sample.shop [] [])).
  reflexivity.
Defined.

(** ** Where the store and the local state agree after a sale *)

Lemma await_ok {A : Type} (c : Call) (data_of : Store.t -> A) w :
  next_outcome w = Ok ->
  await c data_of w =
    (inl (Some (data_of (apply_call c (store w))), None),
     issued c (apply_call c (store w)) w).
Proof. intros H. unfold await. by rewrite H. Qed.

Lemma all_ok_tail w :
  Forall (fun o => o = Ok) (outcomes w) ->
  next_outcome w = Ok /\ Forall (fun o => o = Ok) (tail (outcomes w)).
Proof.
  unfold next_outcome. destruct (outcomes w); [done|]. by inversion 1.
Qed.

(** The loop of the remote phase when the store accepts every call. *)
Lemma sell_remotely_loop_written inv0 items w :
  Forall (fun o => o = Ok) (outcomes w) ->
  exists w',
    for_of items (sell_remotely inv0) w = (inl tt, w') /\
    Written (expected_updates inv0 items)
            (Store.inventory (store w)) (Store.inventory (store w')) /\
    Store.sales (store w') = Store.sales (store w) /\
    inventory w' = inventory w /\
    sales w' = sales w /\
    alerts w' = alerts w.
Proof.
  revert w. induction items as [|it items IH]; intros w Hok; simpl.
  - exists w. repeat split. constructor.
  - unfold mbind, M_bind. rewrite sell_remotely_run.
    destruct (find (has_id (SaleItem.itemId it)) inv0) as [cur|] eqn:Hfind.
    + destruct (all_ok_tail w Hok) as [Hnext Htail].
      rewrite await_ok by exact Hnext.
      match goal with |- context [for_of items _ ?w1] =>
        destruct (IH w1 Htail) as (w' & Hrun & Hw & Hs & Hi & Hsa & Ha) end.
      exists w'. rewrite Hrun. simpl in *.
      split; [reflexivity|]. split; [econstructor; exact Hw|]. done.
    + destruct (IH w Hok) as (w' & Hrun & Hrest). exists w'. by rewrite Hrun.
Qed.

Lemma update_inventory_row_id id q ts row :
  InventoryItem.id (update_inventory_row id q ts row) = InventoryItem.id row.
Proof. unfold update_inventory_row. by case_bool_decide. Qed.

(** Rows whose identifier no update bears are as before. *)
Lemma Written_other us rows rows' id row' :
  Written us rows rows' ->
  id ∉ map fst us ->
  row' ∈ rows' -> InventoryItem.id row' = id -> row' ∈ rows.
Proof.
  induction 1 as [|id1 q1 ts us rows rows' _ IH]; intros Hnot Hin Hid; [done|].
  simpl in Hnot. apply not_elem_of_cons in Hnot as [Hne Hnot].
  specialize (IH Hnot Hin Hid).
  apply list_elem_of_fmap in IH as (row & -> & Hrow).
  rewrite update_inventory_row_id in Hid.
  unfold update_inventory_row. rewrite bool_decide_eq_false_2; [done|congruence].
Qed.

(** Updates with pairwise distinct identifiers leave, in every row with one
    of these identifiers, the quantity written for it. *)
Lemma Written_quantity us rows rows' :
  Written us rows rows' ->
  NoDup (map fst us) ->
  forall id q row', (id, q) ∈ us -> row' ∈ rows' ->
    InventoryItem.id row' = id -> InventoryItem.quantity row' = q.
Proof.
  induction 1 as [|id1 q1 ts us rows rows' Hw IH]; intros Hnodup id q row' Hin Hrow Hid.
  - inversion Hin.
  - simpl in Hnodup. apply NoDup_cons in Hnodup as [Hfresh Hnodup].
    apply elem_of_cons in Hin as [[= -> ->]|Hin].
    + pose proof (Written_other _ _ _ _ _ Hw Hfresh Hrow Hid) as Hbefore.
      apply list_elem_of_fmap in Hbefore as (row & -> & _).
      rewrite update_inventory_row_id in Hid.
      unfold update_inventory_row. by rewrite bool_decide_eq_true_2.
    + by eapply IH.
Qed.

Lemma expected_updates_ids inv0 items :
  sublist (map fst (expected_updates inv0 items)) (map SaleItem.itemId items).
Proof.
  induction items as [|it items IH]; simpl; [constructor|].
  destruct (find _ inv0); simpl; by constructor.
Qed.

Lemma expected_updates_elem inv0 items it cur :
  it ∈ items ->
  find (has_id (SaleItem.itemId it)) inv0 = Some cur ->
  (SaleItem.itemId it, InventoryItem.quantity cur - SaleItem.quantity it)
    ∈ expected_updates inv0 items.
Proof.
  intros Hin Hfind. unfold expected_updates. apply list_elem_of_omap.
  exists it. split; [exact Hin|]. by rewrite Hfind.
Qed.

Lemma sold_distinct items it :
  NoDup (map SaleItem.itemId items) ->
  it ∈ items ->
  sold items (SaleItem.itemId it) = SaleItem.quantity it.
Proof.
  induction items as [|x items IH]; intros Hnodup Hin; [inversion Hin|].
  simpl in *. apply NoDup_cons in Hnodup as [Hfresh Hnodup].
  assert (Hzero : forall y, y ∉ map SaleItem.itemId items -> sold items y = 0).
  { clear. intros y. induction items as [|z items IH]; simpl; [done|].
    intros Hy. apply not_elem_of_cons in Hy as [Hne Hy].
    rewrite bool_decide_eq_false_2 by done. rewrite IH by done. lia. }
  apply elem_of_cons in Hin as [->|Hin].
  - rewrite bool_decide_eq_true_2 by done. rewrite Hzero by done. lia.
  - rewrite bool_decide_eq_false_2.
    + rewrite IH by done. lia.
    + intros Heq. apply Hfresh. rewrite Heq. by apply list_elem_of_fmap_2.
Qed.

(** What [find] returns in an adjusted copy. *)
Lemma Adjusted_find ds inv inv' id cur :
  Adjusted ds inv inv' ->
  find (has_id id) inv = Some cur ->
  exists b, find (has_id id) inv' = Some b /\
    InventoryItem.quantity b = InventoryItem.quantity cur + delta_for ds id.
Proof.
  intros Hadj Hfind.
  pose proof (findIndex_found _ _ _ Hfind) as Hpos.
  pose proof (at_index_findIndex (has_id id) inv) as Hat.
  pose proof (at_index_findIndex (has_id id) inv') as Hat'.
  assert (Hsame : findIndex (has_id id) inv' = findIndex (has_id id) inv).
  { apply findIndex_ext.
    transitivity (map (fun i => bool_decide (i = id)) (map InventoryItem.id inv')).
    - by rewrite map_map.
    - rewrite (Adjusted_ids _ _ _ Hadj). by rewrite map_map. }
  rewrite Hsame in Hat'. rewrite Hfind in Hat. unfold at_index in *.
  destruct (Z.ltb_spec (findIndex (has_id id) inv) 0); [lia|].
  destruct (Adjusted_lookup _ _ _ Hadj) as [_ Hlook].
  destruct (Hlook _ _ Hat) as (b & Hb & _ & Hq & _).
  exists b. split; [by rewrite <- Hat'|].
  rewrite Hq.
  apply find_some in Hfind as [_ Hid]. apply bool_decide_eq_true in Hid.
  assert (Hfirst : first_of_its_id inv (Z.to_nat (findIndex (has_id id) inv)) cur = true).
  { unfold first_of_its_id. rewrite Hid. apply Z.eqb_eq. lia. }
  by rewrite Hfirst, Hid.
Qed.

(** Where the code does keep the store and the local state in agreement:
    for a sale whose items bear pairwise distinct identifiers, the store
    accepting every call, no notice is shown, the new record is in front of the local sales and in the store's,
    and for every sale item with a match the item found locally and every
    row of the store with its identifier have the quantity of the match less
    the quantity sold. *)
Theorem completeSale_agreement_distinct (items : list SaleItem.t) (w : World) :
  Forall (fun o => o = Ok) (outcomes w) ->
  NoDup (map SaleItem.itemId items) ->
  let w' := (handleCompleteSale items w).2 in
  alerts w' = alerts w /\
  sales w' = newSale_in w items :: sales w /\
  Store.sales (store w') = Store.sales (store w) ++ [newSale_in w items] /\
  forall it cur, it ∈ items ->
    find (has_id (SaleItem.itemId it)) (inventory w) = Some cur ->
    InventoryItem.quantity <$> find (has_id (SaleItem.itemId it)) (inventory w')
      = Some (InventoryItem.quantity cur - SaleItem.quantity it) /\
    forall row, row ∈ Store.inventory (store w') ->
      InventoryItem.id row = SaleItem.itemId it ->
      InventoryItem.quantity row = InventoryItem.quantity cur - SaleItem.quantity it.
Proof.
  intros Hok Hnodup. cbv zeta.
  destruct (handleCompleteSale_run items w) as (inv' & n & _ & Hrun & Hadj).
  rewrite Hrun. clear Hrun.
  unfold handleCompleteSale_persist, try_catch, mbind, M_bind.
  destruct (all_ok_tail w Hok) as [Hnext Htail].
  rewrite await_ok by exact Hnext. simpl.
  match goal with |- context [for_of items _ ?w1] =>
    destruct (sell_remotely_loop_written (inventory w) items w1 Htail)
      as (w' & Hloop & Hw & Hs & Hi & Hsa & Ha) end.
  rewrite Hloop. simpl in *. rewrite Ha, Hsa, Hs, Hi.
  split; [done|]. split; [done|]. split; [done|].
  intros it cur Hin Hfind. split.
  - destruct (Adjusted_find _ _ _ _ _ Hadj Hfind) as (b & Hb & Hq).
    rewrite Hb. simpl. rewrite Hq, delta_for_sale, sold_distinct by done.
    f_equal; lia.
  - intros row Hrow Hid.
    eapply (Written_quantity _ _ _ Hw); [|by apply expected_updates_elem|exact Hrow|exact Hid].
    eapply sublist_NoDup; [exact Hnodup|apply expected_updates_ids].
Qed.

(** * Further properties of the code *)

(** ** Re-reading the store *)

(** [fetchData] never raises, never writes to the store and shows no notice;
    the calls it issues are reads; without a session it does nothing at
    all. *)
Theorem fetchData_reads_only (w : World) :
  (fetchData w).1 = inl tt /\
  store (fetchData w).2 = store w /\
  alerts (fetchData w).2 = alerts w /\
  (exists cs, calls (fetchData w).2 = calls w ++ cs /\
              Forall (fun c => is_write c = false) cs) /\
  (session w = false -> (fetchData w).2 = w).
Proof.
  destruct (fetchData_frame w) as (Hres & Hst & Hal & Hcalls).
  split; [exact Hres|]. split; [exact Hst|]. split; [exact Hal|].
  split; [exact Hcalls|].
  intros Hs. unfold fetchData, mbind, M_bind, gets. rewrite Hs. reflexivity.
Qed.

(** [fetchData] for a signed-in user stops at the first of the first three
    reads that fails: the collections read before it are replaced, the
    others stay, no notice is shown and [loading] is off again.  A failing
    read of the purchase orders lets the other three through. *)
Theorem fetchData_stops_at_failed_read (w : World) (k : nat) (bad : Outcome)
    (rest : list Outcome) :
  session w = true ->
  outcomes w = replicate k Ok ++ bad :: rest ->
  bad <> Ok ->
  (k <= 3)%nat ->
  let w' := (fetchData w).2 in
  inventory w' = (if bool_decide (1 <= k)%nat then read_inventory (store w) else inventory w) /\
  sales w' = (if bool_decide (2 <= k)%nat then read_sales (store w) else sales w) /\
  expenses w' = (if bool_decide (3 <= k)%nat then read_expenses (store w) else expenses w) /\
  purchaseOrders w' = purchaseOrders w /\
  length (calls w') = (length (calls w) + S k)%nat /\
  alerts w' = alerts w /\
  loading w' = false.
Proof.
  intros Hs Hout Hbad Hk. cbv zeta.
  destruct w as [i s e p se lo st oc cs al ck tk uu dr]. simpl in *. subst se oc.
  destruct k as [|[|[|[|k]]]]; [| | | |lia]; destruct bad as [|x|x]; try done;
    vm_compute replicate; unfold fetchData; run; unfold next_outcome; simpl;
    rewrite ?length_app; simpl; repeat split; lia.
Qed.

Lemma fetchData_stops_at_failed_read_witness :
  let w := Sample.shop [] [Ok; Fails "down"] in
  let w' := (fetchData (set_sales [Sample.old_sale] w)).2 in
  sales w' = [Sample.old_sale] /\
  (inventory w' = read_inventory (store w) /\
   sales w' = sales (set_sales [Sample.old_sale] w) /\
   expenses w' = expenses w /\
   purchaseOrders w' = purchaseOrders w /\
   length (calls w') = (length (calls w) + 2)%nat /\
   alerts w' = alerts w /\
   loading w' = false).
Proof.
  split; [reflexivity|].
  apply (fetchData_stops_at_failed_read (set_sales [Sample.old_sale] (Sample.shop [] [Ok; Fails "down"]))
           1 (Fails "down") []); [reflexivity|reflexivity|discriminate|lia].
Defined.

(** After a [fetchData] whose four reads the store answers, the four local
    collections are what the store returns and [loading] is off; a second
    one, answered too, changes none of them. *)
Theorem fetchData_refreshes (w : World) (rest : list Outcome) :
  session w = true ->
  outcomes w = Ok :: Ok :: Ok :: Ok :: Ok :: Ok :: Ok :: Ok :: rest ->
  let w1 := (fetchData w).2 in
  let w2 := (fetchData w1).2 in
  inventory w1 = read_inventory (store w) /\
  sales w1 = read_sales (store w) /\
  expenses w1 = read_expenses (store w) /\
  purchaseOrders w1 = read_purchase_orders (store w) /\
  loading w1 = false /\
  inventory w2 = inventory w1 /\ sales w2 = sales w1 /\
  expenses w2 = expenses w1 /\ purchaseOrders w2 = purchaseOrders w1.
Proof.
  intros Hs Hout. cbv zeta.
  destruct w as [i s e p se lo st oc cs al ck tk uu dr]. simpl in *. subst se oc.
  repeat split; vm_compute; reflexivity.
Qed.

Lemma fetchData_refreshes_witness :
  let w := set_inventory [] (Sample.shop [] [Ok; Ok; Ok; Ok; Ok; Ok; Ok; Ok]) in
  let w1 := (fetchData w).2 in
  let w2 := (fetchData w1).2 in
  inventory w1 = Sample.stock /\
  (inventory w1 = read_inventory (store w) /\
   sales w1 = read_sales (store w) /\
   expenses w1 = read_expenses (store w) /\
   purchaseOrders w1 = read_purchase_orders (store w) /\
   loading w1 = false /\
   inventory w2 = inventory w1 /\ sales w2 = sales w1 /\
   expenses w2 = expenses w1 /\ purchaseOrders w2 = purchaseOrders w1).
Proof.
  split; [reflexivity|].
  apply (fetchData_refreshes
           (set_inventory [] (Sample.shop [] [Ok; Ok; Ok; Ok; Ok; Ok; Ok; Ok])) []);
    reflexivity.
Defined.

(** ** The catalogue handlers *)

Ltac run_request :=
  unfold send; run; unfold next_outcome at 1; simpl;
  match goal with |- context [outcomes ?w] => fold (next_outcome w) end.

(** [handleAddItem], the store accepting the insert: the new item, with the
    next identifier of the source and the clock's reading, is at the end of
    the local inventory and of the store's; no notice; a local inventory
    that was the store's still is. *)
Theorem handleAddItem_appends (item : NewItem.t) (w : World) :
  next_outcome w = Ok ->
  let w' := (handleAddItem item w).2 in
  let newItem :=
    InventoryItem.mk (uuids w (drawn w)) (NewItem.name item) (NewItem.category item)
      (NewItem.quantity item) (NewItem.costPrice item) (NewItem.salesPrice item)
      (NewItem.lowStockThreshold item) (clock w (ticks w)) in
  inventory w' = inventory w ++ [newItem] /\
  Store.inventory (store w') = Store.inventory (store w) ++ [newItem] /\
  alerts w' = alerts w /\
  outcomes w' = tail (outcomes w) /\
  (inventory_in_step w -> inventory_in_step w').
Proof.
  intros Hok. cbv zeta.
  destruct (handleAddItem item w) as [r w'] eqn:Hrun. simpl. revert Hrun.
  unfold handleAddItem, updateInventory. run_request. rewrite Hok. simpl.
  intros [= <- <-]. simpl. repeat split.
  unfold inventory_in_step. simpl. by intros ->.
Qed.

(** [handleUpdateItem], the store accepting the update: every local item
    with the identifier, and every row of the store with it, takes the
    fields present in the updates and the clock's reading as [lastUpdated];
    the other items stay; a local inventory that was the store's still is. *)
Theorem handleUpdateItem_updates (id : string) (updates : InventoryUpdates.t) (w : World) :
  next_outcome w = Ok ->
  let w' := (handleUpdateItem id updates w).2 in
  let change := fun item : InventoryItem.t =>
    if bool_decide (InventoryItem.id item = id)
    then InventoryUpdates.merge item (InventoryUpdates.stamped updates (clock w (ticks w)))
    else item in
  inventory w' = map change (inventory w) /\
  Store.inventory (store w') = map change (Store.inventory (store w)) /\
  length (inventory w') = length (inventory w) /\
  alerts w' = alerts w /\
  (inventory_in_step w -> inventory_in_step w').
Proof.
  intros Hok. cbv zeta.
  destruct (handleUpdateItem id updates w) as [r w'] eqn:Hrun. simpl. revert Hrun.
  unfold handleUpdateItem, updateInventory. run_request. rewrite Hok. simpl.
  intros [= <- <-]. simpl. rewrite length_map. repeat split.
  unfold inventory_in_step. simpl. by intros ->.
Qed.

(** [handleDeleteItem]: when the user declines nothing happens; when the
    user confirms and the store accepts the delete, the items with the
    identifier are gone from the local inventory and from the store's, the
    others stay in order, and a local inventory that was the store's still
    is. *)
Theorem handleDeleteItem_deletes (id : string) (w : World) :
  next_outcome w = Ok ->
  let w' := (handleDeleteItem true id w).2 in
  let keep := fun item : InventoryItem.t => negb (bool_decide (InventoryItem.id item = id)) in
  handleDeleteItem false id w = (inl tt, w) /\
  inventory w' = List.filter keep (inventory w) /\
  Store.inventory (store w') = List.filter keep (Store.inventory (store w)) /\
  (forall item, item ∈ inventory w' -> InventoryItem.id item <> id) /\
  alerts w' = alerts w /\
  (inventory_in_step w -> inventory_in_step w').
Proof.
  intros Hok. cbv zeta. split; [reflexivity|].
  destruct (handleDeleteItem true id w) as [r w'] eqn:Hrun. simpl. revert Hrun.
  unfold handleDeleteItem, updateInventory. run_request. rewrite Hok. simpl.
  intros [= <- <-]. simpl. repeat split.
  - intros item Hin. apply list_elem_of_In, filter_In in Hin as [_ Hkeep].
    apply negb_true_iff, bool_decide_eq_false in Hkeep. exact Hkeep.
  - unfold inventory_in_step. simpl. by intros ->.
Qed.

Ltac refetch_after_failure Hs Hout rest :=
  match goal with |- context [fetchData ?v] =>
    let v' := fresh "v" in
    let Hfetch := fresh "Hfetch" in
    destruct (fetchData_reads v rest) as (v' & Hfetch & ? & ? & ? & ? & ? & ? & ?);
    [exact Hs|simpl; by rewrite Hout|];
    rewrite Hfetch; intros [= <- <-]; simpl in *; done
  end.

(** A catalogue handler whose request the store fails, by an error result or
    by a rejection, for a signed-in user and a store that answers the reads:
    the notice of the handler is shown and the local inventory is the
    store's, which the failed request has not changed; the optimistic change
    is gone. *)
Theorem catalogue_failure_rolls_back (w : World) (bad : Outcome) (rest : list Outcome)
    (item : NewItem.t) (id : string) (updates : InventoryUpdates.t) :
  session w = true ->
  outcomes w = bad :: Ok :: Ok :: Ok :: Ok :: rest ->
  bad <> Ok ->
  let rolled_back := fun (w' : World) (msg : string) =>
    inventory w' = read_inventory (store w) /\
    store w' = store w /\
    alerts w' = alerts w ++ [msg] in
  rolled_back (handleAddItem item w).2 "Failed to save item to database."%string /\
  rolled_back (handleUpdateItem id updates w).2 "Failed to update item in database."%string /\
  rolled_back (handleDeleteItem true id w).2 "Failed to delete item from database."%string.
Proof.
  intros Hs Hout Hbad. cbv zeta.
  assert (Hnext : next_outcome w = bad) by (unfold next_outcome; by rewrite Hout).
  split; [|split].
  - destruct (handleAddItem item w) as [r w'] eqn:Hrun. simpl. revert Hrun.
    unfold handleAddItem, updateInventory. run_request. rewrite Hnext.
    destruct bad as [|e|e]; [done|..]; simpl; refetch_after_failure Hs Hout rest.
  - destruct (handleUpdateItem id updates w) as [r w'] eqn:Hrun. simpl. revert Hrun.
    unfold handleUpdateItem, updateInventory. run_request. rewrite Hnext.
    destruct bad as [|e|e]; [done|..]; simpl; refetch_after_failure Hs Hout rest.
  - destruct (handleDeleteItem true id w) as [r w'] eqn:Hrun. simpl. revert Hrun.
    unfold handleDeleteItem, updateInventory. run_request. rewrite Hnext.
    destruct bad as [|e|e]; [done|..]; simpl; refetch_after_failure Hs Hout rest.
Qed.

Lemma handleAddItem_appends_witness :
  let item := NewItem.mk "Cocoa" "food" 6 3 5 2 in
  let w := Sample.shop [] [] in
  let w' := (handleAddItem item w).2 in
  let newItem :=
    InventoryItem.mk (uuids w (drawn w)) (NewItem.name item) (NewItem.category item)
      (NewItem.quantity item) (NewItem.costPrice item) (NewItem.salesPrice item)
      (NewItem.lowStockThreshold item) (clock w (ticks w)) in
  (InventoryItem.id <$> inventory w') = ["A"; "B"; "uuid-0"]%string /\
  (inventory w' = inventory w ++ [newItem] /\
   Store.inventory (store w') = Store.inventory (store w) ++ [newItem] /\
   alerts w' = alerts w /\
   outcomes w' = tail (outcomes w) /\
   (inventory_in_step w -> inventory_in_step w')).
Proof.
  split; [reflexivity|].
  apply (handleAddItem_appends (NewItem.mk "Cocoa" "food" 6 3 5 2) (Sample.shop [] [])).
  reflexivity.
Defined.

Lemma handleUpdateItem_updates_witness :
  let updates := InventoryUpdates.only_quantity 7 in
  let w := Sample.shop [] [] in
  let w' := (handleUpdateItem "B" updates w).2 in
  let change := fun item : InventoryItem.t =>
    if bool_decide (InventoryItem.id item = "B"%string)
    then InventoryUpdates.merge item (InventoryUpdates.stamped updates (clock w (ticks w)))
    else item in
  (InventoryItem.quantity <$> inventory w') = [10; 7] /\
  (inventory w' = map change (inventory w) /\
   Store.inventory (store w') = map change (Store.inventory (store w)) /\
   length (inventory w') = length (inventory w) /\
   alerts w' = alerts w /\
   (inventory_in_step w -> inventory_in_step w')).
Proof.
  split; [reflexivity|].
  apply (handleUpdateItem_updates "B" (InventoryUpdates.only_quantity 7) (Sample.shop [] [])).
  reflexivity.
Defined.

Lemma handleDeleteItem_deletes_witness :
  let w := Sample.shop [] [] in
  let w' := (handleDeleteItem true "A" w).2 in
  let keep := fun item : InventoryItem.t =>
    negb (bool_decide (InventoryItem.id item = "A"%string)) in
  inventory w' = [Sample.bread] /\
  (handleDeleteItem false "A" w = (inl tt, w) /\
   inventory w' = List.filter keep (inventory w) /\
   Store.inventory (store w') = List.filter keep (Store.inventory (store w)) /\
   (forall item, item ∈ inventory w' -> InventoryItem.id item <> "A"%string) /\
   alerts w' = alerts w /\
   (inventory_in_step w -> inventory_in_step w')).
Proof.
  split; [reflexivity|].
  apply (handleDeleteItem_deletes "A" (Sample.shop [] [])). reflexivity.
Defined.

Lemma catalogue_failure_rolls_back_witness :
  let w := Sample.shop [] [Rejects "offline"; Ok; Ok; Ok; Ok] in
  let item := NewItem.mk "Cocoa" "food" 6 3 5 2 in
  let updates := InventoryUpdates.only_quantity 7 in
  let rolled_back := fun (w' : World) (msg : string) =>
    inventory w' = read_inventory (store w) /\
    store w' = store w /\
    alerts w' = alerts w ++ [msg] in
  inventory (handleDeleteItem true "A" w).2 = Sample.stock /\
  (rolled_back (handleAddItem item w).2 "Failed to save item to database."%string /\
   rolled_back (handleUpdateItem "A" updates w).2 "Failed to update item in database."%string /\
   rolled_back (handleDeleteItem true "A" w).2 "Failed to delete item from database."%string).
Proof.
  split; [reflexivity|].
  apply (catalogue_failure_rolls_back (Sample.shop [] [Rejects "offline"; Ok; Ok; Ok; Ok])
           (Rejects "offline") [] (NewItem.mk "Cocoa" "food" 6 3 5 2) "A"
           (InventoryUpdates.only_quantity 7)); [reflexivity|reflexivity|discriminate].
Defined.

(** ** The expense handlers and the financial report *)

(** [handleAddExpense], the store accepting the insert: the new record is in
    front of the local expenses and at the end of the store's, and no notice
    is shown.  Where the amounts on the books and the new amount are whole
    numbers with a sum below [2^53], the total expenses of the financial
    report grow by exactly the new amount. *)
Theorem handleAddExpense_records (expense : NewExpense.t) (w : World) :
  next_outcome w = Ok ->
  let w' := (handleAddExpense expense w).2 in
  let newExpense :=
    ExpenseRecord.mk (uuids w (drawn w)) (NewExpense.description expense)
      (NewExpense.amount expense) (NewExpense.category expense)
      (NewExpense.date expense) (clock w (ticks w)) in
  expenses w' = newExpense :: expenses w /\
  Store.expenses (store w') = Store.expenses (store w) ++ [newExpense] /\
  alerts w' = alerts w /\
  (let total := sum_of (fun e => Number.to_Z (ExpenseRecord.amount e)) (expenses w) in
   Forall (fun e => Number.whole (ExpenseRecord.amount e)) (expenses w) ->
   Number.whole (NewExpense.amount expense) ->
   total + Number.to_Z (NewExpense.amount expense) < 2 ^ 53 ->
   FinancialReport.totalExpenses
     (FinancialReport.financials (inventory w) (sales w) (expenses w))
   = Number.of_Z total /\
   FinancialReport.totalExpenses
     (FinancialReport.financials (inventory w') (sales w') (expenses w'))
   = Number.of_Z (total + Number.to_Z (NewExpense.amount expense))).
Proof.
  intros Hok. cbv zeta.
  destruct (handleAddExpense expense w) as [r w'] eqn:Hrun. simpl. revert Hrun.
  unfold handleAddExpense, updateExpenses. run_request. rewrite Hok. simpl.
  intros [= <- <-]. cbn [expenses store Store.expenses alerts answered set_expenses
                         apply_request inventory sales].
  do 3 (split; [reflexivity|]).
  intros Hwhole [Hrange Hnew] Hsum.
  assert (Hnn : 0 <= sum_of (fun e => Number.to_Z (ExpenseRecord.amount e)) (expenses w)).
  { apply sum_of_nonneg. eapply Forall_impl; [exact Hwhole|]. by intros e [[? _] _]. }
  assert (Hterms : Forall (fun e => ExpenseRecord.amount e
                                    = Number.of_Z (Number.to_Z (ExpenseRecord.amount e))
                                    /\ 0 <= Number.to_Z (ExpenseRecord.amount e)) (expenses w)).
  { eapply Forall_impl; [exact Hwhole|]. by intros e [[? _] ?]. }
  unfold FinancialReport.financials. cbn [FinancialReport.totalExpenses]. split.
  - rewrite (reduce_whole ExpenseRecord.amount
               (fun e => Number.to_Z (ExpenseRecord.amount e)) (expenses w) 0 Hterms);
      [reflexivity|lia|unfold sum_of in *; lia].
  - unfold reduce at 1. cbn [fold_left ExpenseRecord.amount].
    rewrite Hnew at 1. rewrite (add_exact 0) by lia.
    change (fold_left ?f ?l ?a) with (reduce f a l).
    rewrite (reduce_whole ExpenseRecord.amount
               (fun e => Number.to_Z (ExpenseRecord.amount e)) (expenses w) _ Hterms);
      [f_equal; unfold sum_of; lia|lia|unfold sum_of in *; lia].
Qed.

Lemma handleAddExpense_records_witness :
  let expense := NewExpense.mk "Power" 40 "Utilities" 100 in
  let w := Sample.books [] in
  let w' := (handleAddExpense expense w).2 in
  let newExpense :=
    ExpenseRecord.mk (uuids w (drawn w)) (NewExpense.description expense)
      (NewExpense.amount expense) (NewExpense.category expense)
      (NewExpense.date expense) (clock w (ticks w)) in
  (FinancialReport.totalExpenses
     (FinancialReport.financials (inventory w) (sales w) (expenses w)) = Number.of_Z 25 /\
   FinancialReport.totalExpenses
     (FinancialReport.financials (inventory w') (sales w') (expenses w')) = Number.of_Z 65) /\
  expenses w' = newExpense :: expenses w /\
  Store.expenses (store w') = Store.expenses (store w) ++ [newExpense] /\
  alerts w' = alerts w.
Proof.
  destruct (handleAddExpense_records (NewExpense.mk "Power" 40 "Utilities" 100)
              (Sample.books [])) as (Hlocal & Hstore & Halerts & Hexact); [reflexivity|].
  split; [|by repeat split].
  apply Hexact.
  - repeat constructor; vm_compute; congruence.
  - repeat constructor; vm_compute; congruence.
  - reflexivity.
Defined.

Lemma elem_of_insert_desc {A : Type} (key : A -> Z) (x y : A) (sorted : list A) :
  y ∈ insert_desc key x sorted <-> y = x \/ y ∈ sorted.
Proof.
  induction sorted as [|z sorted IH]; simpl.
  - rewrite list_elem_of_singleton, elem_of_nil. tauto.
  - destruct (key z <? key x).
    + rewrite elem_of_cons. tauto.
    + rewrite !elem_of_cons, IH. tauto.
Qed.

(** A list-all with an order returns the rows of the table. *)
Lemma elem_of_order_desc {A : Type} (key : A -> Z) (rows : list A) (y : A) :
  y ∈ order_desc key rows <-> y ∈ rows.
Proof.
  unfold order_desc.
  assert (Hgen : forall acc, y ∈ fold_left (fun acc x => insert_desc key x acc) rows acc
                             <-> y ∈ acc \/ y ∈ rows).
  { induction rows as [|x rows IH]; intros acc; simpl.
    - rewrite elem_of_nil. tauto.
    - rewrite IH, elem_of_insert_desc, elem_of_cons. tauto. }
  rewrite Hgen, elem_of_nil. tauto.
Qed.

(** [handleDeleteExpense] whose delete the store fails, for a signed-in user
    and a store that answers the reads: unlike the other handlers it shows
    no notice; the store is as before and the local expenses become the
    store's, so every record of the store, the one to delete included, is
    among the local expenses again. *)
Theorem handleDeleteExpense_fails_silently (id : string) (w : World) (bad : Outcome)
    (rest : list Outcome) :
  session w = true ->
  outcomes w = bad :: Ok :: Ok :: Ok :: Ok :: rest ->
  bad <> Ok ->
  let w' := (handleDeleteExpense true id w).2 in
  alerts w' = alerts w /\
  store w' = store w /\
  expenses w' = read_expenses (store w) /\
  (forall e, e ∈ Store.expenses (store w) -> e ∈ expenses w').
Proof.
  intros Hs Hout Hbad. cbv zeta.
  assert (Hnext : next_outcome w = bad) by (unfold next_outcome; by rewrite Hout).
  assert (Hmain : alerts (handleDeleteExpense true id w).2 = alerts w /\
                  store (handleDeleteExpense true id w).2 = store w /\
                  expenses (handleDeleteExpense true id w).2 = read_expenses (store w)).
  { destruct (handleDeleteExpense true id w) as [r w'] eqn:Hrun. simpl. revert Hrun.
    unfold handleDeleteExpense, updateExpenses. run_request. rewrite Hnext.
    destruct bad as [|e|e]; [done|..]; simpl; refetch_after_failure Hs Hout rest. }
  destruct Hmain as (Hal & Hst & Hexp). do 3 (split; [done|]).
  intros e He. rewrite Hexp. unfold read_expenses. by apply elem_of_order_desc.
Qed.

Lemma handleDeleteExpense_fails_silently_witness :
  let w := Sample.books [Fails "busy"; Ok; Ok; Ok; Ok] in
  let w' := (handleDeleteExpense true "e1" w).2 in
  (ExpenseRecord.id <$> expenses w = ["e1"%string] /\
   ExpenseRecord.id <$> expenses w' = ["e1"%string] /\
   ExpenseRecord.id <$> Store.expenses (store w') = ["e1"%string]) /\
  alerts w' = alerts w /\
  store w' = store w /\
  expenses w' = read_expenses (store w) /\
  (forall e, e ∈ Store.expenses (store w) -> e ∈ expenses w').
Proof.
  split; [repeat split|].
  apply (handleDeleteExpense_fails_silently "e1"
           (Sample.books [Fails "busy"; Ok; Ok; Ok; Ok]) (Fails "busy") []);
    [reflexivity|reflexivity|discriminate].
Defined.

(** ** Further behaviour of the status handler *)

(** [handleUpdatePOStatus] on an identifier no local order bears does
    nothing: no state change, no call, no notice. *)
Theorem handleUpdatePOStatus_unknown_order (id : string) (u : StatusUpdate) (w : World) :
  find (po_has_id id) (purchaseOrders w) = None ->
  handleUpdatePOStatus id u w = (inl tt, w).
Proof.
  intros Hnone. unfold handleUpdatePOStatus, mbind, M_bind, gets. by rewrite Hnone.
Qed.

Lemma handleUpdatePOStatus_unknown_order_witness :
  handleUpdatePOStatus "P9" to_received (Sample.shop [Sample.order ordered] [])
  = (inl tt, Sample.shop [Sample.order ordered] []).
Proof.
  apply (handleUpdatePOStatus_unknown_order "P9" to_received
           (Sample.shop [Sample.order ordered] [])).
  reflexivity.
Defined.

(** Cancelling an order the handler finds, the store accepting the update:
    the order is [cancelled] locally and in the store, one call is made, and
    the inventory is untouched, locally and in the store. *)
Theorem cancel_purchase_order_keeps_stock (id : string) (po : PurchaseOrder.t) (w : World) :
  find (po_has_id id) (purchaseOrders w) = Some po ->
  next_outcome w = Ok ->
  let w' := (handleUpdatePOStatus id to_cancelled w).2 in
  inventory w' = inventory w /\
  Store.inventory (store w') = Store.inventory (store w) /\
  PurchaseOrder.status <$> find (po_has_id id) (purchaseOrders w') = Some cancelled /\
  Store.purchase_orders (store w') =
    map (update_po_row id cancelled) (Store.purchase_orders (store w)) /\
  calls w' = calls w ++ [UpdatePurchaseOrderStatus id cancelled] /\
  alerts w' = alerts w.
Proof.
  intros Hfind Hok. cbv zeta.
  destruct (handleUpdatePOStatus id to_cancelled w) as [r w'] eqn:Hrun. simpl. revert Hrun.
  unfold handleUpdatePOStatus, mbind at 1 2, M_bind, gets. rewrite Hfind.
  run. unfold next_outcome at 1. simpl. fold (next_outcome w). rewrite Hok. simpl.
  intros [= <- <-]. simpl. repeat split.
  change (map _ (purchaseOrders w)) with (mark_status id cancelled (purchaseOrders w)).
  by rewrite find_mark_status, Hfind.
Qed.

Lemma cancel_purchase_order_keeps_stock_witness :
  let w := Sample.shop [Sample.order ordered] [] in
  let w' := (handleUpdatePOStatus "P1" to_cancelled w).2 in
  inventory w' = inventory w /\
  Store.inventory (store w') = Store.inventory (store w) /\
  PurchaseOrder.status <$> find (po_has_id "P1"%string) (purchaseOrders w') = Some cancelled /\
  Store.purchase_orders (store w') =
    map (update_po_row "P1" cancelled) (Store.purchase_orders (store w)) /\
  calls w' = calls w ++ [UpdatePurchaseOrderStatus "P1" cancelled] /\
  alerts w' = alerts w.
Proof.
  apply (cancel_purchase_order_keeps_stock "P1" (Sample.order ordered)
           (Sample.shop [Sample.order ordered] [])); reflexivity.
Defined.

(** [handleUpdatePOStatus] whose status update the store fails, for a
    signed-in user and a store that answers the reads: no inventory update
    is issued, even for a receipt; the notice is shown; the store is as
    before and the local orders and inventory are the store's, so the
    optimistic status is gone. *)
Theorem failed_status_update_is_discarded (id : string) (u : StatusUpdate)
    (po : PurchaseOrder.t) (w : World) (bad : Outcome) (rest : list Outcome) :
  find (po_has_id id) (purchaseOrders w) = Some po ->
  session w = true ->
  outcomes w = bad :: Ok :: Ok :: Ok :: Ok :: rest ->
  bad <> Ok ->
  let w' := (handleUpdatePOStatus id u w).2 in
  calls w' = calls w ++ [UpdatePurchaseOrderStatus id (status_of u); SelectInventory;
                         SelectSales; SelectExpenses; SelectPurchaseOrders] /\
  alerts w' = alerts w ++ ["Failed to update order status."%string] /\
  store w' = store w /\
  purchaseOrders w' = read_purchase_orders (store w) /\
  inventory w' = read_inventory (store w).
Proof.
  intros Hfind Hs Hout Hbad. cbv zeta.
  assert (Hnext : next_outcome w = bad) by (unfold next_outcome; by rewrite Hout).
  destruct (handleUpdatePOStatus id u w) as [r w'] eqn:Hrun. simpl. revert Hrun.
  unfold handleUpdatePOStatus, mbind at 1 2, M_bind, gets. rewrite Hfind.
  unfold mbind at 1, M_bind, setPurchaseOrders, modify, try_catch.
  unfold mbind at 1 2, M_bind, await, throw_if, throw.
  match goal with |- context [next_outcome ?w1] =>
    replace (next_outcome w1) with bad by (symmetry; exact Hnext) end.
  unfold mbind, M_bind, alert, modify.
  destruct bad as [|e|e]; [done|..];
    (match goal with |- context [fetchData ?v] =>
       destruct (fetchData_reads v rest) as (v' & Hfetch & Hc & Ha & Hst & Hi & _ & _ & Hp);
       [exact Hs|simpl; by rewrite Hout|] end;
     rewrite Hfetch; intros [= <- <-]; simpl in *;
     rewrite Hc, Ha, Hst, Hp, Hi, <- app_assoc; done).
Qed.

Lemma failed_status_update_is_discarded_witness :
  let w := Sample.shop [Sample.order ordered] [Fails "busy"; Ok; Ok; Ok; Ok] in
  let w' := (handleUpdatePOStatus "P1" to_received w).2 in
  (inventory w' = Sample.stock /\ purchaseOrders w' = [Sample.order ordered]) /\
  (calls w' = calls w ++ [UpdatePurchaseOrderStatus "P1" (status_of to_received);
                          SelectInventory; SelectSales; SelectExpenses;
                          SelectPurchaseOrders] /\
   alerts w' = alerts w ++ ["Failed to update order status."%string] /\
   store w' = store w /\
   purchaseOrders w' = read_purchase_orders (store w) /\
   inventory w' = read_inventory (store w)).
Proof.
  split; [split; reflexivity|].
  apply (failed_status_update_is_discarded "P1" to_received (Sample.order ordered)
           (Sample.shop [Sample.order ordered] [Fails "busy"; Ok; Ok; Ok; Ok])
           (Fails "busy") []); [reflexivity|reflexivity|reflexivity|discriminate].
Defined.

(** The receipt is guarded by [received] only: an order in any other state,
    a cancelled one included, is restocked when it is marked received, the
    store accepting the status update and rejecting no call. *)
Theorem cancelled_order_can_be_received (id : string) (po : PurchaseOrder.t) (w : World) :
  find (po_has_id id) (purchaseOrders w) = Some po ->
  PurchaseOrder.status po <> received ->
  next_outcome w = Ok ->
  Forall (fun o => rejects o = false) (outcomes w) ->
  let w' := (handleUpdatePOStatus id to_received w).2 in
  PurchaseOrder.status <$> find (po_has_id id) (purchaseOrders w') = Some received /\
  forall (k : nat) a, inventory w !! k = Some a ->
    exists b, inventory w' !! k = Some b /\ same_static a b /\
      InventoryItem.quantity b =
        InventoryItem.quantity a +
        (if first_of_its_id (inventory w) k a
         then ordered_quantity (PurchaseOrder.items po) (InventoryItem.id a) else 0).
Proof.
  intros Hfind Hst Hok Hno. cbv zeta.
  destruct (handleUpdatePOStatus_run id to_received po w Hfind Hok Hno)
    as (w' & Hrun & Hpo & _ & _ & _ & Hinv).
  rewrite Hrun. simpl.
  assert (Hres : restocks to_received po = true).
  { unfold restocks. simpl. by rewrite bool_decide_eq_false_2. }
  rewrite Hres in Hinv. split.
  - by rewrite Hpo, find_mark_status, Hfind.
  - destruct (Adjusted_lookup _ _ _ Hinv) as [_ Hlook].
    intros k a Hk. destruct (Hlook k a Hk) as (b & Hb & Hsame & Hq & _).
    exists b. by rewrite delta_for_receipt in Hq.
Qed.

Lemma cancelled_order_can_be_received_witness :
  let w := Sample.shop [Sample.order cancelled] [] in
  let w' := (handleUpdatePOStatus "P1" to_received w).2 in
  InventoryItem.quantity <$> inventory w' !! 0%nat = Some 15 /\
  (PurchaseOrder.status <$> find (po_has_id "P1"%string) (purchaseOrders w') = Some received /\
   forall (k : nat) a, inventory w !! k = Some a ->
     exists b, inventory w' !! k = Some b /\ same_static a b /\
       InventoryItem.quantity b =
         InventoryItem.quantity a +
         (if first_of_its_id (inventory w) k a
          then ordered_quantity (PurchaseOrder.items (Sample.order cancelled))
                 (InventoryItem.id a) else 0)).
Proof.
  split; [reflexivity|].
  apply (cancelled_order_can_be_received "P1" (Sample.order cancelled)
           (Sample.shop [Sample.order cancelled] []));
    [reflexivity|discriminate|reflexivity|constructor].
Defined.

(** ** The receipt keeps the store in step *)

Lemma receive_item_loop_restocked items inv w :
  Forall (fun o => o = Ok) (outcomes w) ->
  exists inv' w',
    for_of_with items receive_item inv w = (inl inv', w') /\
    Restocked items inv (Store.inventory (store w)) inv' (Store.inventory (store w')) /\
    alerts w' = alerts w /\
    purchaseOrders w' = purchaseOrders w.
Proof.
  revert inv w. induction items as [|it items IH]; intros inv w Hok; simpl.
  - exists inv, w. repeat split. constructor.
  - unfold mbind, M_bind. rewrite receive_item_run.
    destruct (find (has_id (PurchaseOrderItem.itemId it)) inv) as [cur|] eqn:Hfind.
    + destruct (all_ok_tail w Hok) as [Hnext Htail].
      rewrite await_ok by exact Hnext.
      match goal with |- context [for_of_with items _ ?i1 ?w1] =>
        destruct (IH i1 w1 Htail) as (inv' & w' & Hrun & Hre & Ha & Hp) end.
      exists inv', w'. rewrite Hrun. simpl in *.
      split; [reflexivity|]. split; [|done].
      eapply Restocked_step; [exact Hfind|exact Hre].
    + destruct (IH inv w Hok) as (inv' & w' & Hrun & Hre & Hrest).
      exists inv', w'. rewrite Hrun. split; [reflexivity|]. split; [|exact Hrest].
      by apply Restocked_skip.
Qed.

Lemma Restocked_ids items inv rows inv' rows' :
  Restocked items inv rows inv' rows' ->
  map InventoryItem.id inv' = map InventoryItem.id inv.
Proof.
  induction 1 as [| |it items cur ts ts' inv rows inv' rows' _ _ IH]; try done.
  by rewrite IH, adjust_ids.
Qed.

Lemma adjust_find inv x delta ts id cur :
  find (has_id id) inv = Some cur ->
  exists b, find (has_id id) (adjust inv x delta ts) = Some b /\
    InventoryItem.quantity b =
      InventoryItem.quantity cur + (if bool_decide (x = id) then delta else 0).
Proof.
  intros Hfind.
  destruct (Adjusted_find [(x, delta)] inv (adjust inv x delta ts) id cur) as (b & Hb & Hq).
  - econstructor. constructor.
  - exact Hfind.
  - exists b. split; [exact Hb|]. rewrite Hq. simpl. lia.
Qed.

Lemma Restocked_agree items inv rows inv' rows' :
  Restocked items inv rows inv' rows' ->
  forall known : string -> Prop,
    (forall id, known id -> agree_on id inv rows) ->
    forall id,
      known id \/ id ∈ map PurchaseOrderItem.itemId items ->
      agree_on id inv' rows'.
Proof.
  induction 1 as [inv rows|it items inv rows inv' rows' Hnone Hre IH
                  |it items cur ts ts' inv rows inv' rows' Hfind Hre IH];
    intros known Hknown id Hid.
  - destruct Hid as [Hid|Hid]; [by apply Hknown|inversion Hid].
  - simpl in Hid.
    destruct (decide (id = PurchaseOrderItem.itemId it)) as [->|Hne].
    + intros b Hb. exfalso.
      pose proof (find_ids _ _ _ (Restocked_ids _ _ _ _ _ Hre) Hnone) as Hnone'.
      congruence.
    + apply (IH known Hknown). destruct Hid as [Hid|Hid]; [by left|right].
      apply elem_of_cons in Hid as [Hid|Hid]; [done|exact Hid].
  - set (x := PurchaseOrderItem.itemId it) in *.
    apply (IH (fun y => known y \/ y = x)).
    + intros y Hy b Hb row Hrow Hrowid.
      apply list_elem_of_fmap in Hrow as (row0 & -> & Hrow0).
      rewrite update_inventory_row_id in Hrowid.
      destruct (decide (y = x)) as [->|Hne].
      * destruct (adjust_find inv x (PurchaseOrderItem.quantity it) ts x cur Hfind)
          as (b' & Hb' & Hq).
        rewrite Hb in Hb'. injection Hb' as <-.
        rewrite Hq, bool_decide_eq_true_2 by done.
        unfold update_inventory_row. by rewrite bool_decide_eq_true_2.
      * destruct Hy as [Hy|Hy]; [|done].
        destruct (find (has_id y) inv) as [c|] eqn:Hc.
        -- destruct (adjust_find inv x (PurchaseOrderItem.quantity it) ts y c Hc)
             as (b' & Hb' & Hq).
           rewrite Hb in Hb'. injection Hb' as <-.
           rewrite Hq, bool_decide_eq_false_2 by done.
           unfold update_inventory_row. rewrite bool_decide_eq_false_2 by congruence.
           rewrite (Hknown y Hy c Hc row0 Hrow0 Hrowid). lia.
        -- pose proof (find_ids y inv (adjust inv x (PurchaseOrderItem.quantity it) ts)
                         (adjust_ids _ _ _ _) Hc). congruence.
    + simpl in Hid. destruct Hid as [Hid|Hid]; [by left; left|].
      apply elem_of_cons in Hid as [Hid|Hid]; [by left; right|by right].
Qed.

(** A receipt writes the running quantity: when an order not yet received is
    marked received and the store accepts every call, then for every order
    item, repeated identifiers included, every row of the store with the
    item's identifier has the quantity of the item the local lookup finds. *)
Theorem receipt_keeps_store_in_step (id : string) (po : PurchaseOrder.t) (w : World) :
  find (po_has_id id) (purchaseOrders w) = Some po ->
  PurchaseOrder.status po <> received ->
  Forall (fun o => o = Ok) (outcomes w) ->
  let w' := (handleUpdatePOStatus id to_received w).2 in
  alerts w' = alerts w /\
  forall it, it ∈ PurchaseOrder.items po ->
    agree_on (PurchaseOrderItem.itemId it) (inventory w') (Store.inventory (store w')).
Proof.
  intros Hfind Hst Hok. cbv zeta.
  destruct (all_ok_tail w Hok) as [Hnext Htail].
  destruct (handleUpdatePOStatus id to_received w) as [r w'] eqn:Hrun. simpl. revert Hrun.
  unfold handleUpdatePOStatus, mbind at 1 2, M_bind, gets. rewrite Hfind.
  unfold mbind at 1, M_bind, setPurchaseOrders, modify, try_catch.
  unfold mbind at 1 2, M_bind, throw_if.
  rewrite await_ok by exact Hnext.
  unfold mret at 1, M_ret.
  replace (bool_decide (status_of to_received = received)
           && negb (bool_decide (PurchaseOrder.status po = received))) with true
    by (simpl; by rewrite bool_decide_eq_false_2).
  unfold mbind, M_bind, setInventory, modify.
  match goal with |- context [for_of_with _ receive_item ?i1 ?w1] =>
    destruct (receive_item_loop_restocked (PurchaseOrder.items po) i1 w1)
      as (inv' & v & Hloop & Hre & Ha & _) end.
  { exact Htail. }
  rewrite Hloop. intros [= <- <-]. simpl in *. split; [exact Ha|].
  intros it Hit.
  apply (Restocked_agree _ _ _ _ _ Hre (fun _ => False)); [done|].
  right. by apply list_elem_of_fmap_2.
Qed.

Lemma receipt_keeps_store_in_step_witness :
  let po := PurchaseOrder.mk "P2" "Acme" 0 ordered
              [PurchaseOrderItem.mk "A" "Apple" 5 2; PurchaseOrderItem.mk "A" "Apple" 1 2]
              12 None in
  let w := Sample.shop [po] [] in
  let w' := (handleUpdatePOStatus "P2" to_received w).2 in
  (InventoryItem.quantity <$> find (has_id "A"%string) (inventory w') = Some 16 /\
   InventoryItem.quantity <$> find (has_id "A"%string) (Store.inventory (store w')) = Some 16) /\
  (alerts w' = alerts w /\
   forall it, it ∈ PurchaseOrder.items po ->
     agree_on (PurchaseOrderItem.itemId it) (inventory w') (Store.inventory (store w'))).
Proof.
  split; [split; reflexivity|].
  apply (receipt_keeps_store_in_step "P2"
           (PurchaseOrder.mk "P2" "Acme" 0 ordered
              [PurchaseOrderItem.mk "A" "Apple" 5 2; PurchaseOrderItem.mk "A" "Apple" 1 2]
              12 None)
           (Sample.shop
              [PurchaseOrder.mk "P2" "Acme" 0 ordered
                 [PurchaseOrderItem.mk "A" "Apple" 5 2; PurchaseOrderItem.mk "A" "Apple" 1 2]
                 12 None] []));
    [reflexivity|discriminate|constructor].
Defined.

(** ** Further behaviour of the sale *)

(** [handleCompleteSale] has no guard against an empty sale: the store
    accepting the insert, a record with no items and zero totals is put in
    front of the local sales and inserted in the store, and nothing else
    happens. *)
Theorem completeSale_of_nothing (w : World) :
  next_outcome w = Ok ->
  let w' := (handleCompleteSale [] w).2 in
  let empty := SaleRecord.mk (uuids w (drawn w)) [] 0 0 (clock w (ticks w)) in
  sales w' = empty :: sales w /\
  Store.sales (store w') = Store.sales (store w) ++ [empty] /\
  calls w' = calls w ++ [InsertSale empty] /\
  inventory w' = inventory w /\
  Store.inventory (store w') = Store.inventory (store w) /\
  alerts w' = alerts w.
Proof.
  intros Hok. cbv zeta.
  destruct (handleCompleteSale [] w) as [r w'] eqn:Hrun. simpl. revert Hrun.
  unfold handleCompleteSale, handleCompleteSale_optimistic, handleCompleteSale_persist.
  run. unfold next_outcome at 1. simpl. fold (next_outcome w). rewrite Hok. simpl.
  intros [= <- <-]. simpl. repeat split.
Qed.

Lemma completeSale_of_nothing_witness :
  let w := Sample.shop [] [] in
  let w' := (handleCompleteSale [] w).2 in
  let empty := SaleRecord.mk (uuids w (drawn w)) [] 0 0 (clock w (ticks w)) in
  sales w' = empty :: sales w /\
  Store.sales (store w') = Store.sales (store w) ++ [empty] /\
  calls w' = calls w ++ [InsertSale empty] /\
  inventory w' = inventory w /\
  Store.inventory (store w') = Store.inventory (store w) /\
  alerts w' = alerts w.
Proof. apply (completeSale_of_nothing (Sample.shop [] [])). reflexivity. Defined.

(** The optimistic update has no stock check: when a sale sells more of an
    identifier than the item found by it holds, the item is left with the
    negative difference. *)
Theorem completeSale_can_oversell (items : list SaleItem.t) (w : World) (k : nat)
    (a : InventoryItem.t) :
  inventory w !! k = Some a ->
  first_of_its_id (inventory w) k a = true ->
  InventoryItem.quantity a < sold items (InventoryItem.id a) ->
  exists b, inventory (handleCompleteSale_optimistic items w).2 !! k = Some b /\
    InventoryItem.quantity b = InventoryItem.quantity a - sold items (InventoryItem.id a) /\
    InventoryItem.quantity b < 0.
Proof.
  intros Hk Hfirst Hless.
  destruct (completeSale_local_quantities items w k a Hk) as (b & Hb & Hq).
  rewrite Hfirst in Hq. exists b. split; [exact Hb|]. split; [exact Hq|]. lia.
Qed.

Lemma completeSale_can_oversell_witness :
  let items := [Sample.apples 12] in
  let w := Sample.shop [] [] in
  exists b, inventory (handleCompleteSale_optimistic items w).2 !! 0%nat = Some b /\
    InventoryItem.quantity b = InventoryItem.quantity Sample.apple
                               - sold items (InventoryItem.id Sample.apple) /\
    InventoryItem.quantity b < 0.
Proof.
  apply (completeSale_can_oversell [Sample.apples 12] (Sample.shop [] []) 0 Sample.apple);
    [reflexivity|reflexivity|reflexivity].
Defined.

Lemma completeSale_agreement_distinct_witness :
  let items := [Sample.apples 2; Sample.ghost 1; Sample.loaves 1] in
  let w := Sample.shop [] [] in
  let w' := (handleCompleteSale items w).2 in
  NoDup (map SaleItem.itemId items) /\
  (alerts w' = alerts w /\
   sales w' = newSale_in w items :: sales w /\
   Store.sales (store w') = Store.sales (store w) ++ [newSale_in w items] /\
   forall it cur, it ∈ items ->
     find (has_id (SaleItem.itemId it)) (inventory w) = Some cur ->
     InventoryItem.quantity <$> find (has_id (SaleItem.itemId it)) (inventory w')
       = Some (InventoryItem.quantity cur - SaleItem.quantity it) /\
     forall row, row ∈ Store.inventory (store w') ->
       InventoryItem.id row = SaleItem.itemId it ->
       InventoryItem.quantity row = InventoryItem.quantity cur - SaleItem.quantity it).
Proof.
  assert (Hnodup : NoDup (map SaleItem.itemId
                            [Sample.apples 2; Sample.ghost 1; Sample.loaves 1])).
  { apply (bool_decide_unpack _). vm_compute. reflexivity. }
  split; [exact Hnodup|].
  apply (completeSale_agreement_distinct
           [Sample.apples 2; Sample.ghost 1; Sample.loaves 1] (Sample.shop [] []));
    [constructor|exact Hnodup].
Defined.

Lemma completeSale_insert_failure_refetches_witness :
  let items := [Sample.apples 2] in
  let w := Sample.shop [] [Fails "busy"; Ok; Ok; Ok; Ok] in
  let w' := (handleCompleteSale items w).2 in
  (inventory w' = Sample.stock /\ sales w' = []) /\
  (calls w' = calls w ++ [InsertSale (newSale_in w items); SelectInventory; SelectSales;
                          SelectExpenses; SelectPurchaseOrders] /\
   alerts w' = alerts w ++ ["Error saving sale to database. Please check connection."%string] /\
   store w' = store w /\
   inventory w' = read_inventory (store w) /\
   sales w' = read_sales (store w) /\
   expenses w' = read_expenses (store w) /\
   purchaseOrders w' = read_purchase_orders (store w)).
Proof.
  split; [split; reflexivity|].
  apply (completeSale_insert_failure_refetches [Sample.apples 2]
           (Sample.shop [] [Fails "busy"; Ok; Ok; Ok; Ok]) (Fails "busy") []);
    [reflexivity|discriminate|reflexivity].
Defined.

(** ** The figures of the dashboard and of the report across a sale *)

(** The left fold of whole differences is exact while the sums of the two
    sides stay below [2^53]. *)
Lemma reduce_differences {A : Type} (f : A -> number) (a c : A -> Z) (arr : list A)
    (a0 c0 : Z) :
  Forall (fun x => f x = Number.of_Z (a x - c x) /\ 0 <= a x /\ 0 <= c x) arr ->
  0 <= a0 -> 0 <= c0 ->
  a0 + sum_of a arr < 2 ^ 53 ->
  c0 + sum_of c arr < 2 ^ 53 ->
  reduce (fun acc x => acc + f x)%num (Number.of_Z (a0 - c0)) arr
  = Number.of_Z (a0 + sum_of a arr - (c0 + sum_of c arr)).
Proof.
  unfold reduce, sum_of. intros Hall. revert a0 c0.
  induction Hall as [|x arr (Hx & Hax & Hcx) Hall IH]; intros a0 c0 Ha0 Hc0 Ha Hc;
    simpl in *.
  - f_equal. lia.
  - assert (Hta : 0 <= foldr (fun x acc => a x + acc) 0 arr).
    { clear -Hall. induction Hall as [|y arr (_ & Hy & _) _ IH]; simpl; lia. }
    assert (Htc : 0 <= foldr (fun x acc => c x + acc) 0 arr).
    { clear -Hall. induction Hall as [|y arr (_ & _ & Hy) _ IH]; simpl; lia. }
    rewrite Hx, add_exact by lia.
    replace (a0 - c0 + (a x - c x)) with ((a0 + a x) - (c0 + c x)) by lia.
    rewrite IH by lia. f_equal. lia.
Qed.

Lemma sale_amount_nonneg items :
  Forall whole_sale_item items -> 0 <= sale_amount items /\ 0 <= sale_cost items.
Proof.
  intros Hwhole. split; apply sum_of_nonneg; (eapply Forall_impl; [exact Hwhole|]);
    intros it (? & [[? _] _] & [[? _] _]); simpl; nia.
Qed.

(** The figures of the dashboard and of the report on books in whole
    numbers. *)
Lemma whole_books_figures inventory sales expenses :
  Forall whole_record sales ->
  books_revenue sales < 2 ^ 53 ->
  books_cost sales < 2 ^ 53 ->
  let m := Dashboard.metrics inventory sales in
  let f := FinancialReport.financials inventory sales expenses in
  Dashboard.totalRevenue m = Number.of_Z (books_revenue sales) /\
  FinancialReport.totalSales f = Number.of_Z (books_revenue sales) /\
  FinancialReport.totalCOGS f = Number.of_Z (books_cost sales) /\
  Dashboard.totalProfit m = Number.of_Z (books_revenue sales - books_cost sales) /\
  FinancialReport.grossProfit f = Number.of_Z (books_revenue sales - books_cost sales).
Proof.
  intros Hwhole Hrev Hcost. cbv zeta.
  unfold Dashboard.metrics, FinancialReport.financials.
  cbn [Dashboard.totalRevenue Dashboard.totalProfit FinancialReport.totalSales
       FinancialReport.totalCOGS FinancialReport.grossProfit].
  assert (Hnn : Forall (fun s => 0 <= sale_amount (SaleRecord.items s)
                                 /\ 0 <= sale_cost (SaleRecord.items s)) sales).
  { eapply Forall_impl; [exact Hwhole|]. intros s (Hitems & _). by apply sale_amount_nonneg. }
  assert (Hsales : reduce (fun acc s => acc + SaleRecord.totalAmount s)%num
                          (Number.of_Z 0) sales = Number.of_Z (books_revenue sales)).
  { rewrite (reduce_whole SaleRecord.totalAmount
               (fun s => sale_amount (SaleRecord.items s)) sales 0);
      [reflexivity| |lia|exact Hrev].
    rewrite Forall_forall in *. intros s Hs.
    destruct (Hwhole s Hs) as (_ & _ & _ & Ha & _). destruct (Hnn s Hs). done. }
  assert (Hcogs : reduce (fun acc s =>
                            acc + reduce (fun iAcc item =>
                                            iAcc + SaleItem.costAtSale item
                                                   * SaleItem.quantity item)%num
                                         (Number.of_Z 0) (SaleRecord.items s))%num
                         (Number.of_Z 0) sales = Number.of_Z (books_cost sales)).
  { rewrite (reduce_whole
               (fun s => reduce (fun iAcc item =>
                                   iAcc + SaleItem.costAtSale item * SaleItem.quantity item)%num
                                (Number.of_Z 0) (SaleRecord.items s))
               (fun s => sale_cost (SaleRecord.items s)) sales 0);
      [reflexivity| |lia|exact Hcost].
    rewrite Forall_forall in *. intros s Hs.
    destruct (Hwhole s Hs) as (Hitems & _ & Hc & _). destruct (Hnn s Hs). split; [|done].
    apply (reduce_products_whole SaleItem.quantity SaleItem.costAtSale); [|exact Hc].
    eapply Forall_impl; [exact Hitems|]. by intros it (? & _ & ?). }
  assert (Hrev_nn : 0 <= books_revenue sales).
  { apply sum_of_nonneg. eapply Forall_impl; [exact Hnn|]. by intros s [? _]. }
  assert (Hcost_nn : 0 <= books_cost sales).
  { apply sum_of_nonneg. eapply Forall_impl; [exact Hnn|]. by intros s [_ ?]. }
  rewrite Hsales, Hcogs. do 3 (split; [reflexivity|]). split.
  - change (Number.of_Z 0) with (Number.of_Z (0 - 0)).
    rewrite (reduce_differences SaleRecord.totalProfit
               (fun s => sale_amount (SaleRecord.items s))
               (fun s => sale_cost (SaleRecord.items s)) sales 0 0);
      [reflexivity| |lia|lia|exact Hrev|exact Hcost].
    rewrite Forall_forall in *. intros s Hs.
    destruct (Hwhole s Hs) as (_ & _ & _ & _ & Hp). destruct (Hnn s Hs). done.
  - apply sub_exact; lia.
Qed.

(** The record a sale of whole-number items adds is in whole numbers. *)
Lemma newSale_whole w items :
  Forall whole_sale_item items ->
  sale_amount items < 2 ^ 53 -> sale_cost items < 2 ^ 53 ->
  whole_record (newSale_in w items).
Proof.
  intros Hwhole Ha Hc. unfold whole_record, newSale_in.
  cbn [SaleRecord.items SaleRecord.totalAmount SaleRecord.totalProfit].
  destruct (sale_amount_nonneg items Hwhole) as [Hann Hcnn].
  destruct (reduce_products_whole SaleItem.quantity SaleItem.priceAtSale items) as [-> _];
    [eapply Forall_impl; [exact Hwhole|]; by intros it (? & ? & _)|exact Ha|].
  destruct (reduce_products_whole SaleItem.quantity SaleItem.costAtSale items) as [-> _];
    [eapply Forall_impl; [exact Hwhole|]; by intros it (? & _ & ?)|exact Hc|].
  do 4 (split; [done|]). apply sub_exact; unfold sale_amount, sale_cost in *; lia.
Qed.

(** The report computes the gross profit from the items of the sales, the
    dashboard the total profit from the profit each record stores.  On books
    in whole numbers a sale of items with whole prices and costs keeps the
    two in agreement: the new record is in whole numbers too, the revenue of
    the dashboard and of the report grow by exactly the amount of the sale,
    the cost of goods by its cost, and the gross profit of the report is the
    total profit of the dashboard, the revenue less the cost of goods. *)
Theorem completeSale_keeps_reports_in_step (items : list SaleItem.t) (w : World) :
  Forall whole_record (sales w) ->
  Forall whole_sale_item items ->
  books_revenue (sales w) + sale_amount items < 2 ^ 53 ->
  books_cost (sales w) + sale_cost items < 2 ^ 53 ->
  let w' := (handleCompleteSale_optimistic items w).2 in
  let m := Dashboard.metrics (inventory w) (sales w) in
  let m' := Dashboard.metrics (inventory w') (sales w') in
  let f' := FinancialReport.financials (inventory w') (sales w') (expenses w') in
  Forall whole_record (sales w') /\
  Dashboard.totalRevenue m = Number.of_Z (books_revenue (sales w)) /\
  Dashboard.totalRevenue m' = Number.of_Z (books_revenue (sales w) + sale_amount items) /\
  FinancialReport.totalSales f' = Dashboard.totalRevenue m' /\
  FinancialReport.totalCOGS f' = Number.of_Z (books_cost (sales w) + sale_cost items) /\
  Dashboard.totalProfit m = Number.of_Z (books_revenue (sales w) - books_cost (sales w)) /\
  Dashboard.totalProfit m' =
    Number.of_Z (books_revenue (sales w) + sale_amount items
                 - (books_cost (sales w) + sale_cost items)) /\
  FinancialReport.grossProfit f' = Dashboard.totalProfit m'.
Proof.
  intros Hbooks Hitems Hrev Hcost. cbv zeta.
  destruct (handleCompleteSale_optimistic_run items w) as (inv' & n & Hrun & _).
  rewrite Hrun. cbn [snd sales inventory expenses optimistic_world].
  destruct (sale_amount_nonneg items Hitems) as [Hann Hcnn].
  assert (Hrev_nn : 0 <= books_revenue (sales w)).
  { apply sum_of_nonneg. eapply Forall_impl; [exact Hbooks|].
    intros s (Hs & _). by apply sale_amount_nonneg. }
  assert (Hcost_nn : 0 <= books_cost (sales w)).
  { apply sum_of_nonneg. eapply Forall_impl; [exact Hbooks|].
    intros s (Hs & _). by apply sale_amount_nonneg. }
  assert (Hnew : Forall whole_record (newSale_in w items :: sales w)).
  { constructor; [|exact Hbooks]. apply newSale_whole; [exact Hitems|lia|lia]. }
  assert (Hrev' : books_revenue (newSale_in w items :: sales w)
                  = books_revenue (sales w) + sale_amount items).
  { unfold books_revenue, sum_of. simpl. lia. }
  assert (Hcost' : books_cost (newSale_in w items :: sales w)
                   = books_cost (sales w) + sale_cost items).
  { unfold books_cost, sum_of. simpl. lia. }
  destruct (whole_books_figures (inventory w) (sales w) (expenses w) Hbooks)
    as (Hr & _ & _ & Hp & _); [lia|lia|].
  destruct (whole_books_figures inv' (newSale_in w items :: sales w) (expenses w) Hnew)
    as (Hr' & Hs' & Hc' & Hp' & Hg'); [lia|lia|].
  rewrite Hrev', Hcost' in *.
  split; [exact Hnew|]. split; [exact Hr|]. split; [exact Hr'|].
  split; [by rewrite Hs', Hr'|]. split; [exact Hc'|]. split; [exact Hp|].
  split; [exact Hp'|]. by rewrite Hg', Hp'.
Qed.

Lemma completeSale_keeps_reports_in_step_witness :
  let items := [Sample.apples 2; Sample.loaves 1] in
  let w := Sample.trading [] in
  let w' := (handleCompleteSale_optimistic items w).2 in
  let m := Dashboard.metrics (inventory w) (sales w) in
  let m' := Dashboard.metrics (inventory w') (sales w') in
  let f' := FinancialReport.financials (inventory w') (sales w') (expenses w') in
  (Dashboard.totalRevenue m = Number.of_Z 5 /\
   Dashboard.totalProfit m = Number.of_Z (-1) /\
   Dashboard.totalRevenue m' = Number.of_Z 13 /\
   Dashboard.totalProfit m' = Number.of_Z 2 /\
   FinancialReport.grossProfit f' = Number.of_Z 2) /\
  Forall whole_record (sales w') /\
  Dashboard.totalRevenue m = Number.of_Z (books_revenue (sales w)) /\
  Dashboard.totalRevenue m' = Number.of_Z (books_revenue (sales w) + sale_amount items) /\
  FinancialReport.totalSales f' = Dashboard.totalRevenue m' /\
  FinancialReport.totalCOGS f' = Number.of_Z (books_cost (sales w) + sale_cost items) /\
  Dashboard.totalProfit m = Number.of_Z (books_revenue (sales w) - books_cost (sales w)) /\
  Dashboard.totalProfit m' =
    Number.of_Z (books_revenue (sales w) + sale_amount items
                 - (books_cost (sales w) + sale_cost items)) /\
  FinancialReport.grossProfit f' = Dashboard.totalProfit m'.
Proof.
  split; [repeat split|].
  apply (completeSale_keeps_reports_in_step [Sample.apples 2; Sample.loaves 1]
           (Sample.trading [])).
  - repeat constructor; vm_compute; congruence.
  - repeat constructor; vm_compute; congruence.
  - reflexivity.
  - reflexivity.
Defined.

Lemma sum_of_insert {A : Type} (f : A -> Z) (l : list A) (i : nat) (x y : A) :
  l !! i = Some x ->
  sum_of f (<[i := y]> l) = sum_of f l - f x + f y.
Proof.
  revert i. induction l as [|z l IH]; intros [|i]; simpl; try discriminate.
  - intros [= ->]. unfold sum_of. simpl. lia.
  - intros Hi. unfold sum_of in *. simpl. rewrite (IH i Hi). lia.
Qed.

Lemma sum_of_ext {A : Type} (f g : A -> Z) (l : list A) :
  (forall x, f x = g x) -> sum_of f l = sum_of g l.
Proof.
  intros Hfg. induction l as [|x l IH]; [reflexivity|].
  unfold sum_of in *. simpl. by rewrite Hfg, IH.
Qed.

Lemma sum_of_map {A B : Type} (f : B -> Z) (g : A -> B) (l : list A) :
  sum_of f (map g l) = sum_of (fun x => f (g x)) l.
Proof.
  induction l as [|x l IH]; [reflexivity|]. unfold sum_of in *. simpl. by rewrite IH.
Qed.

(** An adjustment moves the exact value at cost by the adjusted quantity at
    the cost price of the match. *)
Lemma adjust_value inv x delta ts :
  stock_value (adjust inv x delta ts) = stock_value inv + cost_of inv x * delta.
Proof.
  unfold adjust, cost_of, stock_value.
  destruct (find (has_id x) inv) as [p|] eqn:Hfind; [|lia].
  pose proof (findIndex_found _ _ _ Hfind) as Hpos.
  pose proof (at_index_findIndex (has_id x) inv) as Hat.
  rewrite Hfind in Hat. unfold at_index in Hat.
  destruct (Z.ltb_spec (findIndex (has_id x) inv) 0); [lia|].
  unfold set_index. rewrite (sum_of_insert _ _ _ _ _ Hat). simpl. lia.
Qed.

(** An adjustment leaves the cost price a lookup finds. *)
Lemma adjust_cost_of inv x delta ts y :
  cost_of (adjust inv x delta ts) y = cost_of inv y.
Proof.
  unfold cost_of.
  destruct (find (has_id y) inv) as [cur|] eqn:Hfind.
  - pose proof (findIndex_found _ _ _ Hfind) as Hpos.
    pose proof (at_index_findIndex (has_id y) inv) as Hat.
    pose proof (at_index_findIndex (has_id y) (adjust inv x delta ts)) as Hat'.
    assert (Hsame : findIndex (has_id y) (adjust inv x delta ts) = findIndex (has_id y) inv).
    { apply findIndex_ext.
      transitivity (map (fun i => bool_decide (i = y))
                        (map InventoryItem.id (adjust inv x delta ts))).
      - by rewrite map_map.
      - rewrite adjust_ids. by rewrite map_map. }
    rewrite Hsame in Hat'. rewrite Hfind in Hat. unfold at_index in *.
    destruct (Z.ltb_spec (findIndex (has_id y) inv) 0); [lia|].
    rewrite (adjust_lookup _ x delta ts _ _ Hat) in Hat'. rewrite <- Hat'.
    by case_bool_decide.
  - by rewrite (find_ids y inv (adjust inv x delta ts) (adjust_ids _ _ _ _) Hfind).
Qed.

Lemma Adjusted_value ds inv inv' :
  Adjusted ds inv inv' ->
  stock_value inv' = stock_value inv + sum_of (fun d => cost_of inv (fst d) * snd d) ds.
Proof.
  induction 1 as [inv|id delta ts ds inv inv' _ IH]; [unfold sum_of; simpl; lia|].
  rewrite IH, adjust_value.
  rewrite (sum_of_ext (fun d => cost_of (adjust inv id delta ts) d.1 * d.2)
                      (fun d => cost_of inv d.1 * d.2))
    by (intros d; by rewrite adjust_cost_of).
  unfold sum_of. simpl. lia.
Qed.

Lemma cost_of_nonneg inv id : whole_stock inv -> 0 <= cost_of inv id.
Proof.
  intros Hwhole. unfold cost_of.
  destruct (find (has_id id) inv) as [cur|] eqn:Hfind; [|lia].
  apply find_some in Hfind as [Hin _].
  unfold whole_stock in Hwhole. rewrite Forall_forall in Hwhole.
  by destruct (Hwhole cur Hin) as [_ [[? _] _]].
Qed.

(** The value at cost the dashboard and the report show for an inventory in
    whole numbers. *)
Lemma whole_stock_value inv sales expenses :
  whole_stock inv -> stock_value inv < 2 ^ 53 ->
  Dashboard.totalInventoryValue (Dashboard.metrics inv sales)
    = Number.of_Z (stock_value inv) /\
  FinancialReport.inventoryValue (FinancialReport.financials inv sales expenses)
    = Number.of_Z (stock_value inv).
Proof.
  intros Hwhole Hvalue.
  unfold Dashboard.metrics, FinancialReport.financials.
  cbn [Dashboard.totalInventoryValue FinancialReport.inventoryValue].
  by destruct (reduce_products_whole InventoryItem.quantity InventoryItem.costPrice
                 inv Hwhole Hvalue) as [_ ->].
Qed.

(** What a sale does to the inventory value of the dashboard and of the
    report before any answer of the store, for an inventory in whole numbers
    with a value below [2^53], sale quantities that are not negative and no
    item sold below zero: the value falls by exactly the quantity of every
    sale item with a match at the current cost price of the match, whatever
    cost the sale item records. *)
Theorem completeSale_moves_dashboard (items : list SaleItem.t) (w : World) :
  whole_stock (inventory w) ->
  stock_value (inventory w) < 2 ^ 53 ->
  Forall (fun it => 0 <= SaleItem.quantity it) items ->
  let w' := (handleCompleteSale_optimistic items w).2 in
  Forall (fun i => 0 <= InventoryItem.quantity i) (inventory w') ->
  let sold_at_cost :=
    sum_of (fun it => cost_of (inventory w) (SaleItem.itemId it) * SaleItem.quantity it)
           items in
  Dashboard.totalInventoryValue (Dashboard.metrics (inventory w) (sales w))
    = Number.of_Z (stock_value (inventory w)) /\
  Dashboard.totalInventoryValue (Dashboard.metrics (inventory w') (sales w'))
    = Number.of_Z (stock_value (inventory w) - sold_at_cost) /\
  FinancialReport.inventoryValue
    (FinancialReport.financials (inventory w') (sales w') (expenses w'))
    = Number.of_Z (stock_value (inventory w) - sold_at_cost) /\
  0 <= sold_at_cost.
Proof.
  intros Hwhole Hvalue Hqty. cbv zeta.
  destruct (handleCompleteSale_optimistic_run items w) as (inv' & n & Hrun & Hadj).
  rewrite Hrun. cbn [snd sales inventory expenses optimistic_world]. intros Hleft.
  assert (Hsold : 0 <= sum_of (fun it => cost_of (inventory w) (SaleItem.itemId it)
                                         * SaleItem.quantity it) items).
  { apply sum_of_nonneg. eapply Forall_impl; [exact Hqty|]. simpl. intros it Hq.
    pose proof (cost_of_nonneg (inventory w) (SaleItem.itemId it) Hwhole). nia. }
  assert (Hvalue' : stock_value inv'
                    = stock_value (inventory w)
                      - sum_of (fun it => cost_of (inventory w) (SaleItem.itemId it)
                                          * SaleItem.quantity it) items).
  { rewrite (Adjusted_value _ _ _ Hadj). unfold sale_deltas. rewrite sum_of_map. simpl.
    assert (Hneg : forall l : list SaleItem.t,
      sum_of (fun x => cost_of (inventory w) (SaleItem.itemId x) * - SaleItem.quantity x) l
      = - sum_of (fun it => cost_of (inventory w) (SaleItem.itemId it) * SaleItem.quantity it) l).
    { induction l as [|x l IH]; [reflexivity|]. unfold sum_of in *. simpl. rewrite IH. lia. }
    rewrite Hneg. lia. }
  assert (Hwhole' : whole_stock inv').
  { destruct (Adjusted_lookup _ _ _ Hadj) as [Hlen Hlook].
    unfold whole_stock in *. rewrite Forall_lookup in *. intros k b Hb.
    destruct (inventory w !! k) as [a|] eqn:Ha.
    - destruct (Hlook k a Ha) as (b' & Hb' & Hsame & Hq & _).
      rewrite Hb in Hb'. injection Hb' as <-.
      destruct (Hwhole k a Ha) as [Hqa Hca].
      destruct Hsame as (_ & _ & _ & Hcost & _). rewrite <- Hcost.
      split; [|exact Hca]. specialize (Hleft k b Hb). simpl in Hleft.
      rewrite delta_for_sale in Hq.
      assert (0 <= sold items (InventoryItem.id a)).
      { clear -Hqty. induction Hqty as [|it l Hit _ IH]; simpl; [lia|].
        case_bool_decide; lia. }
      destruct (first_of_its_id (inventory w) k a); lia.
    - apply lookup_ge_None in Ha. rewrite <- Hlen in Ha.
      apply lookup_ge_None in Ha. congruence. }
  destruct (whole_stock_value (inventory w) (sales w) (expenses w) Hwhole Hvalue) as [Hm _].
  destruct (whole_stock_value inv' (newSale_in w items :: sales w) (expenses w) Hwhole')
    as [Hm' Hf']; [lia|].
  rewrite Hvalue' in *. done.
Qed.

Lemma completeSale_moves_dashboard_witness :
  let items := [Sample.apples 2; Sample.ghost 1; Sample.apples 3] in
  let w := Sample.shop [] [] in
  let w' := (handleCompleteSale_optimistic items w).2 in
  let sold_at_cost :=
    sum_of (fun it => cost_of (inventory w) (SaleItem.itemId it) * SaleItem.quantity it)
           items in
  (stock_value (inventory w) = 24 /\ sold_at_cost = 10) /\
  Dashboard.totalInventoryValue (Dashboard.metrics (inventory w) (sales w))
    = Number.of_Z (stock_value (inventory w)) /\
  Dashboard.totalInventoryValue (Dashboard.metrics (inventory w') (sales w'))
    = Number.of_Z (stock_value (inventory w) - sold_at_cost) /\
  FinancialReport.inventoryValue
    (FinancialReport.financials (inventory w') (sales w') (expenses w'))
    = Number.of_Z (stock_value (inventory w) - sold_at_cost) /\
  0 <= sold_at_cost.
Proof.
  split; [split; reflexivity|].
  apply (completeSale_moves_dashboard [Sample.apples 2; Sample.ghost 1; Sample.apples 3]
           (Sample.shop [] [])).
  - repeat constructor; vm_compute; congruence.
  - reflexivity.
  - repeat constructor; vm_compute; congruence.
  - repeat constructor; vm_compute; congruence.
Defined.

(** ** The stock adjustment dialog and the item form *)

(** The dialog refuses a quantity that does not parse or is negative: it
    shows its notice, stays open as it was, and never calls [onUpdate],
    whatever the user would have answered to the confirmation. *)
Theorem stock_adjustment_rejects_invalid_quantity
    (parseInt : string -> option Z)
    (onUpdate : string -> InventoryUpdates.t -> M unit) (confirmed : bool)
    (st : InventoryManager.AdjustModal) (item : InventoryItem.t) (w : World) :
  InventoryManager.adjustItem st = Some item ->
  (forall n, parseInt (InventoryManager.adjustQty st) = Some n -> n < 0) ->
  InventoryManager.handleStockAdjustment parseInt onUpdate confirmed st w
  = (inl st, push_alert "Please enter a valid non-negative quantity." w).
Proof.
  intros Hitem Hbad. unfold InventoryManager.handleStockAdjustment. rewrite Hitem.
  destruct (parseInt (InventoryManager.adjustQty st)) as [n|] eqn:Hparse.
  - specialize (Hbad n eq_refl). destruct (Z.ltb_spec n 0); [|lia]. by run.
  - by run.
Qed.

Lemma stock_adjustment_rejects_invalid_quantity_witness :
  let parseInt := fun s : string => if bool_decide (s = "-3"%string) then Some (-3) else None in
  let st := InventoryManager.mkAdjustModal true (Some Sample.apple) "-3" remove_stock in
  let w := Sample.shop [] [] in
  InventoryManager.handleStockAdjustment parseInt handleUpdateItem true st w
  = (inl st, push_alert "Please enter a valid non-negative quantity." w).
Proof.
  apply (stock_adjustment_rejects_invalid_quantity
           (fun s : string => if bool_decide (s = "-3"%string) then Some (-3) else None)
           handleUpdateItem true
           (InventoryManager.mkAdjustModal true (Some Sample.apple) "-3" remove_stock)
           Sample.apple (Sample.shop [] [])); [reflexivity|].
  intros n. simpl. intros [= <-]. lia.
Defined.

(** A confirmed adjustment by a parsed quantity [n >= 0], with
    [handleUpdateItem] as [onUpdate] and the store accepting the update: the
    dialog closes, and every local item and every row of the store with the
    identifier of the dialog's item takes the new quantity and the clock's
    reading and keeps its other fields, the other items staying as they
    are.  The new quantity is computed from the quantity the dialog holds
    since it was opened: that quantity plus [n], that quantity less [n] but
    not below zero, or [n]; it is never negative when the held quantity is
    not.  Declined, the adjustment changes nothing. *)
Theorem stock_adjustment_applies
    (parseInt : string -> option Z)
    (st : InventoryManager.AdjustModal) (item : InventoryItem.t) (n : Z) (w : World) :
  InventoryManager.adjustItem st = Some item ->
  parseInt (InventoryManager.adjustQty st) = Some n ->
  0 <= n ->
  0 <= InventoryItem.quantity item ->
  next_outcome w = Ok ->
  let run := InventoryManager.handleStockAdjustment parseInt handleUpdateItem true st w in
  let q := match InventoryManager.adjustmentType st with
           | add_stock => InventoryItem.quantity item + n
           | remove_stock => Z.max 0 (InventoryItem.quantity item - n)
           | set_stock => n
           end in
  let change := fun i : InventoryItem.t =>
    if bool_decide (InventoryItem.id i = InventoryItem.id item)
    then InventoryItem.with_quantity i q (clock w (ticks w)) else i in
  InventoryManager.handleStockAdjustment parseInt handleUpdateItem false st w = (inl st, w) /\
  run.1 = inl (InventoryManager.closeAdjustModal st) /\
  InventoryManager.isAdjustModalOpen (InventoryManager.closeAdjustModal st) = false /\
  0 <= q /\
  inventory run.2 = map change (inventory w) /\
  Store.inventory (store run.2) = map change (Store.inventory (store w)) /\
  alerts run.2 = alerts w.
Proof.
  intros Hitem Hparse Hn Hq Hok. cbv zeta.
  assert (Hvalid : (match parseInt (InventoryManager.adjustQty st) with
                    | None => true | Some m => m <? 0 end) = false).
  { rewrite Hparse. by destruct (Z.ltb_spec n 0); [lia|]. }
  split.
  { unfold InventoryManager.handleStockAdjustment. rewrite Hitem, Hvalid. reflexivity. }
  destruct (InventoryManager.handleStockAdjustment parseInt handleUpdateItem true st w)
    as [r w'] eqn:Hrun. simpl. revert Hrun.
  unfold InventoryManager.handleStockAdjustment. rewrite Hitem, Hvalid.
  unfold InventoryManager.getResultingQty. rewrite Hitem, Hparse. simpl.
  unfold handleUpdateItem, updateInventory. run_request. rewrite Hok. simpl.
  intros [= <- <-]. simpl.
  assert (Hmerge : forall i : InventoryItem.t, forall q' ts,
            InventoryUpdates.merge i
              (InventoryUpdates.stamped (InventoryUpdates.only_quantity q') ts)
            = InventoryItem.with_quantity i q' ts) by (by intros [] ? ?).
  split; [reflexivity|]. split; [reflexivity|].
  split; [destruct (InventoryManager.adjustmentType st); lia|].
  split; [|split; [|reflexivity]];
    apply map_ext; intros i; by rewrite Hmerge.
Qed.

Lemma stock_adjustment_applies_witness :
  let parseInt := fun s : string => if bool_decide (s = "12"%string) then Some 12 else None in
  let st := InventoryManager.mkAdjustModal true (Some Sample.apple) "12" remove_stock in
  let w := Sample.shop [] [] in
  let run := InventoryManager.handleStockAdjustment parseInt handleUpdateItem true st w in
  InventoryItem.quantity <$> inventory run.2 = [0; 4] /\
  let q := match InventoryManager.adjustmentType st with
           | add_stock => InventoryItem.quantity Sample.apple + 12
           | remove_stock => Z.max 0 (InventoryItem.quantity Sample.apple - 12)
           | set_stock => 12
           end in
  let change := fun i : InventoryItem.t =>
    if bool_decide (InventoryItem.id i = InventoryItem.id Sample.apple)
    then InventoryItem.with_quantity i q (clock w (ticks w)) else i in
  InventoryManager.handleStockAdjustment parseInt handleUpdateItem false st w = (inl st, w) /\
  run.1 = inl (InventoryManager.closeAdjustModal st) /\
  InventoryManager.isAdjustModalOpen (InventoryManager.closeAdjustModal st) = false /\
  0 <= q /\
  inventory run.2 = map change (inventory w) /\
  Store.inventory (store run.2) = map change (Store.inventory (store w)) /\
  alerts run.2 = alerts w.
Proof.
  split; [reflexivity|].
  apply (stock_adjustment_applies
           (fun s : string => if bool_decide (s = "12"%string) then Some 12 else None)
           (InventoryManager.mkAdjustModal true (Some Sample.apple) "12" remove_stock)
           Sample.apple 12 (Sample.shop [] []));
    [reflexivity|reflexivity|lia|simpl; lia|reflexivity].
Defined.

(** Submitting the item form while an item with a non-empty identifier is
    being edited, with the handlers of the application and the store
    accepting the update: the form is reset and closed, the inventory keeps
    its length and its identifiers in order, and every item with the edited
    identifier has the six fields of the form and the clock's reading,
    locally and in the store. *)
Theorem item_form_edit_keeps_identity (form : InventoryManager.ItemForm) (id : string)
    (w : World) :
  InventoryManager.editingId form = Some id ->
  id <> ""%string ->
  next_outcome w = Ok ->
  let run := InventoryManager.handleSubmit handleAddItem handleUpdateItem form w in
  let f := InventoryManager.formData form in
  let edited := fun i : InventoryItem.t =>
    if bool_decide (InventoryItem.id i = id)
    then InventoryItem.mk (InventoryItem.id i) (NewItem.name f) (NewItem.category f)
           (NewItem.quantity f) (NewItem.costPrice f) (NewItem.salesPrice f)
           (NewItem.lowStockThreshold f) (clock w (ticks w))
    else i in
  run.1 = inl InventoryManager.resetForm /\
  inventory run.2 = map edited (inventory w) /\
  Store.inventory (store run.2) = map edited (Store.inventory (store w)) /\
  map InventoryItem.id (inventory run.2) = map InventoryItem.id (inventory w) /\
  drawn run.2 = drawn w.
Proof.
  intros Hid Hne Hok. cbv zeta.
  destruct (InventoryManager.handleSubmit handleAddItem handleUpdateItem form w)
    as [r w'] eqn:Hrun. simpl. revert Hrun.
  unfold InventoryManager.handleSubmit. rewrite Hid.
  rewrite bool_decide_eq_false_2 by done.
  unfold handleUpdateItem, updateInventory. run_request. rewrite Hok. simpl.
  intros [= <- <-]. simpl.
  split; [reflexivity|]. split; [reflexivity|]. split; [reflexivity|].
  split; [|reflexivity].
  rewrite map_map. apply map_ext. intros i. by case_bool_decide.
Qed.

Lemma item_form_edit_keeps_identity_witness :
  let form := InventoryManager.mkItemForm true (Some "B"%string)
                (NewItem.mk "Rye bread" "bakery" 6 2 4 2) in
  let w := Sample.shop [] [] in
  let run := InventoryManager.handleSubmit handleAddItem handleUpdateItem form w in
  let f := InventoryManager.formData form in
  let edited := fun i : InventoryItem.t =>
    if bool_decide (InventoryItem.id i = "B"%string)
    then InventoryItem.mk (InventoryItem.id i) (NewItem.name f) (NewItem.category f)
           (NewItem.quantity f) (NewItem.costPrice f) (NewItem.salesPrice f)
           (NewItem.lowStockThreshold f) (clock w (ticks w))
    else i in
  run.1 = inl InventoryManager.resetForm /\
  inventory run.2 = map edited (inventory w) /\
  Store.inventory (store run.2) = map edited (Store.inventory (store w)) /\
  map InventoryItem.id (inventory run.2) = map InventoryItem.id (inventory w) /\
  drawn run.2 = drawn w.
Proof.
  apply (item_form_edit_keeps_identity
           (InventoryManager.mkItemForm true (Some "B"%string)
              (NewItem.mk "Rye bread" "bakery" 6 2 4 2))
           "B" (Sample.shop [] [])); [reflexivity|discriminate|reflexivity].
Defined.

(** ** The order form *)

Lemma sum_of_delete {A : Type} (f : A -> Z) (l : list A) (i : nat) (x : A) :
  l !! i = Some x -> sum_of f (delete i l) = sum_of f l - f x.
Proof.
  revert i. induction l as [|z l IH]; intros [|i]; simpl; try discriminate.
  - intros [= ->]. unfold sum_of. simpl. lia.
  - intros Hi. unfold sum_of in *. simpl. rewrite (IH i Hi). lia.
Qed.

(** Adding the selected item to the order form puts one more line at the
    end, also when the item is on the order already, adds quantity times
    unit cost to the total as the last term, and clears the entry line;
    removing that last line gives the lines back as they were.  Without a
    selection nothing changes. *)
Theorem order_form_add_line (orderItems : list PurchaseOrderItem.t)
    (entry : PurchaseOrdersManager.Entry) :
  let added := PurchaseOrdersManager.handleAddItem orderItems entry in
  match PurchaseOrdersManager.selectedInventoryItem entry with
  | None => added = (orderItems, entry)
  | Some item =>
      added.2 = PurchaseOrdersManager.blank_entry /\
      length added.1 = S (length orderItems) /\
      last added.1 = Some (PurchaseOrderItem.mk (InventoryItem.id item) (InventoryItem.name item)
                             (PurchaseOrdersManager.addQty entry)
                             (PurchaseOrdersManager.addCost entry)) /\
      PurchaseOrdersManager.order_total added.1
        = (PurchaseOrdersManager.order_total orderItems
           + PurchaseOrdersManager.addQty entry * PurchaseOrdersManager.addCost entry)%num /\
      PurchaseOrdersManager.handleRemoveItem added.1 (length orderItems) = orderItems
  end.
Proof.
  cbv zeta. unfold PurchaseOrdersManager.handleAddItem.
  destruct (PurchaseOrdersManager.selectedInventoryItem entry) as [item|]; [|reflexivity].
  simpl. split; [reflexivity|]. split; [rewrite length_app; simpl; lia|].
  split; [apply last_snoc|]. split.
  - unfold PurchaseOrdersManager.order_total. by rewrite reduce_snoc.
  - unfold PurchaseOrdersManager.handleRemoveItem.
    induction orderItems as [|x l IH]; [reflexivity|]. simpl. by rewrite IH.
Qed.

(** Removing a line of the order form leaves the other lines in order.
    Where the quantities are counts below [2^53], the unit costs are whole
    numbers and the total is below [2^53], the total the form shows is the
    exact sum before and after, lower by the line's quantity times unit
    cost. *)
Theorem order_form_remove_line (orderItems : list PurchaseOrderItem.t) (index : nat)
    (line : PurchaseOrderItem.t) :
  orderItems !! index = Some line ->
  Forall whole_order_item orderItems ->
  let cost := fun it => PurchaseOrderItem.quantity it
                        * Number.to_Z (PurchaseOrderItem.unitCost it) in
  sum_of cost orderItems < 2 ^ 53 ->
  let rest := PurchaseOrdersManager.handleRemoveItem orderItems index in
  rest = take index orderItems ++ drop (S index) orderItems /\
  PurchaseOrdersManager.order_total orderItems = Number.of_Z (sum_of cost orderItems) /\
  PurchaseOrdersManager.order_total rest
    = Number.of_Z (sum_of cost orderItems - cost line).
Proof.
  intros Hline Hwhole cost Htotal. cbv zeta.
  unfold PurchaseOrdersManager.handleRemoveItem, PurchaseOrdersManager.order_total.
  split; [apply delete_take_drop|].
  assert (Hnn : Forall (fun it => 0 <= cost it) orderItems).
  { eapply Forall_impl; [exact Hwhole|]. unfold cost. intros it [? [[? _] _]]. nia. }
  assert (Hline_nn : 0 <= cost line).
  { rewrite Forall_forall in Hnn. apply Hnn. by eapply list_elem_of_lookup_2. }
  split.
  - by destruct (reduce_products_whole PurchaseOrderItem.quantity PurchaseOrderItem.unitCost
                   orderItems Hwhole Htotal) as [-> _].
  - assert (Hrest : sum_of cost (delete index orderItems) = sum_of cost orderItems - cost line)
      by (by apply sum_of_delete).
    destruct (reduce_products_whole PurchaseOrderItem.quantity PurchaseOrderItem.unitCost
                (delete index orderItems)) as [-> _].
    + by apply Forall_delete.
    + fold cost. lia.
    + fold cost. by rewrite Hrest.
Qed.

Lemma order_form_remove_line_witness :
  let orderItems := OrderForm.orderItems Sample.order_form in
  let cost := fun it => PurchaseOrderItem.quantity it
                        * Number.to_Z (PurchaseOrderItem.unitCost it) in
  let rest := PurchaseOrdersManager.handleRemoveItem orderItems 0 in
  (sum_of cost orderItems = 32 /\
   PurchaseOrdersManager.order_total rest = Number.of_Z 20) /\
  rest = take 0 orderItems ++ drop 1 orderItems /\
  PurchaseOrdersManager.order_total orderItems = Number.of_Z (sum_of cost orderItems) /\
  PurchaseOrdersManager.order_total rest
    = Number.of_Z (sum_of cost orderItems - 3 * 4).
Proof.
  split; [split; reflexivity|].
  apply (order_form_remove_line (OrderForm.orderItems Sample.order_form) 0
           (PurchaseOrderItem.mk "X" "Xylitol" 3 4)).
  - reflexivity.
  - repeat constructor; vm_compute; congruence.
  - reflexivity.
Defined.

(** ** Roles and screens *)

(** Once the data is loaded the main content shows the screen of the active
    view exactly when the view is among the navigation items of the role,
    and nothing otherwise; the navigation of a cashier has the dashboard,
    the point of sale, the sales history and the inventory only. *)
Theorem screens_follow_navigation (userRole : UserRole) (activeView : ViewState) :
  main_content userRole activeView
  = (if bool_decide (activeView ∈ nav_items userRole) then [activeView] else []) /\
  (activeView ∈ nav_items cashier <->
   activeView ∈ [dashboard; pos; history; inventory_view]) /\
  (activeView ∈ nav_items admin).
Proof.
  split; [|split].
  - destruct userRole, activeView; vm_compute; reflexivity.
  - reflexivity.
  - destruct activeView; apply (bool_decide_unpack _); vm_compute; reflexivity.
Qed.

(** ** The order form's submit *)

(** The order form refuses to submit without a supplier or without a line:
    it shows its notice, keeps the form as it is, and never calls
    [onCreateOrder]. *)
Theorem submitOrder_rejects_incomplete_form
    (onCreateOrder : PurchaseOrderDraft.t -> M unit) (form : OrderForm.t) (w : World) :
  OrderForm.supplier form = ""%string \/ OrderForm.orderItems form = [] ->
  handleSubmitOrder onCreateOrder form w
  = (inl form,
     push_alert "Please provide a supplier name and add at least one item." w).
Proof.
  intros Hincomplete. unfold handleSubmitOrder.
  assert (Hguard : bool_decide (OrderForm.supplier form = ""%string)
                   || (Z.of_nat (length (OrderForm.orderItems form)) =? 0) = true).
  { destruct Hincomplete as [->| ->]; [reflexivity|]. simpl. apply orb_true_r. }
  rewrite Hguard. by run.
Qed.

Lemma submitOrder_rejects_incomplete_form_witness :
  let form := OrderForm.mk create_view "Acme" "" [] in
  let w := Sample.shop [] [] in
  handleSubmitOrder handleCreatePO form w
  = (inl form,
     push_alert "Please provide a supplier name and add at least one item." w).
Proof.
  apply (submitOrder_rejects_incomplete_form handleCreatePO
           (OrderForm.mk create_view "Acme" "" []) (Sample.shop [] [])).
  by right.
Defined.

(** When the store fails the insert of a new order, by an error result or by
    a rejection, for a signed-in user and a store that answers the reads:
    the notice is shown, the store is as before, and the local orders are
    the store's, without the order that had been put in front; the form has
    been reset to the list view all the same. *)
Theorem createPurchaseOrder_failure_rolls_back (form : OrderForm.t) (w : World)
    (bad : Outcome) (rest : list Outcome) :
  OrderForm.supplier form <> ""%string ->
  OrderForm.orderItems form <> [] ->
  session w = true ->
  outcomes w = bad :: Ok :: Ok :: Ok :: Ok :: rest ->
  bad <> Ok ->
  let run := createPurchaseOrder form w in
  run.1 = inl (OrderForm.mk list_view ""%string ""%string []) /\
  purchaseOrders run.2 = read_purchase_orders (store w) /\
  inventory run.2 = read_inventory (store w) /\
  store run.2 = store w /\
  alerts run.2 = alerts w ++ ["Failed to save Purchase Order."%string].
Proof.
  intros Hsupplier Hitems Hs Hout Hbad. cbv zeta.
  assert (Hnext : next_outcome w = bad) by (unfold next_outcome; by rewrite Hout).
  destruct (createPurchaseOrder form w) as [r w'] eqn:Hrun. simpl. revert Hrun.
  unfold createPurchaseOrder, handleSubmitOrder.
  rewrite bool_decide_eq_false_2 by done.
  destruct (OrderForm.orderItems form) as [|line lines] eqn:Hlines; [done|].
  simpl. unfold handleCreatePO. run.
  unfold next_outcome at 1. simpl. rewrite Hout. simpl.
  destruct bad as [|e|e]; [done|..]; simpl;
    match goal with |- context [fetchData ?v] =>
      destruct (fetchData_reads v rest) as (v' & Hfetch & ? & ? & ? & ? & ? & ? & ?);
        [exact Hs|simpl; rewrite ?Hout; done|];
        rewrite Hfetch; intros [= <- <-]; simpl in *; done
    end.
Qed.

Lemma createPurchaseOrder_failure_rolls_back_witness :
  let w := Sample.shop [] [Rejects "offline"; Ok; Ok; Ok; Ok] in
  let run := createPurchaseOrder Sample.order_form w in
  run.1 = inl (OrderForm.mk list_view ""%string ""%string []) /\
  purchaseOrders run.2 = read_purchase_orders (store w) /\
  inventory run.2 = read_inventory (store w) /\
  store run.2 = store w /\
  alerts run.2 = alerts w ++ ["Failed to save Purchase Order."%string].
Proof.
  apply (createPurchaseOrder_failure_rolls_back Sample.order_form
           (Sample.shop [] [Rejects "offline"; Ok; Ok; Ok; Ok])
           (Rejects "offline") []);
    [discriminate|discriminate|reflexivity|reflexivity|discriminate].
Defined.
